(** * manageOSB.py: session and edit-transaction workflows

    A shallow embedding of the workflows of [manageOSB.py] that change the
    deployed configuration: [undeploy_osb_prj], [get_prj_details],
    [manage_proxy_services], [proxy_services_monitoring], [discard_session],
    [delete_work_manager] and [delete_queue]; of the listings
    [list_projects], [list_proxy_services] and [list_business_services];
    and of the functions that compute without the registry:
    [create_report], [get_env_prop_file] and [get_avail_envs_report].

    The script talks to a remote registry (WLST commands and OSB MBeans) and
    to an operator ([raw_input]).  Both are the environment of the program:
    every remote call is an element of [Call], answered by the platform's
    [respond] function, and every call and answer is recorded in the world's
    event list.  Python exceptions are the [Raise] results of the monad [M];
    effects performed before an exception stay in the state, as in Python.

    [log] and [print] only write to the console and to the log file; they
    are left out.  The rows handed to the final [create_report] are the
    result of a workflow, and the lines [create_report] makes of them are
    the result of [create_report]. *)

From Stdlib Require Import String Ascii List Bool Arith Lia NArith ZArith DecimalString.
From Stdlib Require Import Permutation Sorted.
Import ListNotations.
Local Open Scope list_scope.
Local Open Scope string_scope.

(* ------------------------------------------------------------------ *)
(** ** Python string operations used by the script *)

(** [str.isspace] on one character of a byte string. *)
Definition is_space (c : ascii) : bool :=
  match nat_of_ascii c with
  | 32 | 9 | 10 | 11 | 12 | 13 => true
  | _ => false
  end.

Fixpoint lstrip (s : string) : string :=
  match s with
  | EmptyString => EmptyString
  | String c s' => if is_space c then lstrip s' else s
  end.

Fixpoint rstrip (s : string) : string :=
  match s with
  | EmptyString => EmptyString
  | String c s' =>
      match rstrip s' with
      | EmptyString => if is_space c then EmptyString else String c EmptyString
      | r => String c r
      end
  end.

(** Empty or whitespace only. *)
Fixpoint all_space (s : string) : bool :=
  match s with
  | EmptyString => true
  | String c s' => is_space c && all_space s'
  end.

(** [s.strip()] *)
Definition strip (s : string) : string := rstrip (lstrip s).

Definition upper_ascii (c : ascii) : ascii :=
  let n := nat_of_ascii c in
  if andb (Nat.leb 97 n) (Nat.leb n 122) then ascii_of_nat (n - 32) else c.

(** [s.upper()] *)
Fixpoint upper (s : string) : string :=
  match s with
  | EmptyString => EmptyString
  | String c s' => String (upper_ascii c) (upper s')
  end.

(** [s.split(sep)] for a one-character separator: never the empty list. *)
Fixpoint split (sep : ascii) (s : string) : list string :=
  match s with
  | EmptyString => [EmptyString]
  | String c s' =>
      if Ascii.eqb c sep then EmptyString :: split sep s'
      else match split sep s' with
           | [] => [String c EmptyString]
           | w :: ws => String c w :: ws
           end
  end.

(** [sep.join(l)] *)
Fixpoint join (sep : string) (l : list string) : string :=
  match l with
  | [] => EmptyString
  | [x] => x
  | x :: l' => x ++ sep ++ join sep l'
  end.

(** [sub in s] *)
Fixpoint contains (sub s : string) : bool :=
  if prefix sub s then true
  else match s with
       | EmptyString => false
       | String _ s' => contains sub s'
       end.

(** [s.replace(old, "")] for a non-empty [old]: scans left to right and
    drops every non-overlapping occurrence; [skip] counts the characters of
    the occurrence being dropped that are still ahead. *)
Fixpoint remove_from (old s : string) (skip : nat) : string :=
  match s with
  | EmptyString => EmptyString
  | String c s' =>
      match skip with
      | S k => remove_from old s' k
      | O => if prefix old s then remove_from old s' (String.length old - 1)
             else String c (remove_from old s' 0)
      end
  end.

Definition remove_all (old s : string) : string := remove_from old s 0.


(** [l[-1]] on the result of a split *)
Definition last_item (l : list string) : string := last l EmptyString.

(** [x in l] for a list of strings *)
Definition mem (x : string) (l : list string) : bool :=
  existsb (String.eqb x) l.

(** [str(v)] for a value that is a string or [None]. *)
Definition py_str (v : option string) : string :=
  match v with
  | Some s => s
  | None => "None"
  end.

(** [str(n)] for a non-negative integer. *)
Definition str_of_N (n : N) : string := NilZero.string_of_uint (N.to_uint n).
Definition str_of_nat (n : nat) : string := str_of_N (N.of_nat n).

(** The test applied to every Y/N answer:
    [choice.upper() == "Y" or choice.strip() == ""]. *)
Definition confirmed (choice : string) : bool :=
  (upper choice =? "Y") || (strip choice =? "").

(* ------------------------------------------------------------------ *)
(** ** Remote objects and remote calls *)

(** A handle on a service MBean, as [findService] returns it. *)
Definition MBean := string.

(** A configuration bean of the edit tree (a work manager, a constraint, a
    JMS module, a destination, a foreign server); [b.name] is its name. *)
Record Bean : Type := mkBean { bean_name : string }.

(** A resource reference ([com.bea.wli.config.Ref]). *)
Record Ref : Type := mkRef { typeId : string; fullName : string }.

Inductive EnvValueType : Type := SERVICE_URI | WORK_MANAGER | SERVICE_URI_TABLE.

(** What the script asks of the registry.  The index is the type of the
    answer.  Methods of [cmo] carry the path the script last changed to. *)
Inductive Call : Type -> Type :=
  (* OSB services *)
  | DomainRuntime : Call unit
  | CurrentTimeMillis : Call N
  | FindService (name : string) : Call (option MBean)
  | CreateSession (sm : MBean) (session : string) : Call unit
  | ActivateSession (sm : MBean) (session comment : string) : Call unit
  | SessionExists (sm : MBean) (session : string) : Call bool
  | DiscardSession (sm : MBean) (session : string) : Call unit
  | Exists (alsb : MBean) (prj : string) : Call bool
  | Delete (alsb : MBean) (prj : string) : Call unit
  | GetRefs (alsb : MBean) (prj : string) : Call (list Ref)
  | GetRefsQuery (alsb : MBean) (local_name path : string) : Call (list Ref)
  | GetEnvValue (alsb : MBean) (r : Ref) (k : EnvValueType) : Call (option string)
  | IsEnabled (mb : MBean) (r : Ref) : Call bool
  | IsMonitoringEnabled (psc : MBean) (r : Ref) : Call bool
  | EnableService (psc : MBean) (r : Ref) : Call unit
  | DisableService (psc : MBean) (r : Ref) : Call unit
  | EnableMonitoring (psc : MBean) (r : Ref) : Call unit
  | DisableMonitoring (psc : MBean) (r : Ref) : Call unit
  (* WLST edit tree *)
  | Edit : Call unit
  | StartEdit : Call unit
  | Cd (path : string) : Call unit
  | Save : Call unit
  | Activate : Call unit
  | CancelEdit : Call unit
  | Undo : Call unit
  | CmoName (cmo : string) : Call string
  | GetMBean (cmo name : string) : Call (option Bean)
  | GetMaxThreadsConstraint (wm : Bean) : Call (option Bean)
  | GetMinThreadsConstraint (wm : Bean) : Call (option Bean)
  | RemoveReferencesToBean (b : Bean) : Call unit
  | DestroyMaxThreadsConstraint (cmo : string) (b : Bean) : Call unit
  | DestroyMinThreadsConstraint (cmo : string) (b : Bean) : Call unit
  | DestroyWorkManager (cmo : string) (b : Bean) : Call unit
  | JMSSystemResources (cmo : string) : Call (list Bean)
  | LookupUniformDistributedQueue (cmo name : string) : Call (option Bean)
  | LookupQueue (cmo name : string) : Call (option Bean)
  | GetForeignServers (cmo : string) : Call (list Bean)
  | LookupForeignDestination (srv : Bean) (name : string) : Call (option Bean)
  | GetErrorDestination (q : Bean) : Call (option Bean)
  | DestroyUniformDistributedQueue (cmo : string) (b : Bean) : Call unit
  | DestroyQueue (cmo : string) (b : Bean) : Call unit
  | DestroyForeignDestination (cmo : string) (b : Bean) : Call unit.

Inductive exn : Type :=
  | WLSTException | ValueError | NameError | AttributeError
  | EOFError | IndexError | ExpatError.

Inductive res (A : Type) : Type :=
  | Ok (a : A)
  | Raise (e : exn).
Arguments Ok {A} a.
Arguments Raise {A} e.

(** What happened, most recent event first: a remote call with its answer,
    a prompt with the operator's answer ([None] at end of input), and the
    entry into one of the script's own functions. *)
Inductive Event : Type :=
  | EvCall (T : Type) (c : Call T) (r : res T)
  | EvInput (prompt : string) (answer : option string)
  | EvEnter (fn arg : string).
Arguments EvCall {T} c r.

(** The platform the script runs on: the registry with its state, the
    command line, and [xml.dom.minidom].  [xml_elements markup tag] stands
    for [parseString(markup).getElementsByTagName(tag)] with every element
    rendered by [toxml()]; it is [None] when [parseString] raises. *)
Class Platform : Type := {
  Env : Type;
  respond : forall T, Call T -> Env -> res T * Env;
  argv : list string;
  xml_elements : string -> string -> option (list string)
}.

(** [is_standalone]: the script was started with arguments. *)
Section Model.
Context `{Platform}.

Definition is_standalone : bool := Nat.ltb 1 (length argv).

Record World : Type := mkWorld {
  w_env : Env;
  w_events : list Event;
  w_inputs : list string;
  w_cmo : string
}.

(* ------------------------------------------------------------------ *)
(** ** The monad: local variables, world, exceptions *)

Definition M (L A : Type) : Type := L -> World -> res A * L * World.

Definition ret {L A} (a : A) : M L A := fun l w => (Ok a, l, w).

Definition bind {L A B} (m : M L A) (k : A -> M L B) : M L B :=
  fun l w =>
    match m l w with
    | (Ok a, l', w') => k a l' w'
    | (Raise e, l', w') => (Raise e, l', w')
    end.

Definition raise {L A} (e : exn) : M L A := fun l w => (Raise e, l, w).

(** [try: body  except: handler] *)
Definition try_except {L A} (body : M L A) (handler : exn -> M L A) : M L A :=
  fun l w =>
    match body l w with
    | (Ok a, l', w') => (Ok a, l', w')
    | (Raise e, l', w') => handler e l' w'
    end.

Declare Scope py_scope.
Delimit Scope py_scope with py.
Notation "x <- m ;; k" := (bind m (fun x => k))
  (at level 61, m at next level, right associativity) : py_scope.
Notation "m ;; k" := (bind m (fun _ => k))
  (at level 61, right associativity) : py_scope.
Local Open Scope py_scope.

Definition getL {L} : M L L := fun l w => (Ok l, l, w).
Definition modL {L} (f : L -> L) : M L unit := fun l w => (Ok tt, f l, w).

Definition record (ev : Event) (w : World) : World :=
  mkWorld (w_env w) (ev :: w_events w) (w_inputs w) (w_cmo w).

(** A remote call: the registry answers and moves to its next state. *)
Definition call {L T} (c : Call T) : M L T :=
  fun l w =>
    let (r, e') := respond T c (w_env w) in
    (r, l, mkWorld e' (EvCall c r :: w_events w) (w_inputs w) (w_cmo w)).

(** A method call on the result of [findService]: [None] has no methods. *)
Definition on {L T} (mb : option MBean) (c : MBean -> Call T) : M L T :=
  match mb with
  | Some m => call (c m)
  | None => raise AttributeError
  end.

(** [cd(path)]: on success [cmo] is the bean at [path]. *)
Definition cd {L} (path : string) : M L unit :=
  call (Cd path) ;;
  (fun l w => (Ok tt, l, mkWorld (w_env w) (w_events w) (w_inputs w) path)).

Definition cmo {L} : M L string := fun l w => (Ok (w_cmo w), l, w).

(** [raw_input(prompt)]: the next line of input, [EOFError] at its end. *)
Definition raw_input {L} (prompt : string) : M L string :=
  fun l w =>
    match w_inputs w with
    | [] => (Raise EOFError, l, record (EvInput prompt None) w)
    | a :: rest =>
        (Ok a, l, mkWorld (w_env w) (EvInput prompt (Some a) :: w_events w) rest (w_cmo w))
    end.

(** A call of one of the script's functions: the call is recorded, the
    callee runs on fresh locals and the same world. *)
Definition invoke {L L' A} (fn arg : string) (f : M L' A) (init : L') : M L A :=
  fun l w => let '(r, _, w') := f init (record (EvEnter fn arg) w) in (r, l, w').

(** Control after one round of a [for] loop. *)
Inductive ctl : Type := Next | Break | Return.

(** [for x in l: body]; the result tells whether the loop was left by
    [return] ([true]) or ran to its end or a [break] ([false]). *)
Fixpoint for_each {L X} (l : list X) (body : X -> M L ctl) : M L bool :=
  match l with
  | [] => ret false
  | x :: l' =>
      c <- body x ;;
      match c with
      | Next => for_each l' body
      | Break => ret false
      | Return => ret true
      end
  end.

(** A Y/N question: answered "Y" without asking when [is_standalone]. *)
Definition ask {L} (prompt : string) : M L string :=
  if is_standalone then ret "Y" else raw_input prompt.

(* ------------------------------------------------------------------ *)
(** ** discard_session *)

Definition discard_session (session_mbean : option MBean) (session_name : string)
  : M unit unit :=
  match session_mbean with
  | Some sm =>
      ex <- call (SessionExists sm session_name) ;;
      if ex then call (DiscardSession sm session_name) else ret tt
  | None => ret tt
  end.

(* ------------------------------------------------------------------ *)
(** ** delete_work_manager *)

(** A row of an outcome report: object type, object name, status. *)
Definition row := list string.

Definition append_row (r : row) : M (list row) unit := modL (fun rep => (rep ++ [r])%list).

Definition delete_work_manager (wm_name : string) : M (list row) (list row) :=
  try_except
    (call Edit ;;
     call StartEdit ;;
     cd "edit:/SelfTuning/" ;;
     c <- cmo ;;
     domain_name <- call (CmoName c) ;;
     cd ("/SelfTuning/" ++ domain_name ++ "/WorkManagers") ;;
     c <- cmo ;;
     wm_bean <- call (GetMBean c wm_name) ;;
     match wm_bean with
     | Some wm =>
         maxtc <- call (GetMaxThreadsConstraint wm) ;;
         mintc <- call (GetMinThreadsConstraint wm) ;;
         (* First remove MaxThreadsConstraint if exists *)
         match maxtc with
         | Some b =>
             let maxtc_name := bean_name b in
             call (RemoveReferencesToBean b) ;;
             call (DestroyMaxThreadsConstraint c b) ;;
             append_row ["MaxThreadsConstraint"; maxtc_name; "Deleted"]
         | None => ret tt
         end ;;
         (* Then remove MinThreadsConstraint if exists *)
         match mintc with
         | Some b =>
             let mintc_name := bean_name b in
             call (RemoveReferencesToBean b) ;;
             call (DestroyMinThreadsConstraint c b) ;;
             append_row ["MinThreadsConstraint"; mintc_name; "Deleted"]
         | None => ret tt
         end ;;
         (* Lastly remove work manager *)
         call (RemoveReferencesToBean wm) ;;
         call (DestroyWorkManager c wm) ;;
         append_row ["Work manager"; wm_name; "Deleted"] ;;
         call Save ;;
         call Activate
     | None =>
         append_row ["Work manager"; wm_name; "Not found"]
     end)
    (fun _ =>
       append_row ["Work manager"; wm_name; "Failed"] ;;
       call CancelEdit) ;;
  getL.

(* ------------------------------------------------------------------ *)
(** ** delete_queue *)

Record queue_locals : Type := mkQueueLocals {
  queues_report : list row;
  is_queue_found : bool;
  is_dmq_queue_deleted : bool
}.

Definition queue_locals0 : queue_locals := mkQueueLocals [] false false.

Definition q_append (r : row) : M queue_locals unit :=
  modL (fun l => mkQueueLocals (queues_report l ++ [r])%list (is_queue_found l)
                   (is_dmq_queue_deleted l)).
Definition q_set_found : M queue_locals unit :=
  modL (fun l => mkQueueLocals (queues_report l) true (is_dmq_queue_deleted l)).
Definition q_set_dmq_deleted : M queue_locals unit :=
  modL (fun l => mkQueueLocals (queues_report l) (is_queue_found l) true).

Definition ASK_QUEUE : string := "[INPUT] Do you want to delete this queue, Y/N [Y]? ".
Definition ASK_DMQ : string := "[INPUT] Do you want to delete this DMQ, Y/N [Y]? ".

(** The branch taken once a distributed queue ([kind] =
    "UniformDistributedQueue", destroyed by [destroy] =
    [DestroyUniformDistributedQueue]) or a plain queue ("Queue",
    [DestroyQueue]) was found in the current module; the two branches of
    the source differ in nothing else. *)
Definition delete_found_queue (kind : string)
    (destroy : string -> Bean -> Call unit)
    (queue_name : string) (queue_bean : Bean) : M queue_locals ctl :=
  q_set_found ;;
  del_queue_choice <- ask ASK_QUEUE ;;
  if confirmed del_queue_choice then
    (* Check if queue_name has an error destination (DMQ) *)
    dmq_queue_bean <- call (GetErrorDestination queue_bean) ;;
    (* Delete the queue *)
    c <- cmo ;;
    call (destroy c queue_bean) ;;
    (* Delete the DMQ if OK *)
    match dmq_queue_bean with
    | Some dmq =>
        del_queue_choice <- ask ASK_DMQ ;;
        if confirmed del_queue_choice then
          c <- cmo ;;
          call (destroy c dmq) ;;
          q_set_dmq_deleted
        else
          q_append ["DMQ"; bean_name dmq; "Skipped"]
    | None => ret tt
    end ;;
    (* Save and activate changes *)
    call Save ;;
    call Activate ;;
    (* Update report *)
    q_append [kind; queue_name; "Deleted"] ;;
    l <- getL ;;
    (if is_dmq_queue_deleted l then
       match dmq_queue_bean with
       | Some dmq => q_append ["DMQ"; bean_name dmq; "Deleted"]
       | None => ret tt
       end
     else ret tt) ;;
    (* Stop searching in different JMS modules *)
    ret Break
  else
    q_append ["UniformDistributedQueue"; queue_name; "Skipped"] ;;
    call CancelEdit ;;
    ret Next.

(** One round of the loop over the foreign servers of a module. *)
Definition delete_in_foreign_server (jms_module_name queue_name : string)
    (frn_srv : Bean) : M queue_locals ctl :=
  fd_bean <- call (LookupForeignDestination frn_srv queue_name) ;;
  match fd_bean with
  | Some fd =>
      q_set_found ;;
      cd ("/JMSSystemResources/" ++ jms_module_name ++ "/JMSResource/" ++ jms_module_name
          ++ "/ForeignServers/" ++ bean_name frn_srv) ;;
      del_queue_choice <- ask ASK_QUEUE ;;
      if confirmed del_queue_choice then
        c <- cmo ;;
        call (DestroyForeignDestination c fd) ;;
        call Save ;;
        call Activate ;;
        q_append ["ForeignDestination"; queue_name; "Deleted"] ;;
        (* Stop searching in different Foreign Servers *)
        ret Break
      else
        q_append ["ForeignDestination"; queue_name; "Skipped"] ;;
        call CancelEdit ;;
        ret Next
  | None => ret Next
  end.

(** One round of the loop over the JMS modules. *)
Definition delete_in_module (queue_name : string) (my_jms_system_resource : Bean)
  : M queue_locals ctl :=
  let jms_module_name := bean_name my_jms_system_resource in
  cd ("/JMSSystemResources/" ++ jms_module_name ++ "/JMSResource/" ++ jms_module_name) ;;
  (* Search for the queue among Uniform Distributed queues *)
  c <- cmo ;;
  queue_bean <- call (LookupUniformDistributedQueue c queue_name) ;;
  match queue_bean with
  | Some b =>
      delete_found_queue "UniformDistributedQueue" DestroyUniformDistributedQueue
        queue_name b
  | None =>
      (* Search for the queue_name among Queues *)
      queue_bean <- call (LookupQueue c queue_name) ;;
      match queue_bean with
      | Some b => delete_found_queue "Queue" DestroyQueue queue_name b
      | None =>
          (* Search for the queue_name in all foreign servers *)
          frn_srvs <- call (GetForeignServers c) ;;
          for_each frn_srvs (delete_in_foreign_server jms_module_name queue_name) ;;
          (* Stop searching in all JMS modules *)
          l <- getL ;;
          if is_queue_found l then ret Break else ret Next
      end
  end.

(** The body of the [try] of [delete_queue]. *)
Definition delete_queue_body (queue_name : string) : M queue_locals (list row) :=
  call Edit ;;
  call StartEdit ;;
  cd "/" ;;
  c <- cmo ;;
  my_jms_system_resources <- call (JMSSystemResources c) ;;
  for_each my_jms_system_resources (delete_in_module queue_name) ;;
  l <- getL ;;
  (if negb (is_queue_found l) then
     q_append ["Queue"; queue_name; "Not found"] ;;
     call CancelEdit
   else ret tt) ;;
  l <- getL ;;
  ret (queues_report l).

Definition delete_queue (queue_name0 : string) : M queue_locals (list row) :=
  let queue_name := strip queue_name0 in
  if queue_name =? "" then
    l <- getL ;; ret (queues_report l)
  else
    try_except
      (delete_queue_body queue_name)
      (fun _ =>
         call Undo ;;
         call CancelEdit ;;
         q_append ["Queue"; queue_name; "Failed"] ;;
         l <- getL ;; ret (queues_report l)).

(* ------------------------------------------------------------------ *)
(** ** get_prj_details *)

(** A row of the project report: full path, enabled flag, URI and work
    manager; the last two are [None] when the registry holds no value. *)
Record detail_row : Type := mkDetail {
  d_full_name : string;
  d_status : bool;
  d_uri : option string;
  d_wm : option string
}.

(** What [get_prj_details] returns: a string or the list of rows. *)
Inductive details : Type :=
  | DStr (s : string)
  | DList (rows : list detail_row).

(** [d == s] for a string [s] *)
Definition is_str (d : details) (s : string) : bool :=
  match d with
  | DStr x => x =? s
  | DList _ => false
  end.

Definition d_append (r : detail_row) : M (list detail_row) unit :=
  modL (fun rep => (rep ++ [r])%list).

(** [value.toString()] *)
Definition toString {L} (value : option string) : M L string :=
  match value with
  | Some s => ret s
  | None => raise AttributeError
  end.

(** [parseString(markup).getElementsByTagName("tran:URI")[0].toxml()] *)
Definition first_uri_xml {L} (markup : string) : M L string :=
  match xml_elements markup "tran:URI" with
  | None => raise ExpatError
  | Some [] => raise IndexError
  | Some (x :: _) => ret x
  end.

(** One round of the loop over the references of the project. *)
Definition detail_of_ref (alsb_mbean psc_mbean biz_mbean : option MBean) (prj_ref : Ref)
  : M (list detail_row) ctl :=
  let type_id := typeId prj_ref in
  if type_id =? "ProxyService" then
    let prx_full_name := fullName prj_ref in
    service_uri <- on alsb_mbean (fun m => GetEnvValue m prj_ref SERVICE_URI) ;;
    wm_name <- on alsb_mbean (fun m => GetEnvValue m prj_ref WORK_MANAGER) ;;
    status <- on psc_mbean (fun m => IsEnabled m prj_ref) ;;
    d_append (mkDetail prx_full_name status service_uri wm_name) ;;
    ret Next
  else if type_id =? "BusinessService" then
    let biz_full_name := fullName prj_ref in
    service_uri_table <- on alsb_mbean (fun m => GetEnvValue m prj_ref SERVICE_URI_TABLE) ;;
    markup <- toString service_uri_table ;;
    xml_uri <- first_uri_xml markup ;;
    let service_uri := remove_all "</tran:URI>" (remove_all "<tran:URI>" xml_uri) in
    wm_name <- on alsb_mbean (fun m => GetEnvValue m prj_ref WORK_MANAGER) ;;
    status <- on biz_mbean (fun m => IsEnabled m prj_ref) ;;
    d_append (mkDetail biz_full_name status (Some service_uri) wm_name) ;;
    ret Next
  else ret Next.

Definition get_prj_details (prj_name0 : string) : M (list detail_row) details :=
  prj_name <-
    (if prj_name0 =? "" then
       a <- raw_input "[INPUT] Enter a project name: " ;;
       let a := strip a in
       if a =? "" then raise ValueError else ret a
     else ret prj_name0) ;;
  try_except
    (call DomainRuntime ;;
     alsb_mbean <- call (FindService "ALSBConfiguration") ;;
     psc_mbean <- call (FindService "ProxyServiceConfiguration") ;;
     biz_mbean <- call (FindService "BusinessServiceConfiguration") ;;
     found <- on alsb_mbean (fun m => Exists m prj_name) ;;
     if negb found then ret (DStr "Not found")
     else
       prj_refs <- on alsb_mbean (fun m => GetRefs m prj_name) ;;
       for_each prj_refs (detail_of_ref alsb_mbean psc_mbean biz_mbean) ;;
       prj_details_report <- getL ;;
       match prj_details_report with
       | _ :: _ => ret (DList prj_details_report)
       | [] => ret (DStr "Empty")
       end)
    (fun _ =>
       (* the exception is logged at level ERROR *)
       prj_details_report <- getL ;;
       ret (DList prj_details_report)).

(* ------------------------------------------------------------------ *)
(** ** undeploy_osb_prj *)

Record connection_info : Type := mkConn { url : string; username : string }.

(** The locals of [undeploy_osb_prj] that outlive one round of its loop.
    [session_mbean] is [None] until its first assignment. *)
Record undeploy_locals : Type := mkUndeploy {
  report : list row;
  session_mbean : option (option MBean);
  wm_name_var : string
}.

Definition undeploy_locals0 : undeploy_locals := mkUndeploy [] None "".

Definition u_append (r : row) : M undeploy_locals unit :=
  modL (fun l => mkUndeploy (report l ++ [r])%list (session_mbean l) (wm_name_var l)).
Definition u_extend (rs : list row) : M undeploy_locals unit :=
  modL (fun l => mkUndeploy (report l ++ rs)%list (session_mbean l) (wm_name_var l)).
Definition u_set_session_mbean (sm : option MBean) : M undeploy_locals unit :=
  modL (fun l => mkUndeploy (report l) (Some sm) (wm_name_var l)).
Definition u_set_wm_name (n : string) : M undeploy_locals unit :=
  modL (fun l => mkUndeploy (report l) (session_mbean l) n).

(** Reading a local that may not be bound yet. *)
Definition read_var {L A} (get : L -> option A) : M L A :=
  fun l w =>
    match get l with
    | Some a => (Ok a, l, w)
    | None => (Raise NameError, l, w)
    end.

(** The queue names of the project report, one per [jms://] URI. *)
Fixpoint jms_queues (prj_details_report : list detail_row) : list string :=
  match prj_details_report with
  | [] => []
  | r :: rest =>
      let jms_uri := py_str (d_uri r) in
      if negb (jms_uri =? "") && contains "jms://" jms_uri then
        let qjndi := last_item (split "/" jms_uri) in
        let queue_name := last_item (split "." qjndi) in
        queue_name :: jms_queues rest
      else jms_queues rest
  end.

(** The work managers of the project report, platform defaults left out. *)
Fixpoint wm_names (prj_details_report : list detail_row) : list string :=
  match prj_details_report with
  | [] => []
  | r :: rest =>
      let wm_name := py_str (d_wm r) in
      if negb (wm_name =? "")
         && negb (mem wm_name ["SBDefaultResponseWorkManager"; "None"; "default"])
      then wm_name :: wm_names rest
      else wm_names rest
  end.

(** "Leave only unique names": append what is not yet in the result. *)
Definition unique (names : list string) : list string :=
  fold_left (fun acc x => if mem x acc then acc else (acc ++ [x])%list) names [].

(** The derivation in the words of the specification: the URIs with a
    [jms://] scheme, and of each the last dot-delimited token of the
    trailing path segment. *)
Definition uri_text (r : detail_row) : string := py_str (d_uri r).
Definition is_jms_uri (uri : string) : bool := contains "jms://" uri.
Definition queue_name_of_uri (uri : string) : string :=
  last_item (split "." (last_item (split "/" uri))).

(** The work-manager names that are not a platform default. *)
Definition wm_text (r : detail_row) : string := py_str (d_wm r).
Definition named_work_manager (name : string) : bool :=
  negb (mem name [""; "SBDefaultResponseWorkManager"; "None"; "default"]).

(** The names whose deletion is confirmed: all of them when
    [is_standalone], else those whose answer, read in order, confirms. *)
Definition chosen (names inputs : list string) : list string :=
  if is_standalone then names
  else map fst (filter (fun p => confirmed (snd p)) (combine names inputs)).

(** The body of the first [try] of the cascade: the JMS queues. *)
Definition cascade_queues (prj_details_report : list detail_row) : M undeploy_locals unit :=
  let jms_queues_unique := unique (jms_queues prj_details_report) in
  for_each jms_queues_unique (fun queue_name =>
    queues_report <- invoke "delete_queue" queue_name (delete_queue queue_name) queue_locals0 ;;
    u_extend queues_report ;;
    ret Next) ;;
  ret tt.

(** The body of the second [try] of the cascade: the work managers. *)
Definition cascade_work_managers (prj_details_report : list detail_row)
  : M undeploy_locals unit :=
  (* [wm_name] is also the variable of the two loops that build the names *)
  u_set_wm_name (py_str (d_wm (last prj_details_report (mkDetail "" false None None)))) ;;
  match wm_names prj_details_report with
  | [] => ret tt
  | n :: ns => u_set_wm_name (last ns n)
  end ;;
  let wm_names_unique := unique (wm_names prj_details_report) in
  for_each wm_names_unique (fun wm_name =>
    u_set_wm_name wm_name ;;
    del_wm_choice <- ask ("[INPUT] The project was using Work Manager '" ++ wm_name
                          ++ "'. Delete it, Y/N [Y]? ") ;;
    if confirmed del_wm_choice then
      wm_report <- invoke "delete_work_manager" wm_name (delete_work_manager wm_name) [] ;;
      u_extend wm_report ;;
      ret Next
    else
      u_append ["Work manager"; wm_name; "Skipped"] ;;
      ret Next) ;;
  ret tt.

(** Lines 160-234: the cleanup after the project was deleted. *)
Definition cascade (prj_details_report : details) : M undeploy_locals unit :=
  match prj_details_report with
  | DList (r :: rest) =>
      try_except (cascade_queues (r :: rest)) (fun _ => ret tt) ;;
      try_except (cascade_work_managers (r :: rest))
        (fun _ =>
           l <- getL ;;
           u_append ["Work manager"; wm_name_var l; "Failed"])
  | _ => ret tt
  end.

(** The body of the [try] that deletes the project inside a session; the
    result tells whether the loop goes on to the cascade ([true]) or to the
    next project ([false], the [continue] of the source). *)
Definition delete_in_session (prj_name session_name : string)
  : M undeploy_locals bool :=
  sm <- call (FindService "SessionManagement") ;;
  u_set_session_mbean sm ;;
  on sm (fun m => CreateSession m session_name) ;;
  alsb_mbean <- call (FindService ("ALSBConfiguration." ++ session_name)) ;;
  found <- on alsb_mbean (fun m => Exists m prj_name) ;;
  if found then
    del_prj_choice <- ask ("[INPUT] Do you really want to delete project '" ++ prj_name
                           ++ "', Y/N [Y]? ") ;;
    if confirmed del_prj_choice then
      on alsb_mbean (fun m => Delete m prj_name) ;;
      on sm (fun m => ActivateSession m session_name ("Deleted '" ++ prj_name ++ "'")) ;;
      u_append ["OSB project"; prj_name; "Deleted"] ;;
      ret true
    else
      u_append ["OSB project"; prj_name; "Skipped by user"] ;;
      ret false
  else
    u_append ["OSB project"; prj_name; "Not found"] ;;
    ret false.

(** The handler of that [try]. *)
Definition delete_failed (prj_name session_name : string) : M undeploy_locals bool :=
  u_append ["OSB project"; prj_name; "Failed"] ;;
  sm <- read_var session_mbean ;;
  invoke "discard_session" session_name (discard_session sm session_name) tt ;;
  ret false.

(** One round of the loop over the project names. *)
Definition undeploy_one (ci : connection_info) (prj_name0 : string)
  : M undeploy_locals ctl :=
  if prj_name0 =? "" then ret Next
  else
    let prj_name := strip prj_name0 in
    (* Get a report on the project *)
    found <- try_except
               (d <- invoke "get_prj_details" prj_name (get_prj_details prj_name) [] ;;
                ret (Some d))
               (fun _ => ret None) ;;
    match found with
    | None => ret Return
    | Some prj_details_report =>
        if is_str prj_details_report "Not found" then
          u_append ["OSB project"; prj_name; "Not found"] ;;
          ret Next
        else
          (if is_str prj_details_report "Project is empty" then
             u_append ["OSB project"; prj_name; "Project is empty"]
           else ret tt (* the project report is printed *)) ;;
          millis <- call CurrentTimeMillis ;;
          let session_name := username ci ++ "_" ++ str_of_N millis in
          proceed <- try_except (delete_in_session prj_name session_name)
                       (fun _ => delete_failed prj_name session_name) ;;
          if proceed then
            (* Check report for Work Managers and JMS Queues *)
            cascade prj_details_report ;;
            ret Next
          else ret Next
    end.

(** [undeploy_osb_prj]: [Some] of the rows handed to the final
    [create_report], [None] when the function returns before it. *)
Definition undeploy_osb_prj (ci : connection_info) : M undeploy_locals (option (list row)) :=
  prj_names <-
    (if is_standalone then
       ret (if Nat.leb 4 (length argv) then join " " (skipn 3 argv) else "")
     else
       a <- raw_input "[INPUT] Enter one or several project names separated by space: " ;;
       ret (strip a)) ;;
  if prj_names =? "" then
    if is_standalone then raise ValueError else ret None
  else
    let prj_names := split " " prj_names in
    returned <- for_each prj_names (undeploy_one ci) ;;
    if (returned : bool) then ret None
    else l <- getL ;; ret (Some (report l)).

(* ------------------------------------------------------------------ *)
(** ** manage_proxy_services and proxy_services_monitoring

    The two functions are the same text up to the state they toggle: the
    calls that read and change it and the comment of the final activation.
    [bulk_toggle] is that text; the paths (the first line of input, split at
    spaces) and the action (the second line, as an integer) are
    parameters. *)

Inductive target : Type := Enablement | Monitoring.

Definition read_state (t : target) : MBean -> Ref -> Call bool :=
  match t with Enablement => IsEnabled | Monitoring => IsMonitoringEnabled end.
Definition disable (t : target) : MBean -> Ref -> Call unit :=
  match t with Enablement => DisableService | Monitoring => DisableMonitoring end.
Definition enable (t : target) : MBean -> Ref -> Call unit :=
  match t with Enablement => EnableService | Monitoring => EnableMonitoring end.

Definition actionTxt (action : Z) : string :=
  if (action =? 1)%Z then "enable" else "disable".

(** [actionTxt.capitalize()] *)
Definition ActionTxt (action : Z) : string :=
  if (action =? 1)%Z then "Enable" else "Disable".

(** The comment of an activation after one change, when [is_standalone]. *)
Definition item_comment (prx_local_name : string) (action : Z) : string :=
  prx_local_name ++ " " ++ actionTxt action ++ "d".

(** The comment of the activation after all paths, when [is_standalone]. *)
Definition batch_comment (t : target) (mod_prx_cnt : nat) (action : Z) : string :=
  match t with
  | Enablement => str_of_nat mod_prx_cnt ++ " proxy services " ++ actionTxt action ++ "d"
  | Monitoring => "Monitoring of " ++ str_of_nat mod_prx_cnt ++ " proxy services is"
                  ++ actionTxt action ++ "d"
  end.

Definition ASK_COMMENT : string := "[INPUT] Enter session activation comment: ".

(** A row of the toggle report: path, status, URI. *)
Definition toggle_row : Type := string * string * option string.

Record toggle_locals : Type := mkToggle {
  t_report : list toggle_row;
  t_session_name : option string;
  t_session_mbean : option (option MBean);
  mod_prx_cnt : nat;
  prx_full_names_cnt : nat
}.

Definition toggle_locals0 : toggle_locals := mkToggle [] None None 0 0.

Definition t_append (r : toggle_row) : M toggle_locals unit :=
  modL (fun l => mkToggle (t_report l ++ [r])%list (t_session_name l) (t_session_mbean l)
                   (mod_prx_cnt l) (prx_full_names_cnt l)).
Definition t_set_session_name (n : string) : M toggle_locals unit :=
  modL (fun l => mkToggle (t_report l) (Some n) (t_session_mbean l)
                   (mod_prx_cnt l) (prx_full_names_cnt l)).
Definition t_set_session_mbean (sm : option MBean) : M toggle_locals unit :=
  modL (fun l => mkToggle (t_report l) (t_session_name l) (Some sm)
                   (mod_prx_cnt l) (prx_full_names_cnt l)).
Definition t_incr_mod : M toggle_locals unit :=
  modL (fun l => mkToggle (t_report l) (t_session_name l) (t_session_mbean l)
                   (mod_prx_cnt l + 1) (prx_full_names_cnt l)).
Definition t_set_cnt (n : nat) : M toggle_locals unit :=
  modL (fun l => mkToggle (t_report l) (t_session_name l) (t_session_mbean l)
                   (mod_prx_cnt l) n).

(** [action == is_enabled], an integer against a boolean. *)
Definition same_state (action : Z) (is_enabled : bool) : bool :=
  (action =? (if is_enabled then 1 else 0))%Z.

(** One round of the loop over the references a path resolves to. *)
Definition toggle_ref (t : target) (action : Z) (sm alsb_mbean psc_mbean : option MBean)
    (session_name prx_full_name prx_local_name : string) (ref : Ref)
  : M toggle_locals ctl :=
  service_uri <- on alsb_mbean (fun m => GetEnvValue m ref SERVICE_URI) ;;
  is_enabled <- on psc_mbean (fun m => read_state t m ref) ;;
  if same_state action is_enabled then
    t_append (prx_full_name, ActionTxt action ++ "d*", service_uri) ;;
    ret Next
  else
    (if (action =? 0)%Z then on psc_mbean (fun m => disable t m ref)
     else on psc_mbean (fun m => enable t m ref)) ;;
    t_incr_mod ;;
    l <- getL ;;
    (if Nat.eqb (prx_full_names_cnt l) 1 then
       comment <- (if is_standalone then ret (item_comment prx_local_name action)
                   else raw_input ASK_COMMENT) ;;
       on sm (fun m => ActivateSession m session_name comment)
     else ret tt) ;;
    t_append (prx_full_name, ActionTxt action ++ "d", service_uri) ;;
    ret Next.

(** One round of the loop over the paths. *)
Definition toggle_path (t : target) (action : Z) (sm alsb_mbean psc_mbean : option MBean)
    (session_name : string) (prx_full_names : list string) (prx_full_name0 : string)
  : M toggle_locals ctl :=
  let prx_full_name := strip prx_full_name0 in
  let prx_local_name := last_item (split "/" prx_full_name) in
  let prx_path := join "/" (removelast (split "/" prx_full_name)) in
  prx_refs <- on alsb_mbean (fun m => GetRefsQuery m prx_local_name prx_path) ;;
  match prx_refs with
  | [] =>
      t_append (prx_full_name, "Not found", Some "N/A") ;;
      ret Next
  | _ :: _ =>
      t_set_cnt (length prx_full_names) ;;
      for_each prx_refs
        (toggle_ref t action sm alsb_mbean psc_mbean session_name prx_full_name
           prx_local_name) ;;
      ret Next
  end.

(** The body of the [try]. *)
Definition toggle_body (t : target) (ci : connection_info) (prx_full_names : list string)
    (action : Z) : M toggle_locals unit :=
  call DomainRuntime ;;
  millis <- call CurrentTimeMillis ;;
  let session_name := username ci ++ "_" ++ str_of_N millis in
  t_set_session_name session_name ;;
  sm <- call (FindService "SessionManagement") ;;
  t_set_session_mbean sm ;;
  on sm (fun m => CreateSession m session_name) ;;
  alsb_mbean <- call (FindService ("ALSBConfiguration." ++ session_name)) ;;
  psc_mbean <- call (FindService ("ProxyServiceConfiguration." ++ session_name)) ;;
  for_each prx_full_names
    (toggle_path t action sm alsb_mbean psc_mbean session_name prx_full_names) ;;
  l <- getL ;;
  if Nat.ltb 1 (prx_full_names_cnt l) && Nat.ltb 0 (mod_prx_cnt l) then
    comment <- (if is_standalone then ret (batch_comment t (mod_prx_cnt l) action)
                else raw_input ASK_COMMENT) ;;
    on sm (fun m => ActivateSession m session_name comment)
  else if Nat.eqb (mod_prx_cnt l) 0 then
    invoke "discard_session" session_name (discard_session sm session_name) tt
  else ret tt.

(** The handler of the [try]. *)
Definition toggle_failed : M toggle_locals unit :=
  sm <- read_var t_session_mbean ;;
  session_name <- read_var t_session_name ;;
  invoke "discard_session" session_name (discard_session sm session_name) tt.

(** The rows of the report are the result. *)
Definition bulk_toggle (t : target) (ci : connection_info) (prx_full_names : list string)
    (action : Z) : M toggle_locals (list toggle_row) :=
  try_except (toggle_body t ci prx_full_names action) (fun _ => toggle_failed) ;;
  l <- getL ;;
  ret (t_report l).

Definition manage_proxy_services := bulk_toggle Enablement.
Definition proxy_services_monitoring := bulk_toggle Monitoring.

End Model.

(* ------------------------------------------------------------------ *)
(** ** Reading the event list *)

Definition is_ok {T} (r : res T) : bool :=
  match r with Ok _ => true | Raise _ => false end.

(** The state of a configuration session. *)
Inductive session_status : Type := SessionOpen | SessionActivated | SessionDiscarded.

(** The state a session is left in: decided by the most recent call that
    created, activated or discarded it and did not raise; [None] when the
    session was never created. *)
Fixpoint session_state (evs : list Event) (name : string) : option session_status :=
  match evs with
  | [] => None
  | EvCall c r :: older =>
      match c with
      | CreateSession _ n =>
          if is_ok r && (n =? name) then Some SessionOpen else session_state older name
      | ActivateSession _ n _ =>
          if is_ok r && (n =? name) then Some SessionActivated else session_state older name
      | DiscardSession _ n =>
          if is_ok r && (n =? name) then Some SessionDiscarded else session_state older name
      | _ => session_state older name
      end
  | _ :: older => session_state older name
  end.

(** The state of the edit transaction of the WLST edit tree. *)
Inductive edit_status : Type := EditOpen | EditActivated | EditCancelled.

Fixpoint edit_state (evs : list Event) : option edit_status :=
  match evs with
  | [] => None
  | EvCall c r :: older =>
      match c with
      | StartEdit => if is_ok r then Some EditOpen else edit_state older
      | Activate => if is_ok r then Some EditActivated else edit_state older
      | CancelEdit => if is_ok r then Some EditCancelled else edit_state older
      | _ => edit_state older
      end
  | _ :: older => edit_state older
  end.

(** The arguments of the calls of the script's function [fn], oldest first. *)
Fixpoint entered_rev (fn : string) (evs : list Event) : list string :=
  match evs with
  | [] => []
  | EvEnter f a :: older =>
      if f =? fn then a :: entered_rev fn older else entered_rev fn older
  | _ :: older => entered_rev fn older
  end.

Definition invocations (fn : string) (evs : list Event) : list string :=
  rev (entered_rev fn evs).

(** The activations of sessions, oldest first: session and comment. *)
Fixpoint activations_rev (evs : list Event) : list (string * string) :=
  match evs with
  | [] => []
  | EvCall c r :: older =>
      match c with
      | ActivateSession _ n comment => (n, comment) :: activations_rev older
      | _ => activations_rev older
      end
  | _ :: older => activations_rev older
  end.

Definition activations (evs : list Event) : list (string * string) :=
  rev (activations_rev evs).

(* ------------------------------------------------------------------ *)
(** ** A registry to run the workflows against

    A small registry with the behaviour the script relies on: sessions and
    the edit transaction work on a copy of the configuration that replaces
    the live one on activation; a session service named
    ["ALSBConfiguration.<session>"] or ["ProxyServiceConfiguration.<session>"]
    sees the copy of that session; changes outside a session or an edit
    transaction raise.  [r_failing] makes chosen calls raise.  [r_rival]
    names the projects another administrator deletes while the script
    runs: they are gone when the script's next session is created. *)
Module Registry.

Record endpoint : Type := mkEndpoint {
  e_ref : Ref;
  e_enabled : bool;
  e_monitoring : bool;
  e_uri : option string;
  e_uri_table : option string;
  e_work_manager : option string
}.

Record project : Type := mkProject { p_name : string; p_resources : list endpoint }.

Record queue : Type := mkQueue { q_name : string; q_error_destination : option string }.

Record foreign_server : Type :=
  mkForeignServer { fs_name : string; fs_destinations : list string }.

Record jms_module : Type := mkModule {
  m_name : string;
  m_distributed_queues : list queue;
  m_queues : list queue;
  m_foreign_servers : list foreign_server
}.

Record work_manager : Type := mkWorkManager {
  wm_name : string;
  wm_max_threads : option string;
  wm_min_threads : option string
}.

Record wls_config : Type := mkWls {
  c_domain : string;
  c_modules : list jms_module;
  c_work_managers : list work_manager
}.

Record registry : Type := mkRegistry {
  r_osb : list project;
  r_sessions : list (string * list project);
  r_wls : wls_config;
  r_editing : option wls_config;
  r_clock : N;
  r_failing : forall T, Call T -> bool;
  r_rival : list string
}.

Definition ref_eqb (a b : Ref) : bool :=
  (typeId a =? typeId b) && (fullName a =? fullName b).

(** ["Service.<session>"] names the session, ["Service"] the live view. *)
Definition session_of (handle : MBean) : option string :=
  match split "." handle with
  | _ :: s :: rest => Some (join "." (s :: rest))
  | _ => None
  end.

Definition lookup_session (name : string) (ss : list (string * list project))
  : option (list project) :=
  option_map snd (find (fun s => fst s =? name) ss).

(** The projects a service handle sees; [None] for a session that is not open. *)
Definition view (r : registry) (handle : MBean) : option (list project) :=
  match session_of handle with
  | None => Some (r_osb r)
  | Some s => lookup_session s (r_sessions r)
  end.

Definition find_project (name : string) (ps : list project) : option project :=
  find (fun p => p_name p =? name) ps.

Definition find_endpoint (rf : Ref) (ps : list project) : option endpoint :=
  find (fun e => ref_eqb (e_ref e) rf) (flat_map p_resources ps).

Definition update_endpoint (rf : Ref) (f : endpoint -> endpoint) (ps : list project)
  : list project :=
  map (fun p => mkProject (p_name p)
                  (map (fun e => if ref_eqb (e_ref e) rf then f e else e) (p_resources p)))
      ps.

Definition set_sessions (r : registry) (ss : list (string * list project)) : registry :=
  mkRegistry (r_osb r) ss (r_wls r) (r_editing r) (r_clock r) (r_failing r) (r_rival r).

Definition set_editing (r : registry) (e : option wls_config) : registry :=
  mkRegistry (r_osb r) (r_sessions r) (r_wls r) e (r_clock r) (r_failing r) (r_rival r).

Definition drop_session (name : string) (ss : list (string * list project)) :=
  filter (fun s => negb (fst s =? name)) ss.

(** A change of the copy of the session a handle belongs to. *)
Definition in_session (r : registry) (handle : MBean)
    (f : list project -> option (list project)) : res unit * registry :=
  match session_of handle with
  | None => (Raise WLSTException, r)
  | Some s =>
      match lookup_session s (r_sessions r) with
      | None => (Raise WLSTException, r)
      | Some ps =>
          match f ps with
          | None => (Raise WLSTException, r)
          | Some ps' => (Ok tt, set_sessions r ((s, ps') :: drop_session s (r_sessions r)))
          end
      end
  end.

Definition set_flag (r : registry) (handle : MBean) (rf : Ref)
    (f : endpoint -> endpoint) : res unit * registry :=
  in_session r handle
    (fun ps => match find_endpoint rf ps with
               | None => None
               | Some _ => Some (update_endpoint rf f ps)
               end).

(** The configuration the edit tree shows. *)
Definition shown (r : registry) : wls_config :=
  match r_editing r with
  | Some c => c
  | None => r_wls r
  end.

Definition module_path (m : jms_module) : string :=
  "/JMSSystemResources/" ++ m_name m ++ "/JMSResource/" ++ m_name m.

(** The module [cmo] is, or is inside of. *)
Definition module_at (c : wls_config) (cmo : string) : option jms_module :=
  find (fun m => prefix (module_path m) cmo) (c_modules c).

Definition find_queue (name : string) (qs : list queue) : option queue :=
  find (fun q => q_name q =? name) qs.

Definition bean_of {A} (name : A -> string) (o : option A) : option Bean :=
  option_map (fun a => mkBean (name a)) o.

(** A change of the configuration under edit. *)
Definition in_edit (r : registry) (f : wls_config -> wls_config) : res unit * registry :=
  match r_editing r with
  | None => (Raise WLSTException, r)
  | Some c => (Ok tt, set_editing r (Some (f c)))
  end.

Definition without_queue (name : string) (qs : list queue) : list queue :=
  filter (fun q => negb (q_name q =? name)) qs.

Definition change_module (cmo : string) (f : jms_module -> jms_module) (c : wls_config)
  : wls_config :=
  mkWls (c_domain c)
    (map (fun m => if prefix (module_path m) cmo then f m else m) (c_modules c))
    (c_work_managers c).

Definition change_work_managers (f : list work_manager -> list work_manager)
    (c : wls_config) : wls_config :=
  mkWls (c_domain c) (c_modules c) (f (c_work_managers c)).

Definition all_queues (c : wls_config) : list queue :=
  flat_map (fun m => (m_distributed_queues m ++ m_queues m)%list) (c_modules c).

Definition all_foreign_servers (c : wls_config) : list foreign_server :=
  flat_map m_foreign_servers (c_modules c).

(** The answer of the registry when the call is not made to fail. *)
Definition answer (T : Type) (c : Call T) (r : registry) : res T * registry :=
  match c in Call T return res T * registry with
  | DomainRuntime => (Ok tt, r)
  | CurrentTimeMillis =>
      (Ok (r_clock r),
       mkRegistry (r_osb r) (r_sessions r) (r_wls r) (r_editing r) (r_clock r + 1)
         (r_failing r) (r_rival r))
  | FindService name => (Ok (Some name), r)
  | CreateSession _ s =>
      match lookup_session s (r_sessions r) with
      | Some _ => (Raise WLSTException, r)
      | None =>
          let osb := filter (fun p => negb (mem (p_name p) (r_rival r))) (r_osb r) in
          (Ok tt,
           mkRegistry osb ((s, osb) :: r_sessions r) (r_wls r) (r_editing r) (r_clock r)
             (r_failing r) (r_rival r))
      end
  | ActivateSession _ s _ =>
      match lookup_session s (r_sessions r) with
      | None => (Raise WLSTException, r)
      | Some ps =>
          (Ok tt,
           mkRegistry ps (drop_session s (r_sessions r)) (r_wls r) (r_editing r) (r_clock r)
             (r_failing r) (r_rival r))
      end
  | SessionExists _ s =>
      (Ok (match lookup_session s (r_sessions r) with Some _ => true | None => false end), r)
  | DiscardSession _ s =>
      match lookup_session s (r_sessions r) with
      | None => (Raise WLSTException, r)
      | Some _ => (Ok tt, set_sessions r (drop_session s (r_sessions r)))
      end
  | Exists h prj =>
      match view r h with
      | None => (Raise WLSTException, r)
      | Some ps =>
          (Ok (match find_project prj ps with Some _ => true | None => false end), r)
      end
  | Delete h prj =>
      in_session r h
        (fun ps => match find_project prj ps with
                   | None => None
                   | Some _ => Some (filter (fun p => negb (p_name p =? prj)) ps)
                   end)
  | GetRefs h prj =>
      match view r h with
      | None => (Raise WLSTException, r)
      | Some ps =>
          match find_project prj ps with
          | None => (Ok [], r)
          | Some p => (Ok (map e_ref (p_resources p)), r)
          end
      end
  | GetRefsQuery h local_name path =>
      match view r h with
      | None => (Raise WLSTException, r)
      | Some ps =>
          (Ok (filter (fun rf => (typeId rf =? "ProxyService")
                                 && (fullName rf =? join "/" [path; local_name]))
                 (map e_ref (flat_map p_resources ps))), r)
      end
  | GetEnvValue h rf k =>
      match view r h with
      | None => (Raise WLSTException, r)
      | Some ps =>
          match find_endpoint rf ps with
          | None => (Raise WLSTException, r)
          | Some e =>
              (Ok (match k with
                   | SERVICE_URI => e_uri e
                   | WORK_MANAGER => e_work_manager e
                   | SERVICE_URI_TABLE => e_uri_table e
                   end), r)
          end
      end
  | IsEnabled h rf =>
      match option_map (find_endpoint rf) (view r h) with
      | Some (Some e) => (Ok (e_enabled e), r)
      | _ => (Raise WLSTException, r)
      end
  | IsMonitoringEnabled h rf =>
      match option_map (find_endpoint rf) (view r h) with
      | Some (Some e) => (Ok (e_monitoring e), r)
      | _ => (Raise WLSTException, r)
      end
  | EnableService h rf =>
      set_flag r h rf (fun e => mkEndpoint (e_ref e) true (e_monitoring e) (e_uri e)
                                  (e_uri_table e) (e_work_manager e))
  | DisableService h rf =>
      set_flag r h rf (fun e => mkEndpoint (e_ref e) false (e_monitoring e) (e_uri e)
                                  (e_uri_table e) (e_work_manager e))
  | EnableMonitoring h rf =>
      set_flag r h rf (fun e => mkEndpoint (e_ref e) (e_enabled e) true (e_uri e)
                                  (e_uri_table e) (e_work_manager e))
  | DisableMonitoring h rf =>
      set_flag r h rf (fun e => mkEndpoint (e_ref e) (e_enabled e) false (e_uri e)
                                  (e_uri_table e) (e_work_manager e))
  | Edit => (Ok tt, r)
  | StartEdit =>
      match r_editing r with
      | Some _ => (Ok tt, r)
      | None => (Ok tt, set_editing r (Some (r_wls r)))
      end
  | Cd _ => (Ok tt, r)
  | Save =>
      match r_editing r with
      | Some _ => (Ok tt, r)
      | None => (Raise WLSTException, r)
      end
  | Activate =>
      match r_editing r with
      | Some c =>
          (Ok tt, mkRegistry (r_osb r) (r_sessions r) c None (r_clock r) (r_failing r)
                    (r_rival r))
      | None => (Raise WLSTException, r)
      end
  | CancelEdit => (Ok tt, set_editing r None)
  | Undo =>
      match r_editing r with
      | Some _ => (Ok tt, set_editing r (Some (r_wls r)))
      | None => (Ok tt, r)
      end
  | CmoName _ => (Ok (c_domain (shown r)), r)
  | GetMBean _ name =>
      (Ok (bean_of wm_name (find (fun w => wm_name w =? name) (c_work_managers (shown r)))), r)
  | GetMaxThreadsConstraint b =>
      match find (fun w => wm_name w =? bean_name b) (c_work_managers (shown r)) with
      | Some w => (Ok (option_map mkBean (wm_max_threads w)), r)
      | None => (Raise WLSTException, r)
      end
  | GetMinThreadsConstraint b =>
      match find (fun w => wm_name w =? bean_name b) (c_work_managers (shown r)) with
      | Some w => (Ok (option_map mkBean (wm_min_threads w)), r)
      | None => (Raise WLSTException, r)
      end
  | RemoveReferencesToBean _ =>
      match r_editing r with
      | Some _ => (Ok tt, r)
      | None => (Raise WLSTException, r)
      end
  | DestroyMaxThreadsConstraint _ b =>
      in_edit r (change_work_managers
        (map (fun w => if match wm_max_threads w with
                          | Some n => n =? bean_name b
                          | None => false
                          end
                       then mkWorkManager (wm_name w) None (wm_min_threads w) else w)))
  | DestroyMinThreadsConstraint _ b =>
      in_edit r (change_work_managers
        (map (fun w => if match wm_min_threads w with
                          | Some n => n =? bean_name b
                          | None => false
                          end
                       then mkWorkManager (wm_name w) (wm_max_threads w) None else w)))
  | DestroyWorkManager _ b =>
      in_edit r (change_work_managers
        (filter (fun w => negb (wm_name w =? bean_name b))))
  | JMSSystemResources _ =>
      (Ok (map (fun m => mkBean (m_name m)) (c_modules (shown r))), r)
  | LookupUniformDistributedQueue cmo name =>
      match module_at (shown r) cmo with
      | Some m => (Ok (bean_of q_name (find_queue name (m_distributed_queues m))), r)
      | None => (Raise WLSTException, r)
      end
  | LookupQueue cmo name =>
      match module_at (shown r) cmo with
      | Some m => (Ok (bean_of q_name (find_queue name (m_queues m))), r)
      | None => (Raise WLSTException, r)
      end
  | GetForeignServers cmo =>
      match module_at (shown r) cmo with
      | Some m => (Ok (map (fun s => mkBean (fs_name s)) (m_foreign_servers m)), r)
      | None => (Raise WLSTException, r)
      end
  | LookupForeignDestination srv name =>
      match find (fun s => fs_name s =? bean_name srv) (all_foreign_servers (shown r)) with
      | Some s => (Ok (if mem name (fs_destinations s) then Some (mkBean name) else None), r)
      | None => (Raise WLSTException, r)
      end
  | GetErrorDestination b =>
      match find_queue (bean_name b) (all_queues (shown r)) with
      | Some q => (Ok (option_map mkBean (q_error_destination q)), r)
      | None => (Raise WLSTException, r)
      end
  | DestroyUniformDistributedQueue cmo b =>
      in_edit r (change_module cmo (fun m =>
        mkModule (m_name m) (without_queue (bean_name b) (m_distributed_queues m))
          (m_queues m) (m_foreign_servers m)))
  | DestroyQueue cmo b =>
      in_edit r (change_module cmo (fun m =>
        mkModule (m_name m) (m_distributed_queues m)
          (without_queue (bean_name b) (m_queues m)) (m_foreign_servers m)))
  | DestroyForeignDestination cmo b =>
      in_edit r (change_module cmo (fun m =>
        mkModule (m_name m) (m_distributed_queues m) (m_queues m)
          (map (fun s => mkForeignServer (fs_name s)
                           (filter (fun d => negb (d =? bean_name b)) (fs_destinations s)))
               (m_foreign_servers m))))
  end.

Definition reg_respond (T : Type) (c : Call T) (r : registry) : res T * registry :=
  if r_failing r T c then (Raise WLSTException, r) else answer T c r.

Definition TABLE_OPEN : string :=
  "<tran:tableElement xmlns:tran='http://www.bea.com/wli/sb/transports'>".
Definition TABLE_CLOSE : string := "</tran:tableElement>".

Definition strip_prefix (p s : string) : option string :=
  if prefix p s
  then Some (substring (String.length p) (String.length s - String.length p) s)
  else None.

Definition strip_suffix (p s : string) : option string :=
  let n := String.length s - String.length p in
  if Nat.leb (String.length p) (String.length s) && (substring n (String.length p) s =? p)
  then Some (substring 0 n s)
  else None.

(** The part of [xml.dom.minidom] the runs need: URI tables.  A URI
    table is the text [TABLE_OPEN], then character data and elements
    without attributes that hold character data only, then [TABLE_CLOSE];
    the names of the elements have the prefix [tran] or none, and the text
    is ASCII.  Character data is read as XML has it (the five predefined
    entities, character references, line ends, no "<", no "&" of its own,
    no "]]>"), and an element is rendered as [toxml()] renders it.  For any
    other text the answer is that of a document that is not well-formed;
    the runs use no well-formed document of another form. *)

Definition DQUOTE : ascii := ascii_of_nat 34.
Definition LF : ascii := ascii_of_nat 10.
Definition CR : ascii := ascii_of_nat 13.

(** [ord(c)], and [chr(n)] for [n] below 256. *)
Definition code (c : ascii) : nat :=
  match c with
  | Ascii b0 b1 b2 b3 b4 b5 b6 b7 =>
      (if b0 then 1 else 0) + ((if b1 then 2 else 0) + ((if b2 then 4 else 0)
      + ((if b3 then 8 else 0) + ((if b4 then 16 else 0) + ((if b5 then 32 else 0)
      + ((if b6 then 64 else 0) + (if b7 then 128 else 0)))))))
  end.

Definition half (n : nat) : nat := Nat.div2 n.

Definition char_of_code (n : nat) : ascii :=
  Ascii (Nat.odd n) (Nat.odd (half n)) (Nat.odd (half (half n)))
    (Nat.odd (half (half (half n)))) (Nat.odd (half (half (half (half n)))))
    (Nat.odd (half (half (half (half (half n))))))
    (Nat.odd (half (half (half (half (half (half n)))))))
    (Nat.odd (half (half (half (half (half (half (half n)))))))).

Definition between (lo n hi : nat) : bool := Nat.leb lo n && Nat.leb n hi.

(** White space of XML, and the ASCII characters XML allows. *)
Definition xml_space_code (n : nat) : bool :=
  Nat.eqb n 9 || Nat.eqb n 10 || Nat.eqb n 13 || Nat.eqb n 32.

Definition xml_space (c : ascii) : bool := xml_space_code (code c).

Definition xml_char_code (n : nat) : bool := xml_space_code n || between 32 n 127.

Definition xml_char (c : ascii) : bool := xml_char_code (code c).

(** [s[n:]] *)
Definition after (n : nat) (s : string) : string :=
  substring n (String.length s - n) s.

(** The number a character reference writes, as long as it is a
    character of ASCII. *)
Definition digit_of_code (base n : nat) : option nat :=
  if between 48 n 57 then Some (n - 48)
  else if Nat.eqb base 16 && between 97 n 102 then Some (n - 87)
  else if Nat.eqb base 16 && between 65 n 70 then Some (n - 55)
  else None.

Definition digit_value (base : nat) (c : ascii) : option nat :=
  digit_of_code base (code c).

Fixpoint number_from (base acc : nat) (s : string) : option nat :=
  match s with
  | EmptyString => Some acc
  | String c s' =>
      match digit_value base c with
      | Some d =>
          if Nat.leb (base * acc + d) 127 then number_from base (base * acc + d) s'
          else None
      | None => None
      end
  end.

Definition number (base : nat) (s : string) : option nat :=
  match s with
  | EmptyString => None
  | _ => number_from base 0 s
  end.

(** The character of a reference [&name;]: one of the five entities XML
    predefines, or a character by its number. *)
Definition reference (name : string) : option ascii :=
  if name =? "amp" then Some "&"%char
  else if name =? "lt" then Some "<"%char
  else if name =? "gt" then Some ">"%char
  else if name =? "quot" then Some DQUOTE
  else if name =? "apos" then Some "'"%char
  else
    let numbered :=
      match name with
      | String c dec =>
          if Ascii.eqb c "#" then
            match dec with
            | String c' hex => if Ascii.eqb c' "x" then number 16 hex else number 10 dec
            | EmptyString => None
            end
          else None
      | EmptyString => None
      end in
    match numbered with
    | Some n => if xml_char_code n then Some (char_of_code n) else None
    | None => None
    end.

(** The text that character data stands for: references are replaced, a
    line end is one line feed.  [None] when the data is not well-formed. *)
Fixpoint chardata_from (fuel : nat) (s : string) : option string :=
  match fuel, s with
  | _, EmptyString => Some EmptyString
  | O, _ => None
  | S fuel', String c rest =>
      if Ascii.eqb c "<" then None
      else if Ascii.eqb c "&" then
        match index 0 ";" rest with
        | None => None
        | Some n =>
            match reference (substring 0 n rest), chardata_from fuel' (after (S n) rest) with
            | Some ch, Some text => Some (String ch text)
            | _, _ => None
            end
        end
      else if Ascii.eqb c CR then
        match rest with
        | String c' _ =>
            if Ascii.eqb c' LF then chardata_from fuel' rest
            else option_map (String LF) (chardata_from fuel' rest)
        | EmptyString => Some (String LF EmptyString)
        end
      else if xml_char c then option_map (String c) (chardata_from fuel' rest)
      else None
  end.

Definition chardata (s : string) : option string :=
  if contains "]]>" s then None else chardata_from (String.length s) s.

(** The name of an element: letters, digits, "_", "-" and ".", the first
    a letter or "_", after the prefix [tran:] or without a prefix. *)
Definition name_start_code (n : nat) : bool :=
  between 65 n 90 || between 97 n 122 || Nat.eqb n 95.

Definition name_char_code (n : nat) : bool :=
  name_start_code n || between 48 n 57 || Nat.eqb n 45 || Nat.eqb n 46.

Definition name_start (c : ascii) : bool := name_start_code (code c).
Definition name_char (c : ascii) : bool := name_char_code (code c).

Fixpoint all_chars (p : ascii -> bool) (s : string) : bool :=
  match s with
  | EmptyString => true
  | String c s' => p c && all_chars p s'
  end.

Definition nc_name (s : string) : bool :=
  match s with
  | EmptyString => false
  | String c s' => name_start c && all_chars name_char s'
  end.

Definition xml_name (s : string) : bool :=
  match strip_prefix "tran:" s with
  | Some local => nc_name local
  | None => nc_name s
  end.

(** A tag may end with white space. *)
Fixpoint rstrip_xml (s : string) : string :=
  match s with
  | EmptyString => EmptyString
  | String c s' =>
      match rstrip_xml s' with
      | EmptyString => if xml_space c then EmptyString else String c EmptyString
      | r => String c r
      end
  end.

(** The children of the table: text, and elements with their text. *)
Inductive node : Type :=
  | Text (data : string)
  | Element (name data : string).

Definition text_node (data : string) : list node :=
  match data with
  | EmptyString => []
  | _ => [Text data]
  end.

(** The element whose start tag, between "<" and ">", is [tag], and the
    text that follows the element. *)
Definition element (tag rest : string) : option (node * string) :=
  match strip_suffix "/" tag with
  | Some name =>
      if xml_name (rstrip_xml name) then Some (Element (rstrip_xml name) "", rest)
      else None
  | None =>
      let name := rstrip_xml tag in
      if xml_name name then
        match index 0 "<" rest with
        | None => None
        | Some k =>
            match chardata (substring 0 k rest), index 0 ">" (after (S k) rest) with
            | Some data, Some j =>
                if rstrip_xml (substring 0 j (after (S k) rest)) =? "/" ++ name
                then Some (Element name data, after (S j) (after (S k) rest))
                else None
            | _, _ => None
            end
        end
      else None
  end.

Fixpoint nodes (fuel : nat) (s : string) : option (list node) :=
  match fuel with
  | O => None
  | S fuel' =>
      match index 0 "<" s with
      | None => option_map text_node (chardata s)
      | Some n =>
          match chardata (substring 0 n s), index 0 ">" (after (S n) s) with
          | Some before, Some m =>
              match element (substring 0 m (after (S n) s)) (after (S m) (after (S n) s)) with
              | Some (e, rest) =>
                  option_map (fun l => text_node before ++ e :: l)%list (nodes fuel' rest)
              | None => None
              end
          | _, _ => None
          end
      end
  end.

(** [toxml()]: "&", "<", the double quote and ">" of a text are written as
    references; an element without text is written as an empty-element
    tag. *)
Fixpoint escape (s : string) : string :=
  match s with
  | EmptyString => EmptyString
  | String c s' =>
      (if Ascii.eqb c "&" then "&amp;"
       else if Ascii.eqb c "<" then "&lt;"
       else if Ascii.eqb c DQUOTE then "&quot;"
       else if Ascii.eqb c ">" then "&gt;"
       else String c EmptyString) ++ escape s'
  end.

Definition toxml (n : node) : string :=
  match n with
  | Text data => escape data
  | Element name EmptyString => "<" ++ name ++ "/>"
  | Element name data => "<" ++ name ++ ">" ++ escape data ++ "</" ++ name ++ ">"
  end.

(** The table element itself, with its attribute between double quotes. *)
Definition table_toxml (children : list node) : string :=
  let start := "<tran:tableElement xmlns:tran=" ++ String DQUOTE
               "http://www.bea.com/wli/sb/transports" ++ String DQUOTE EmptyString in
  match children with
  | [] => start ++ "/>"
  | _ => start ++ ">" ++ String.concat "" (map toxml children) ++ TABLE_CLOSE
  end.

Definition named (tag : string) (n : node) : bool :=
  match n with
  | Text _ => false
  | Element name _ => (tag =? "*") || (name =? tag)
  end.

Definition reg_xml_elements (markup tag : string) : option (list string) :=
  match strip_prefix TABLE_OPEN markup with
  | None => None
  | Some rest =>
      match strip_suffix TABLE_CLOSE rest with
      | None => None
      | Some content =>
          match nodes (S (String.length content)) content with
          | None => None
          | Some children =>
              Some ((if named tag (Element "tran:tableElement" "")
                     then [table_toxml children] else [])
                    ++ map toxml (filter (named tag) children))%list
          end
      end
  end.

(** The script on this registry, started with the command line [args]. *)
Definition platform (args : list string) : Platform :=
  {| Env := registry; respond := reg_respond; argv := args;
     xml_elements := reg_xml_elements |}.

Definition never : forall T, Call T -> bool := fun _ _ => false.

Definition start (args : list string) (r : registry) (inputs : list string)
  : @World (platform args) :=
  @mkWorld (platform args) r [] inputs "".

End Registry.

(* ------------------------------------------------------------------ *)
(** ** A deployment to run the workflows on *)
Module Deployment.
Import Registry.

Definition billing_in : Ref := mkRef "ProxyService" "Billing/Proxy/In".
Definition billing_out : Ref := mkRef "BusinessService" "Billing/Business/Out".
Definition billing_audit : Ref := mkRef "BusinessService" "Billing/Business/Audit".

Definition QUEUE_URI : string :=
  "jms://host:7001/weblogic.jms.XAConnectionFactory/jms.BillingQueue".

Definition uri_table (text : string) : string :=
  TABLE_OPEN ++ "<tran:URI>" ++ text ++ "</tran:URI>" ++ TABLE_CLOSE.

(** A project with three endpoints that all use the queue [BillingQueue]
    and the work manager [BillingWM]. *)
Definition billing : project :=
  mkProject "Billing"
    [ mkEndpoint billing_in true true (Some QUEUE_URI) None (Some "BillingWM");
      mkEndpoint billing_out true false None (Some (uri_table QUEUE_URI)) (Some "BillingWM");
      mkEndpoint billing_audit true false None (Some (uri_table QUEUE_URI)) None ].

(** A project without endpoints. *)
Definition archive : project := mkProject "Archive" [].

(** A project whose business service has a URI table that is not markup. *)
Definition broken_out : Ref := mkRef "BusinessService" "Broken/Business/Out".
Definition broken : project :=
  mkProject "Broken"
    [ mkEndpoint broken_out true false None (Some "<tran:URI>jms://host/q") None ].


Definition module_a : jms_module :=
  mkModule "ModuleA"
    [ mkQueue "BillingQueue" (Some "BillingDMQ"); mkQueue "BillingDMQ" None ] [] [].

Definition module_b : jms_module :=
  mkModule "ModuleB" [] [ mkQueue "OrdersQueue" None ]
    [ mkForeignServer "RemoteMQ" ["PaymentsQueue"] ].

Definition wls : wls_config :=
  mkWls "osbdomain" [module_a; module_b]
    [ mkWorkManager "BillingWM" (Some "BillingMax") (Some "BillingMin") ].

Definition registry0 : registry :=
  mkRegistry [billing; archive; broken] [] wls None 1000 never [].


(** The same registry when deleting the project [Billing] raises. *)
Definition delete_billing_fails : forall T, Call T -> bool :=
  fun T c =>
    match c with
    | Delete _ prj => prj =? "Billing"
    | _ => false
    end.

Definition registry_failing : registry :=
  mkRegistry [billing; archive; broken] [] wls None 1000 delete_billing_fails [].

(** The same registry when the session service cannot be looked up:
    [findService] raises for it. *)
Definition session_service_fails : forall T, Call T -> bool :=
  fun T c =>
    match c with
    | FindService name => name =? "SessionManagement"
    | _ => false
    end.

Definition registry_no_session_service : registry :=
  mkRegistry [billing; archive; broken] [] wls None 1000 session_service_fails [].

(** The same registry when another administrator deletes [Billing]. *)
Definition registry_raced : registry :=
  mkRegistry [billing; archive; broken] [] wls None 1000 never ["Billing"].

Definition conn : connection_info := mkConn "t3://host:7001" "weblogic".

(** Started without arguments the script is interactive. *)
Definition interactive : list string := ["manageOSB.py"].

(** [wlst manageOSB.py undeploy_osb_prj DEV names...] *)
Definition automated (names : list string) : list string :=
  ["manageOSB.py"; "undeploy_osb_prj"; "DEV"] ++ names.

End Deployment.

(* ------------------------------------------------------------------ *)
(** ** Reading the event list: queues and their error destinations *)

Definition bean_eqb (a b : Bean) : bool := bean_name a =? bean_name b.

(** The call just before was [b.getDeliveryFailureParams().getErrorDestination()]
    and it returned. *)
Definition resolved_just_before (b : Bean) (older : list Event) : bool :=
  match older with
  | EvCall c r :: _ =>
      match c with
      | GetErrorDestination q => is_ok r && bean_eqb q b
      | _ => false
      end
  | _ => false
  end.

(** [b] was returned before as the error destination of a queue. *)
Fixpoint known_error_destination (b : Bean) (older : list Event) : bool :=
  match older with
  | [] => false
  | EvCall c r :: rest =>
      match c in Call T return res T -> bool with
      | GetErrorDestination _ =>
          fun r => match r with
                   | Ok (Some d) => bean_eqb d b
                   | _ => false
                   end
      | _ => fun _ => false
      end r
      || known_error_destination b rest
  | _ :: rest => known_error_destination b rest
  end.

(** Every destruction of a distributed or plain queue either follows
    directly on the resolution of the error destination of that queue, or
    destroys an error destination resolved before. *)
Fixpoint dlq_resolved_first (evs : list Event) : bool :=
  match evs with
  | [] => true
  | EvCall c r :: older =>
      match c with
      | DestroyUniformDistributedQueue _ b | DestroyQueue _ b =>
          (resolved_just_before b older || known_error_destination b older)
          && dlq_resolved_first older
      | _ => dlq_resolved_first older
      end
  | _ :: older => dlq_resolved_first older
  end.

(** A call that destroys a distributed or plain queue. *)
Definition destroys_queue {T} (c : Call T) : bool :=
  match c with
  | DestroyUniformDistributedQueue _ _ | DestroyQueue _ _ => true
  | _ => false
  end.

(* ------------------------------------------------------------------ *)
(** ** Reading the event list: changes and activations of a toggle *)

(** What a bulk toggle does to its session, in the order it does it: a
    change of state of a reference, a comment typed by the operator, an
    activation of the session. *)
Inductive commit : Type :=
  | Changed (r : Ref)
  | Asked (comment : string)
  | Activated (session comment : string).

Fixpoint commits_rev (evs : list Event) : list commit :=
  match evs with
  | [] => []
  | EvCall c _ :: older =>
      match c with
      | EnableService _ rf | DisableService _ rf
      | EnableMonitoring _ rf | DisableMonitoring _ rf =>
          Changed rf :: commits_rev older
      | ActivateSession _ s comment => Activated s comment :: commits_rev older
      | _ => commits_rev older
      end
  | EvInput prompt (Some a) :: older =>
      if prompt =? ASK_COMMENT then Asked a :: commits_rev older else commits_rev older
  | _ :: older => commits_rev older
  end.

(** Oldest first. *)
Definition commits (evs : list Event) : list commit := rev (commits_rev evs).

(** A call that changes a state or activates a session. *)
Definition is_commit {T} (c : Call T) : bool :=
  match c with
  | EnableService _ _ | DisableService _ _
  | EnableMonitoring _ _ | DisableMonitoring _ _
  | ActivateSession _ _ _ => true
  | _ => false
  end.

(** One change of a reference, and the activation that follows it at once
    when [immediate]: with the given comment, which the operator typed
    unless the script runs [standalone]. *)
Definition change_commits (standalone immediate : bool) (session : string)
    (rc : Ref * string) : list commit :=
  Changed (fst rc)
  :: (if immediate
      then ((if standalone then [] else [Asked (snd rc)])
            ++ [Activated session (snd rc)])%list
      else []).

(** The activation after all paths. *)
Definition closing_commits (standalone : bool) (session comment : string) : list commit :=
  ((if standalone then [] else [Asked comment]) ++ [Activated session comment])%list.

(* ------------------------------------------------------------------ *)
(** ** Relations between the world before and after a computation *)

Section Relations.
Context `{Platform}.

Definition result_of {L A} (x : res A * L * World) : res A := fst (fst x).
Definition locals_of {L A} (x : res A * L * World) : L := snd (fst x).
Definition world_of {L A} (x : res A * L * World) : World := snd x.

(** A relation that every run of a computation establishes. *)
Definition preserves {L A} (R : World -> World -> Prop) (m : M L A) : Prop :=
  forall l w r l' w', m l w = (r, l', w') -> R w w'.

(** No call of a function of the script is recorded. *)
Definition quiet (w w' : World) : Prop :=
  forall fn, entered_rev fn (w_events w') = entered_rev fn (w_events w).

(** No input is read. *)
Definition same_inputs (w w' : World) : Prop := w_inputs w' = w_inputs w.

Definition quiet_same_inputs (w w' : World) : Prop := quiet w w' /\ same_inputs w w'.

(** The order of resolution and destruction is kept. *)
Definition keeps_dlq_order (w w' : World) : Prop :=
  dlq_resolved_first (w_events w) = true -> dlq_resolved_first (w_events w') = true.

(** Nothing is changed or activated, no function of the script called. *)
Definition no_commit (w w' : World) : Prop :=
  quiet w w' /\ commits_rev (w_events w') = commits_rev (w_events w).

End Relations.

(** [unique] from a result collected so far. *)
Definition unique_from (acc names : list string) : list string :=
  fold_left (fun acc x => if mem x acc then acc else (acc ++ [x])%list) names acc.

(* ------------------------------------------------------------------ *)
(** ** Runs of the workflows on the deployment *)
Module Runs.
Import Registry Deployment.

(** The script at the console, and started with arguments. *)
Definition console : Platform := platform interactive.
Definition unattended (names : list string) : Platform := platform (automated names).

Definition TAB : string := String (ascii_of_nat 9) EmptyString.

(** The rows [get_prj_details] returns for the project [Billing]. *)
Definition billing_rows : list detail_row :=
  [ mkDetail "Billing/Proxy/In" true (Some QUEUE_URI) (Some "BillingWM");
    mkDetail "Billing/Business/Out" true (Some QUEUE_URI) (Some "BillingWM");
    mkDetail "Billing/Business/Audit" true (Some QUEUE_URI) None ].

(** [delete_work_manager] for a work manager that does not exist. *)
Definition reap_missing_work_manager :=
  @delete_work_manager console "NoSuchWM" [] (start interactive registry0 []).

(** [delete_queue] for a blank name. *)
Definition blank_world := start interactive registry0 ["Y"].

(** [delete_queue] when the operator declines the deletion of the queue. *)
Definition reap_queue_declined :=
  @delete_queue console "BillingQueue" queue_locals0 (start interactive registry0 ["N"]).

(** [delete_queue] when the operator confirms the deletion of the queue and
    declines that of its error destination. *)
Definition dmq_world := start interactive registry0 ["Y"; "N"].
Definition reap_queue_keep_dmq :=
  @delete_queue console "BillingQueue" queue_locals0 dmq_world.

(** Undeploy of [Billing] at the console, the deletion declined. *)
Definition undeploy_declined :=
  @undeploy_osb_prj console conn undeploy_locals0
    (start interactive registry0 ["Billing"; "N"]).

(** Undeploy of [Billing] at the console: project and queue confirmed,
    error destination and work manager declined. *)
Definition undeploy_keep_work_manager :=
  @undeploy_osb_prj console conn undeploy_locals0
    (start interactive registry0 ["Billing"; "Y"; "Y"; "Y"; "N"]).

(** Unattended undeploy of [Billing] while another administrator deletes it. *)
Definition undeploy_raced :=
  @undeploy_osb_prj (unattended ["Billing"]) conn undeploy_locals0
    (start (automated ["Billing"]) registry_raced []).

(** Unattended undeploy of the project without endpoints. *)
Definition undeploy_empty_project :=
  @undeploy_osb_prj (unattended ["Archive"]) conn undeploy_locals0
    (start (automated ["Archive"]) registry0 []).

Definition discover_empty_project :=
  @get_prj_details (unattended ["Archive"]) "Archive" []
    (start (automated ["Archive"]) registry0 []).

(** Undeploy at the console of the names "Archive", a tab, "Billing"; the
    operator confirms the deletion of [Archive] and enters an empty line
    when asked for the name of the project. *)
Definition undeploy_blank_name :=
  @undeploy_osb_prj console conn undeploy_locals0
    (start interactive registry0 ["Archive " ++ TAB ++ " Billing"; "Y"; ""]).




(** The cascade after the unattended deletion of [Billing]. *)
Definition cascade_world := start (automated ["Billing"]) registry0 [].
Definition cascade_queues_run :=
  @cascade_queues (unattended ["Billing"]) billing_rows undeploy_locals0 cascade_world.
Definition cascade_work_managers_run :=
  @cascade_work_managers (unattended ["Billing"]) billing_rows
    (locals_of cascade_queues_run) (world_of cascade_queues_run).

(** Unattended undeploy of [Billing] and [Archive] when the deletion of
    [Billing] raises. *)
Definition undeploy_failing_delete :=
  @undeploy_osb_prj (unattended ["Billing"; "Archive"]) conn undeploy_locals0
    (start (automated ["Billing"; "Archive"]) registry_failing []).

(** The same undeploy when the session service cannot be looked up. *)
Definition undeploy_no_session_service :=
  @undeploy_osb_prj (unattended ["Billing"; "Archive"]) conn undeploy_locals0
    (start (automated ["Billing"; "Archive"]) registry_no_session_service []).

(** [wlst manageOSB.py manage_proxy_services DEV] *)
Definition toggle_args : list string := ["manageOSB.py"; "manage_proxy_services"; "DEV"].

(** Disabling one proxy service at the console. *)
Definition toggle_at_console :=
  @manage_proxy_services console conn ["Billing/Proxy/In"] 0%Z toggle_locals0
    (start interactive registry0 ["maintenance window"]).

(** Disabling, unattended, a proxy service and one that does not exist. *)
Definition toggle_world := start toggle_args registry0 [].
Definition toggle_two_paths :=
  @toggle_body (platform toggle_args) Enablement conn
    ["Billing/Proxy/In"; "Billing/Proxy/Missing"] 0%Z toggle_locals0 toggle_world.

(** Disabling, at the console, a proxy service and one that does not exist. *)
Definition toggle_two_at_console :=
  @manage_proxy_services console conn ["Billing/Proxy/In"; "Billing/Proxy/Missing"] 0%Z
    toggle_locals0 (start interactive registry0 ["maintenance window"]).

(** Disabling, unattended, two proxy services that do not exist. *)
Definition toggle_unknown_paths :=
  @toggle_body (platform toggle_args) Enablement conn
    ["Billing/Proxy/Missing"; "Billing/Proxy/Gone"] 0%Z toggle_locals0 toggle_world.

End Runs.

(* ------------------------------------------------------------------ *)
(** ** create_report

    [create_report] turns a table into lines of text.  What it writes with
    [log_report], to the console and to the log file, is the title and then
    the lines of the table; that list of lines is the result here.  The
    cells of the table are of any type [str] applies to. *)

(** [c * n] for a one-character string [c] *)
Fixpoint replicate (n : nat) (c : ascii) : string :=
  match n with
  | O => EmptyString
  | S k => String c (replicate k c)
  end.

(** [s.ljust(width)] and [s.rjust(width)]: a string that is too long is
    returned as it is. *)
Definition ljust (s : string) (width : nat) : string :=
  s ++ replicate (width - String.length s) " ".
Definition rjust (s : string) (width : nat) : string :=
  replicate (width - String.length s) " " ++ s.

(** The order of [list.sort()] on rows of strings: that of the first cell
    in which two rows differ, a row that is the beginning of another coming
    first. *)
Fixpoint row_leb (a b : list string) : bool :=
  match a, b with
  | [], _ => true
  | _ :: _, [] => false
  | x :: a', y :: b' =>
      match String.compare x y with
      | Lt => true
      | Gt => false
      | Eq => row_leb a' b'
      end
  end.

(** [l.sort()] for an order [leb].  The order of two strings, or of two
    rows of strings, that are not the same is strict, so the result is the
    one sorted arrangement of [l] whatever the algorithm. *)
Fixpoint insert_sorted {A} (leb : A -> A -> bool) (x : A) (l : list A) : list A :=
  match l with
  | [] => [x]
  | y :: l' => if leb x y then x :: y :: l' else y :: insert_sorted leb x l'
  end.

Definition sort {A} (leb : A -> A -> bool) (l : list A) : list A :=
  fold_right (insert_sorted leb) [] l.

Definition nonempty {A} (r : list A) : bool :=
  match r with
  | [] => false
  | _ :: _ => true
  end.

(** [zip(first, *others)]: the columns, as many as the shortest row has
    cells. *)
Fixpoint zip_star (first : list string) (others : list (list string))
  : list (list string) :=
  match first with
  | [] => []
  | x :: first' =>
      if forallb nonempty others
      then (x :: map (hd "") others) :: zip_star first' (map (@tl string) others)
      else []
  end.

(** [max(map(len, col))] *)
Definition max_len (col : list string) : nat :=
  fold_right (fun s m => Nat.max (String.length s) m) 0 col.

(** The loop [for x in range(len(rw))] from index [x] on: the cell is
    adjusted to the right when the name of its column holds a "#". *)
Fixpoint adjust_from (col_names : list string) (x : nat) (rw : list (string * nat))
  : res (list string) :=
  match rw with
  | [] => Ok []
  | (cell, width) :: rw' =>
      match nth_error col_names x with
      | None => Raise IndexError
      | Some col_name =>
          let cell_adj := if contains "#" col_name then rjust cell width
                          else ljust cell width in
          match adjust_from col_names (S x) rw' with
          | Ok row_adj => Ok (cell_adj :: row_adj)
          | Raise e => Raise e
          end
      end
  end.

(** The loop over the rows of [report_str]. *)
Fixpoint adjust_rows (col_names : list string) (col_widths : list nat)
    (report_str : list (list string)) : res (list string) :=
  match report_str with
  | [] => Ok []
  | row :: rest =>
      let rw := combine row col_widths in
      match adjust_from col_names 0 rw with
      | Raise e => Raise e
      | Ok row_adj =>
          match adjust_rows col_names col_widths rest with
          | Ok report_adj => Ok (join " " row_adj :: report_adj)
          | Raise e => Raise e
          end
      end
  end.

Section CreateReport.
Context {Item : Type}.
Variable str : Item -> string.

(** The table after the header was added: rows as strings, sorted when
    asked for, under the column names without "#". *)
Definition header (col_names : list string) : list string :=
  map (remove_all "#") col_names.

Definition rows_as_strings (report : list (list Item)) (is_sorted : bool)
  : list (list string) :=
  let report_str := map (map str) report in
  if is_sorted then sort row_leb report_str else report_str.

Definition col_widths (report : list (list Item)) (col_names : list string)
    (is_sorted : bool) : list nat :=
  map max_len (zip_star (header col_names) (rows_as_strings report is_sorted)).

Definition create_report (report_title : string) (report : list (list Item))
    (col_names : list string) (is_sorted : bool) : res (list string) :=
  (* Convert all values to strings *)
  let report_str := rows_as_strings report is_sorted in
  (* Remove "#" from headers and add to the beginning of the report *)
  let head := header col_names in
  (* Count max column widths *)
  let col_widths := map max_len (zip_star head report_str) in
  (* Create an underline and add to report *)
  let underline := map (fun width => replicate width "=") col_widths in
  let report_str := underline :: head :: underline :: report_str ++ [underline] in
  (* Adjust columns left or right *)
  match adjust_rows col_names col_widths report_str with
  | Ok report_adj => Ok (report_title :: report_adj)
  | Raise e => Raise e
  end.

End CreateReport.


(** An order that sorts: total, transitive, and two elements each before
    the other are the same. *)
Record sorts {A} (leb : A -> A -> bool) : Prop := mkSorts {
  sorts_total : forall a b, leb a b = true \/ leb b a = true;
  sorts_trans : forall a b c, leb a b = true -> leb b c = true -> leb a c = true;
  sorts_antisym : forall a b, leb a b = true -> leb b a = true -> a = b
}.

Definition ordered {A} (leb : A -> A -> bool) (a b : A) : Prop := leb a b = true.

(** The width of a line of cells of the widths [ws], one space between
    two cells. *)
Fixpoint line_width (ws : list nat) : nat :=
  match ws with
  | [] => 0
  | [w] => w
  | w :: ws' => w + 1 + line_width ws'
  end.

(** The line that frames the header and closes the table. *)
Definition rule (ws : list nat) : string :=
  join " " (map (fun width => replicate width "=") ws).

(** Every cell of the first cells of [row] fits the width of its column. *)
Definition fits (row : list string) (ws : list nat) : Prop :=
  Forall2 (fun cell w => String.length cell <= w) (firstn (length ws) row) ws.

(* ------------------------------------------------------------------ *)
(** ** get_env_prop_file and get_avail_envs_report

    The names of the files of the current directory, [os.listdir(os.getcwd())],
    are a parameter. *)

(** [s.endswith(suffix)] *)
Definition endswith (suffix s : string) : bool :=
  Nat.leb (String.length suffix) (String.length s)
  && (substring (String.length s - String.length suffix) (String.length suffix) s
      =? suffix).

(** A dictionary from strings to strings: at most one value for a key.
    The script reads a dictionary by key, or goes through its keys and
    sorts what it collects. *)
Definition dict : Type := list (string * string).

(** [d[k] = v] *)
Fixpoint dict_set (k v : string) (d : dict) : dict :=
  match d with
  | [] => [(k, v)]
  | (k', v') :: d' =>
      if k' =? k then (k, v) :: d' else (k', v') :: dict_set k v d'
  end.

(** [d.get(k)] *)
Fixpoint dict_get (k : string) (d : dict) : option string :=
  match d with
  | [] => None
  | (k', v) :: d' => if k' =? k then Some v else dict_get k d'
  end.

(** The key of a property file: the part before the first dot, and of it
    the text after the last "_" when the name of the file holds a "_". *)
Definition prop_env_of (f_name : string) : string :=
  (* remove the part after the dot *)
  let prop_env := hd "" (split "." f_name) in
  if contains "_" f_name then
    (* Environment name is the text that goes after the last "_" *)
    last_item (split "_" prop_env)
  else prop_env.

(** One round of the loop over the names of the files. *)
Definition add_prop_file (prop_env_file : dict) (f_name : string) : dict :=
  if endswith ".properties" f_name
  then dict_set (prop_env_of f_name) f_name prop_env_file
  else prop_env_file.

Definition get_env_prop_file (listdir : list string) : dict :=
  fold_left add_prop_file listdir [].

Record env_groups : Type := mkGroups {
  envs_PROD : list string;
  envs_QA : list string;
  envs_TEST : list string;
  envs_DEV : list string
}.

(** One round of the loop over the keys of [prop_env_file]; [f_name] is
    [prop_env_file.get(env)]. *)
Definition group_env (g : env_groups) (entry : string * string) : env_groups :=
  let (env, f_name) := entry in
  let env_group := hd "" (split "_" f_name) in
  let g := if env_group =? "PROD"
           then mkGroups (envs_PROD g ++ [env]) (envs_QA g) (envs_TEST g) (envs_DEV g)
           else g in
  let g := if env_group =? "QA"
           then mkGroups (envs_PROD g) (envs_QA g ++ [env]) (envs_TEST g) (envs_DEV g)
           else g in
  let g := if env_group =? "TEST"
           then mkGroups (envs_PROD g) (envs_QA g) (envs_TEST g ++ [env]) (envs_DEV g)
           else g in
  if env_group =? "DEV"
  then mkGroups (envs_PROD g) (envs_QA g) (envs_TEST g) (envs_DEV g ++ [env])
  else g.

(** The rows of the table of environments for a given dictionary. *)
Definition avail_envs_rows (prop_env_file : dict) : list (list string) :=
  let g := fold_left group_env prop_env_file (mkGroups [] [] [] []) in
  let envs_PROD := sort String.leb (envs_PROD g) in
  let envs_QA := sort String.leb (envs_QA g) in
  let envs_TEST := sort String.leb (envs_TEST g) in
  let envs_DEV := sort String.leb (envs_DEV g) in
  let env_group_max :=
    Nat.max (length envs_PROD) (Nat.max (length envs_QA)
      (Nat.max (length envs_PROD) (Nat.max (length envs_QA)
        (Nat.max (length envs_PROD) (length envs_QA))))) in
  map (fun i =>
         let env_PROD := if Nat.ltb i (length envs_PROD) then nth i envs_PROD "" else "" in
         let env_QA := if Nat.ltb i (length envs_QA) then nth i envs_QA "" else "" in
         let env_TEST := if Nat.ltb i (length envs_TEST) then nth i envs_TEST "" else "" in
         let env_DEV := if Nat.ltb i (length envs_DEV) then nth i envs_DEV "" else "" in
         [env_PROD; env_QA; env_TEST; env_DEV])
      (seq 0 env_group_max).

Definition get_avail_envs_report (listdir : list string) : list (list string) :=
  avail_envs_rows (get_env_prop_file listdir).

(** The environments of the dictionary whose file is of the group [g]:
    the name of the file begins with [g] and a "_". *)
Definition envs_in (g : string) (prop_env_file : dict) : list string :=
  map fst (filter (fun entry => hd "" (split "_" (snd entry)) =? g) prop_env_file).

(* ------------------------------------------------------------------ *)
(** ** The listings, and the prompts of the bulk toggles *)

(** The queries of the listings.  They read the registry and leave it as
    it is: [refs_of_domain m] is [m.getRefs(Ref.DOMAIN)], and
    [refs_of_type m t] is [m.getRefs(ResourceQuery(t))]. *)
Class Queries `{Platform} : Type := {
  refs_of_domain : MBean -> Env -> res (list Ref);
  refs_of_type : MBean -> string -> Env -> res (list Ref)
}.

(** [ref.projectName]: the first of the names [ref.fullName] joins. *)
Definition projectName (r : Ref) : string := hd "" (split "/" (fullName r)).

(** [int(s)] for a string without spaces around it: decimal digits after
    an optional sign, [None] for any other text. *)
Definition digit_of (c : ascii) : option Z :=
  let n := nat_of_ascii c in
  if Nat.leb 48 n && Nat.leb n 57 then Some (Z.of_nat (n - 48)) else None.

Fixpoint digits_from (acc : Z) (s : string) : option Z :=
  match s with
  | EmptyString => Some acc
  | String c s' =>
      match digit_of c with
      | Some d => digits_from (10 * acc + d) s'
      | None => None
      end
  end.

Definition py_int (s : string) : option Z :=
  match s with
  | EmptyString => None
  | String c s' =>
      if Ascii.eqb c "-" then
        match s' with
        | EmptyString => None
        | _ => option_map Z.opp (digits_from 0 s')
        end
      else if Ascii.eqb c "+" then
        match s' with
        | EmptyString => None
        | _ => digits_from 0 s'
        end
      else digits_from 0 s
  end.

Definition ASK_PATHS : string :=
  "[INPUT] Enter full paths of proxy services separated by space: ".

Definition ASK_ACTION (t : target) : string :=
  match t with
  | Enablement => "[INPUT] Type '0' to disable or '1' to enable proxy service(-s): "
  | Monitoring =>
      "[INPUT] Type '0' to disable or '1' to enable monitoring of proxy service(-s): "
  end.

(** A row of a listing of services: full name, enabled flag, URI. *)
Definition service_row : Type := string * bool * option string.

Declare Scope script_scope.

Section Listings.
Context `{Platform}.

Notation "x <- m ;; k" := (bind m (fun x => k))
  (at level 61, m at next level, right associativity) : script_scope.
Notation "m ;; k" := (bind m (fun _ => k))
  (at level 61, right associativity) : script_scope.
Local Open Scope script_scope.

(** A query on the result of [findService]: [None] has no methods. *)
Definition lookup {L T} (mb : option MBean) (q : MBean -> Env -> res T) : M L T :=
  match mb with
  | Some m => fun l w => (q m (w_env w), l, w)
  | None => raise AttributeError
  end.

(** [int(s)]: [ValueError] for a text that is not a number. *)
Definition int {L} (s : string) : M L Z :=
  match py_int s with
  | Some z => ret z
  | None => raise ValueError
  end.

(** The loop [while True] that asks for the paths until a line is entered
    that is not empty.  Every round reads a line, so the loop is a
    recursion on the lines still to come; at the end of the input
    [raw_input] raises [EOFError]. *)
Fixpoint ask_paths_from {L} (inputs : list string) : M L string :=
  match inputs with
  | [] => raw_input ASK_PATHS
  | _ :: rest =>
      prx_full_names <- raw_input ASK_PATHS ;;
      if prx_full_names =? "" then ask_paths_from rest else ret prx_full_names
  end.

Definition ask_paths {L} : M L string := fun l w => ask_paths_from (w_inputs w) l w.

(** [manage_proxy_services] and [proxy_services_monitoring] from their
    first line: the prompts for the paths and for the action, and then the
    text the two functions share.  Only [proxy_services_monitoring] strips
    the line of paths before it splits it. *)
Definition toggle_from_input (t : target) (ci : connection_info)
  : M toggle_locals (list toggle_row) :=
  prx_full_names <- ask_paths ;;
  let prx_full_names :=
    match t with
    | Enablement => split " " prx_full_names
    | Monitoring => split " " (strip prx_full_names)
    end in
  action <- raw_input (ASK_ACTION t) ;;
  action <- int (strip action) ;;
  bulk_toggle t ci prx_full_names action.

Context {registry_queries : Queries}.

(** [list_projects]: [Some] of the rows handed to [create_report].  The
    handler of its [try] builds its message from [e], a name that is bound
    nowhere in the script. *)
Definition list_projects (ci : connection_info)
  : M (list (list string)) (option (list (list string))) :=
  try_except
    (call DomainRuntime ;;
     alsb_mbean <- call (FindService "ALSBConfiguration") ;;
     refs_all <- lookup alsb_mbean refs_of_domain ;;
     for_each refs_all (fun ref =>
       let type_id := typeId ref in
       if type_id =? "Project" then
         let prj_name := projectName ref in
         modL (fun projects => (projects ++ [[prj_name]])%list) ;;
         ret Next
       else ret Next) ;;
     projects <- getL ;;
     ret (Some projects))
    (fun _ => raise NameError).

Definition s_append (r : service_row) : M (list service_row) unit :=
  modL (fun report => (report ++ [r])%list).

(** [list_proxy_services]: [Some] of the rows handed to [create_report],
    [None] when the handler of its [try] logged an error instead.  The
    clause of the handler names [WLSTException], [ValueError], [NameError],
    [AttributeError] and [EOFError], and its [Exception] covers the other
    two exceptions of [exn]: within [exn] it catches every exception, as
    [try_except] does.  A Java exception other than [WLSTException] would
    pass the clause; [respond] answers with exceptions of [exn] only, so no
    run here raises one, and nothing is stated below about a listing that
    raises. *)
Definition list_proxy_services (ci : connection_info)
  : M (list service_row) (option (list service_row)) :=
  try_except
    (call DomainRuntime ;;
     alsb_mbean <- call (FindService "ALSBConfiguration") ;;
     psc_mbean <- call (FindService "ProxyServiceConfiguration") ;;
     prx_refs <- lookup alsb_mbean (fun m => refs_of_type m "ProxyService") ;;
     for_each prx_refs (fun ref =>
       let prx_full_name := fullName ref in
       service_uri <- on alsb_mbean (fun m => GetEnvValue m ref SERVICE_URI) ;;
       status <- on psc_mbean (fun m => IsEnabled m ref) ;;
       s_append (prx_full_name, status, service_uri) ;;
       ret Next) ;;
     report <- getL ;;
     ret (Some report))
    (fun _ => ret None).

(** One round of the loop of [list_business_services]. *)
Definition business_row (alsb_mbean biz_mbean : option MBean) (ref : Ref)
  : M (list service_row) ctl :=
  let biz_full_name := fullName ref in
  service_uri_table <- on alsb_mbean (fun m => GetEnvValue m ref SERVICE_URI_TABLE) ;;
  markup <- toString service_uri_table ;;
  xml_uri <- first_uri_xml markup ;;
  let service_uri := remove_all "</tran:URI>" (remove_all "<tran:URI>" xml_uri) in
  status <- on biz_mbean (fun m => IsEnabled m ref) ;;
  s_append (biz_full_name, status, Some service_uri) ;;
  ret Next.

(** [list_business_services], with the same clause as
    [list_proxy_services]. *)
Definition list_business_services (ci : connection_info)
  : M (list service_row) (option (list service_row)) :=
  try_except
    (call DomainRuntime ;;
     alsb_mbean <- call (FindService "ALSBConfiguration") ;;
     biz_mbean <- call (FindService "BusinessServiceConfiguration") ;;
     biz_refs <- lookup alsb_mbean (fun m => refs_of_type m "BusinessService") ;;
     for_each biz_refs (business_row alsb_mbean biz_mbean) ;;
     report <- getL ;;
     ret (Some report))
    (fun _ => ret None).

End Listings.

(* ------------------------------------------------------------------ *)
(** ** Reading the event list: what a run changes *)

(** A call that changes the registry: one that opens, activates or
    discards a session or the edit transaction, or changes the
    configuration inside one. *)
Definition changes {T} (c : Call T) : bool :=
  match c with
  | CreateSession _ _ | ActivateSession _ _ _ | DiscardSession _ _
  | Delete _ _
  | EnableService _ _ | DisableService _ _
  | EnableMonitoring _ _ | DisableMonitoring _ _
  | StartEdit | Save | Activate | CancelEdit | Undo
  | RemoveReferencesToBean _
  | DestroyMaxThreadsConstraint _ _ | DestroyMinThreadsConstraint _ _
  | DestroyWorkManager _ _
  | DestroyUniformDistributedQueue _ _ | DestroyQueue _ _
  | DestroyForeignDestination _ _ => true
  | _ => false
  end.

Definition is_change (ev : Event) : bool :=
  match ev with
  | EvCall c _ => changes c
  | _ => false
  end.

(** The calls of an event list that change the registry. *)
Definition changes_of (evs : list Event) : list Event := filter is_change evs.

(** A call that opens or ends the edit transaction. *)
Definition marks_edit {T} (c : Call T) : bool :=
  match c with
  | StartEdit | Activate | CancelEdit => true
  | _ => false
  end.

(** The edit transaction was activated or cancelled, and not opened again. *)
Definition edit_closed (evs : list Event) : bool :=
  match edit_state evs with
  | Some EditActivated | Some EditCancelled => true
  | _ => false
  end.

Section MoreRelations.
Context `{Platform}.

(** No call is made that changes the registry. *)
Definition changes_nothing (w w' : World) : Prop :=
  changes_of (w_events w') = changes_of (w_events w).

(** What [delete_queue] keeps from one round of its loops to the next:
    once the queue was found, the edit transaction is closed. *)
Definition found_means_closed (l : queue_locals) (w : World) : Prop :=
  is_queue_found l = true -> edit_closed (w_events w) = true.

End MoreRelations.

(* ------------------------------------------------------------------ *)
(** ** The listings on the registry *)
Module Catalog.
Import Registry Deployment.






(** The registry when [domainRuntime()] raises. *)
Definition no_domain_runtime : forall T, Call T -> bool :=
  fun T c =>
    match c with
    | DomainRuntime => true
    | _ => false
    end.

Definition registry_offline : registry :=
  mkRegistry [billing; archive; broken] [] wls None 1000 no_domain_runtime [].

End Catalog.

(* ------------------------------------------------------------------ *)
(** ** Reading the event list: what a run removes *)

(** A call that removes something from the configuration. *)
Definition removes {T} (c : Call T) : bool :=
  match c with
  | Delete _ _
  | DestroyMaxThreadsConstraint _ _ | DestroyMinThreadsConstraint _ _
  | DestroyWorkManager _ _
  | DestroyUniformDistributedQueue _ _ | DestroyQueue _ _
  | DestroyForeignDestination _ _ => true
  | _ => false
  end.

Definition is_removal (ev : Event) : bool :=
  match ev with
  | EvCall c _ => removes c
  | _ => false
  end.

Definition removals_of (evs : list Event) : list Event := filter is_removal evs.

(** Every line of input is a refusal. *)
Definition all_refused (inputs : list string) : Prop :=
  Forall (fun a => confirmed a = false) inputs.

Section Refusals.
Context `{Platform}.

(** As long as every line still to come is a refusal, nothing more is
    removed than the removals in [removed]. *)
Definition refused_so_far (removed : list Event) (w : World) : Prop :=
  all_refused (w_inputs w) /\ removals_of (w_events w) = removed.

Definition keeps_refusing (removed : list Event) (w w' : World) : Prop :=
  refused_so_far removed w -> refused_so_far removed w'.

End Refusals.

(* ------------------------------------------------------------------ *)
(** ** What a run keeps *)

(** A row of three cells that is not about a project. *)
Definition reaper_row (r : row) : Prop :=
  length r = 3 /\ hd "" r <> "OSB project".

Section Keeping.
Context `{Platform}.

(** A property of the locals and the world that every run of a
    computation keeps, whether it returns or raises. *)
Definition keeps {L A} (I : L -> World -> Prop) (m : M L A) : Prop :=
  forall l w r l' w', I l w -> m l w = (r, l', w') -> I l' w'.

(** Events are added, none is taken away. *)
Definition extends (w w' : World) : Prop :=
  exists added, w_events w' = (added ++ w_events w)%list.

(** A property that stays true when events are added. *)
Definition steady {L} (I : L -> World -> Prop) : Prop :=
  forall l w w', extends w w' -> I l w -> I l w'.

(** A computation that leaves the locals as they are. *)
Definition leaves_locals {L A} (m : M L A) : Prop :=
  forall l w r l' w', m l w = (r, l', w') -> l' = l /\ extends w w'.

(** What a function of the script returns when called on the locals
    [init]. *)
Definition returns {L A} (f : M L A) (init : L) (V : A -> Prop) : Prop :=
  forall w a l' w', f init w = (Ok a, l', w') -> V a.

(** The project [p] was deleted in a session that was activated. *)
Definition deleted_and_activated (p : string) (evs : list Event) : Prop :=
  exists sm session alsb,
    In (EvCall (ActivateSession sm session ("Deleted '" ++ p ++ "'")) (Ok tt)) evs
    /\ In (EvCall (Delete alsb p) (Ok tt)) evs.

(** Every row of the report of [undeploy_osb_prj] has three cells, and
    every row that reports a project as deleted is backed by the calls. *)
Definition report_backed (l : undeploy_locals) (w : World) : Prop :=
  forall r, In r (report l) ->
            length r = 3
            /\ forall p, r = ["OSB project"; p; "Deleted"] ->
                         deleted_and_activated p (w_events w).

(** The rows a reaper has collected are rows of a reaper. *)
Definition reaper_rows {L} (rows : L -> list row) (l : L) (w : World) : Prop :=
  Forall reaper_row (rows l).

End Keeping.


(* ------------------------------------------------------------------ *)
(** ** More runs on the deployment *)
Module MoreRuns.
Import Registry Deployment Runs Catalog.

(** [str] on a cell that is a string. *)
Definition str_of_str (s : string) : string := s.

(** The rows of a report in two orders. *)
Definition rows_one : list (list string) :=
  [["Work manager"; "BillingWM"; "Skipped"]; ["OSB project"; "Billing"; "Deleted"]].
Definition rows_two : list (list string) :=
  [["OSB project"; "Billing"; "Deleted"]; ["Work manager"; "BillingWM"; "Skipped"]].

Definition OUTCOME_COLUMNS : list string := ["OBJECT_TYPE"; "OBJECT_NAME"; "STATUS"].

(** A directory with property files. *)
Definition directory : list string :=
  [ "manageOSB.py"; "PROD_live.properties"; "old_DEV.properties";
    "DEV_local.properties"; "new_DEV.properties"; "QA_stage.properties" ].

Definition dictionary_one : dict :=
  [("live", "PROD_live.properties"); ("stage", "QA_stage.properties")].
Definition dictionary_two : dict :=
  [("stage", "QA_stage.properties"); ("live", "PROD_live.properties")].

(** A bulk toggle with the action 2, on a reference of a session. *)
Definition session_world :=
  world_of (@call (platform toggle_args) toggle_locals _
              (CreateSession "SessionManagement" "weblogic_1000")
              toggle_locals0 toggle_world).
Definition toggle_with_two :=
  @toggle_ref (platform toggle_args) Enablement 2%Z (Some "SessionManagement")
    (Some "ALSBConfiguration.weblogic_1000")
    (Some "ProxyServiceConfiguration.weblogic_1000")
    "weblogic_1000" "Billing/Proxy/In" "In" billing_in toggle_locals0 session_world.

(** A bulk toggle when [domainRuntime()] raises. *)
Definition offline_world := start toggle_args registry_offline [].

(** The prompts of a bulk toggle: two empty lines, then the path. *)
Definition prompt_world :=
  start interactive registry0 [""; ""; "Billing/Proxy/In"; "0"].
Definition answer_world := start interactive registry0 ["Billing/Proxy/In"; "yes"].

(** Undeploy without a name: unattended, and at the console. *)
Definition unnamed_world := start (automated []) registry0 [].
Definition blank_line_world := start interactive registry0 ["  "; "Y"].


End MoreRuns.


(** ** The characters of the markup *)

Lemma code_nat_of_ascii c : Registry.code c = nat_of_ascii c.
Proof. destruct c as [[] [] [] [] [] [] [] []]; reflexivity. Qed.

Lemma char_of_code_code c : Registry.char_of_code (Registry.code c) = c.
Proof. destruct c as [[] [] [] [] [] [] [] []]; reflexivity. Qed.

(** ** Removing the tags of a rendered element *)




(* ------------------------------------------------------------------ *)
(** * Properties *)

(** ** Strings *)

Lemma lstrip_all_space : forall s, all_space s = true -> lstrip s = "".
Proof.
  induction s as [|c s IH]; simpl; intros Hs; [reflexivity|].
  apply andb_prop in Hs. destruct Hs as [Hc Hs]. rewrite Hc. auto.
Qed.

Lemma strip_all_space : forall s, all_space s = true -> strip s = "".
Proof.
  intros s Hs. unfold strip. rewrite (lstrip_all_space s Hs). reflexivity.
Qed.

Section Proofs.
Context `{Platform}.

(** ** The monad *)

Lemma bind_ok {L A B} (m : M L A) (k : A -> M L B) l w a l1 w1 :
  m l w = (Ok a, l1, w1) -> bind m k l w = k a l1 w1.
Proof. intros E. unfold bind. rewrite E. reflexivity. Qed.

Lemma bind_raise {L A B} (m : M L A) (k : A -> M L B) l w e l1 w1 :
  m l w = (Raise e, l1, w1) -> bind m k l w = (Raise e, l1, w1).
Proof. intros E. unfold bind. rewrite E. reflexivity. Qed.

Lemma try_ok {L A} (m : M L A) h l w a l1 w1 :
  m l w = (Ok a, l1, w1) -> try_except m h l w = (Ok a, l1, w1).
Proof. intros E. unfold try_except. rewrite E. reflexivity. Qed.

Lemma try_raise {L A} (m : M L A) h l w e l1 w1 :
  m l w = (Raise e, l1, w1) -> try_except m h l w = h e l1 w1.
Proof. intros E. unfold try_except. rewrite E. reflexivity. Qed.

Lemma bind_inv_ok {L A B} (m : M L A) (k : A -> M L B) l w b l' w' :
  bind m k l w = (Ok b, l', w') ->
  exists a la wa, m l w = (Ok a, la, wa) /\ k a la wa = (Ok b, l', w').
Proof.
  unfold bind. destruct (m l w) as [[[a|e] la] wa]; intros E; [|discriminate].
  exists a, la, wa. split; [reflexivity | exact E].
Qed.

Lemma ret_inv {L A} (a : A) (l : L) w r l' w' :
  ret a l w = (r, l', w') -> r = Ok a /\ l' = l /\ w' = w.
Proof. intros E. inversion E. auto. Qed.

Lemma modL_inv {L} (f : L -> L) l w r l' w' :
  modL f l w = (r, l', w') -> r = Ok tt /\ l' = f l /\ w' = w.
Proof. intros E. inversion E. auto. Qed.


Section Preservation.
Variable R : World -> World -> Prop.
Hypothesis R_refl : forall w, R w w.
Hypothesis R_trans : forall a b c, R a b -> R b c -> R a c.

Lemma preserves_ret {L A} (a : A) : preserves R (ret a : M L A).
Proof. intros l w r l' w' E. inversion E. subst. apply R_refl. Qed.

Lemma preserves_raise {L A} e : preserves R (raise e : M L A).
Proof. intros l w r l' w' E. inversion E. subst. apply R_refl. Qed.

Lemma preserves_getL {L} : preserves R (getL : M L L).
Proof. intros l w r l' w' E. inversion E. subst. apply R_refl. Qed.

Lemma preserves_modL {L} (f : L -> L) : preserves R (modL f).
Proof. intros l w r l' w' E. inversion E. subst. apply R_refl. Qed.

Lemma preserves_cmo {L} : preserves R (cmo : M L string).
Proof. intros l w r l' w' E. inversion E. subst. apply R_refl. Qed.

Lemma preserves_read_var {L A} (g : L -> option A) : preserves R (read_var g).
Proof.
  intros l w r l' w' E. unfold read_var in E.
  destruct (g l); inversion E; subst; apply R_refl.
Qed.

Lemma preserves_bind {L A B} (m : M L A) (k : A -> M L B) :
  preserves R m -> (forall a, preserves R (k a)) -> preserves R (bind m k).
Proof.
  intros Hm Hk l w r l' w' E. unfold bind in E.
  destruct (m l w) as [[[a|e] l1] w1] eqn:Em.
  - eapply R_trans; [eapply Hm; eassumption | eapply Hk; eassumption].
  - inversion E; subst. eapply Hm; eassumption.
Qed.

Lemma preserves_try {L A} (m : M L A) (h : exn -> M L A) :
  preserves R m -> (forall e, preserves R (h e)) -> preserves R (try_except m h).
Proof.
  intros Hm Hh l w r l' w' E. unfold try_except in E.
  destruct (m l w) as [[[a|e] l1] w1] eqn:Em.
  - inversion E; subst. eapply Hm; eassumption.
  - eapply R_trans; [eapply Hm; eassumption | eapply Hh; eassumption].
Qed.

Lemma preserves_for_each {L X} (xs : list X) (body : X -> M L ctl) :
  (forall x, preserves R (body x)) -> preserves R (for_each xs body).
Proof.
  intros Hb. induction xs as [|x xs IH]; simpl.
  - apply preserves_ret.
  - apply preserves_bind; [apply Hb|].
    intros [| |]; [exact IH | apply preserves_ret | apply preserves_ret].
Qed.

End Preservation.


Lemma quiet_refl w : quiet w w.
Proof. intro; reflexivity. Qed.

Lemma quiet_trans a b c : quiet a b -> quiet b c -> quiet a c.
Proof. intros H1 H2 fn. rewrite H2. apply H1. Qed.

Lemma qsi_refl w : quiet_same_inputs w w.
Proof. split; [apply quiet_refl | reflexivity]. Qed.

Lemma qsi_trans a b c :
  quiet_same_inputs a b -> quiet_same_inputs b c -> quiet_same_inputs a c.
Proof.
  intros [H1 H2] [H3 H4]. split; [eapply quiet_trans; eassumption|].
  unfold same_inputs in *. congruence.
Qed.

Lemma call_inv {L T} (c : Call T) (l : L) w r l' w' :
  call c l w = (r, l', w') ->
  l' = l /\ w_events w' = EvCall c r :: w_events w /\ w_inputs w' = w_inputs w
  /\ w_cmo w' = w_cmo w /\ respond T c (w_env w) = (r, w_env w').
Proof.
  unfold call. destruct (respond T c (w_env w)) as [r0 e0].
  intros E. inversion E; subst. simpl. auto.
Qed.

Lemma preserves_call_qsi {L T} (c : Call T) : preserves quiet_same_inputs (call c : M L T).
Proof.
  intros l w r l' w' E. apply call_inv in E. destruct E as (_ & Ev & Ei & _).
  split; [| exact Ei]. intro fn. rewrite Ev. reflexivity.
Qed.

Lemma preserves_call_quiet {L T} (c : Call T) : preserves quiet (call c : M L T).
Proof. intros l w r l' w' E. eapply preserves_call_qsi; eassumption. Qed.

Lemma preserves_on_qsi {L T} mb (c : MBean -> Call T) :
  preserves quiet_same_inputs (on mb c : M L T).
Proof.
  destruct mb; simpl; [apply preserves_call_qsi | apply preserves_raise, qsi_refl].
Qed.

Lemma preserves_on_quiet {L T} mb (c : MBean -> Call T) :
  preserves quiet (on mb c : M L T).
Proof.
  destruct mb; simpl; [apply preserves_call_quiet | apply preserves_raise, quiet_refl].
Qed.

Lemma preserves_cd_qsi {L} path : preserves quiet_same_inputs (cd path : M L unit).
Proof.
  intros l w r l' w' E. unfold cd, bind in E.
  destruct (call (Cd path) l w) as [[[a|e] l1] w1] eqn:Ec;
    apply call_inv in Ec; destruct Ec as (_ & Ev & Ei & _);
    inversion E; subst; (split; [intro fn; simpl; rewrite Ev; reflexivity | exact Ei]).
Qed.

Lemma preserves_cd_quiet {L} path : preserves quiet (cd path : M L unit).
Proof. intros l w r l' w' E. eapply preserves_cd_qsi; eassumption. Qed.

Lemma preserves_raw_input_quiet {L} prompt : preserves quiet (raw_input prompt : M L string).
Proof.
  intros l w r l' w' E. unfold raw_input in E.
  destruct (w_inputs w); inversion E; subst; intro fn; reflexivity.
Qed.

Lemma preserves_ask_quiet {L} prompt : preserves quiet (ask prompt : M L string).
Proof.
  unfold ask. destruct is_standalone;
    [apply preserves_ret, quiet_refl | apply preserves_raw_input_quiet].
Qed.

End Proofs.

Create HintDb pres.
#[export] Hint Resolve quiet_refl quiet_trans qsi_refl qsi_trans : pres.
#[export] Hint Resolve preserves_ret preserves_raise preserves_getL preserves_modL
  preserves_cmo preserves_read_var preserves_call_qsi preserves_call_quiet
  preserves_on_qsi preserves_on_quiet preserves_cd_qsi preserves_cd_quiet
  preserves_raw_input_quiet preserves_ask_quiet : pres.

(** Goes through a computation built from the combinators. *)
Ltac pres_side :=
  try solve [eauto with pres];
  try match goal with |- forall _, preserves _ _ => intro end.

Ltac pres :=
  repeat match goal with
    | |- preserves _ (bind _ _) => apply preserves_bind; pres_side
    | |- preserves _ (try_except _ _) => apply preserves_try; pres_side
    | |- preserves _ (for_each _ _) => apply preserves_for_each; pres_side
    | |- preserves _ (match ?x with _ => _ end) => destruct x
    | |- preserves _ _ => solve [eauto with pres]
    end.

Section Reapers.
Context `{Platform}.

Lemma delete_work_manager_quiet wm_name :
  preserves quiet_same_inputs (delete_work_manager wm_name).
Proof. unfold delete_work_manager, append_row. pres. Qed.

Lemma delete_found_queue_quiet kind destroy q b :
  preserves quiet (delete_found_queue kind destroy q b).
Proof.
  unfold delete_found_queue, q_set_found, q_append, q_set_dmq_deleted. pres.
Qed.

Lemma delete_queue_quiet q : preserves quiet (delete_queue q).
Proof.
  unfold delete_queue, delete_queue_body, delete_in_module, delete_in_foreign_server,
    q_set_found, q_append. pres; apply delete_found_queue_quiet.
Qed.

Lemma discard_session_quiet sm s : preserves quiet (discard_session sm s).
Proof. unfold discard_session. pres. Qed.

End Reapers.

(** ** Unique names in first-seen order *)

Lemma mem_In x l : mem x l = true <-> In x l.
Proof.
  unfold mem. rewrite existsb_exists. split.
  - intros [y [Hy E]]. apply String.eqb_eq in E. subst. exact Hy.
  - intros Hx. exists x. split; [exact Hx | apply String.eqb_refl].
Qed.

Lemma mem_false x l : mem x l = false <-> ~ In x l.
Proof.
  rewrite <- mem_In. destruct (mem x l); split; intros; congruence.
Qed.


Lemma unique_from_cons acc x names :
  unique_from acc (x :: names)
  = unique_from (if mem x acc then acc else (acc ++ [x])%list) names.
Proof. reflexivity. Qed.

Lemma unique_from_app acc l1 l2 :
  unique_from acc (l1 ++ l2)%list = unique_from (unique_from acc l1) l2.
Proof. unfold unique_from. apply fold_left_app. Qed.

Lemma unique_from_extends acc names :
  exists tail, unique_from acc names = (acc ++ tail)%list.
Proof.
  revert acc. induction names as [|x names IH]; intros acc.
  - exists []. simpl. rewrite app_nil_r. reflexivity.
  - rewrite unique_from_cons. destruct (mem x acc).
    + apply IH.
    + destruct (IH (acc ++ [x])%list) as [tail E]. exists (x :: tail).
      rewrite E, <- app_assoc. reflexivity.
Qed.

Lemma unique_from_In acc names x :
  In x (unique_from acc names) <-> In x acc \/ In x names.
Proof.
  revert acc. induction names as [|y names IH]; intros acc.
  - simpl. tauto.
  - rewrite unique_from_cons, IH. destruct (mem y acc) eqn:E.
    + apply mem_In in E. simpl. split; [tauto|].
      intros [?|[?|?]]; subst; tauto.
    + rewrite in_app_iff. simpl. tauto.
Qed.

Lemma unique_from_NoDup acc names : NoDup acc -> NoDup (unique_from acc names).
Proof.
  revert acc. induction names as [|y names IH]; intros acc Hacc; [exact Hacc|].
  rewrite unique_from_cons. apply IH. destruct (mem y acc) eqn:E; [exact Hacc|].
  apply mem_false in E. apply NoDup_app; [exact Hacc | repeat constructor; auto |].
  intros a Ha [Hy|[]]. subst. contradiction.
Qed.

Lemma unique_NoDup names : NoDup (unique names).
Proof. apply unique_from_NoDup. constructor. Qed.

Lemma unique_In names x : In x (unique names) <-> In x names.
Proof. unfold unique. fold (unique_from [] names). rewrite unique_from_In. simpl. tauto. Qed.

(** First-seen order: the unique names of a prefix come first, and a name
    not seen before comes right after them. *)
Lemma unique_first_seen l1 x l2 :
  ~ In x l1 -> exists tail, unique (l1 ++ x :: l2) = (unique l1 ++ x :: tail)%list.
Proof.
  intros Hx. unfold unique. fold (unique_from [] (l1 ++ x :: l2)).
  fold (unique_from [] l1). rewrite unique_from_app, unique_from_cons.
  assert (E : mem x (unique_from [] l1) = false).
  { apply mem_false. rewrite unique_from_In. simpl. tauto. }
  rewrite E. destruct (unique_from_extends (unique_from [] l1 ++ [x]) l2) as [tail Et].
  exists tail. rewrite Et, <- app_assoc. reflexivity.
Qed.

Lemma contains_empty sub : sub <> "" -> contains sub "" = false.
Proof. destruct sub; [congruence | reflexivity]. Qed.

Lemma jms_queues_spec rows :
  jms_queues rows = map queue_name_of_uri (filter is_jms_uri (map uri_text rows)).
Proof.
  induction rows as [|r rows IH]; [reflexivity|].
  simpl. fold (uri_text r). unfold is_jms_uri at 1.
  destruct (uri_text r =? "") eqn:E0.
  - apply String.eqb_eq in E0. rewrite E0. simpl. exact IH.
  - simpl. destruct (contains "jms://" (uri_text r)); simpl; [|exact IH].
    rewrite IH. reflexivity.
Qed.

Lemma wm_names_spec rows :
  wm_names rows = filter named_work_manager (map wm_text rows).
Proof.
  induction rows as [|r rows IH]; [reflexivity|].
  simpl. fold (wm_text r). unfold named_work_manager, mem. simpl.
  destruct (wm_text r =? ""); simpl; [exact IH|].
  match goal with |- context [negb ?b] => destruct (negb b) end;
    [rewrite IH; reflexivity | exact IH].
Qed.

Section Cascade.
Context `{Platform}.

Lemma invoke_inv {L L' A} fn arg (f : M L' A) init (l : L) w r l' w' :
  invoke fn arg f init l w = (r, l', w') ->
  l' = l /\ exists lf, f init (record (EvEnter fn arg) w) = (r, lf, w').
Proof.
  unfold invoke. destruct (f init (record (EvEnter fn arg) w)) as [[r0 lf] w0].
  intros E. inversion E; subst. split; [reflexivity | exists lf; reflexivity].
Qed.

(** A call of a quiet function records its own entry and nothing else. *)
Lemma invoke_entered {L L' A} fn arg (f : M L' A) init (l : L) w r l' w' :
  preserves quiet f ->
  invoke fn arg f init l w = (r, l', w') ->
  forall g, entered_rev g (w_events w')
            = if fn =? g then arg :: entered_rev g (w_events w)
              else entered_rev g (w_events w).
Proof.
  intros Hq E g. apply invoke_inv in E. destruct E as [_ [lf E]].
  rewrite (Hq _ _ _ _ _ E g). reflexivity.
Qed.

Lemma invocations_app fn w w' names :
  entered_rev fn (w_events w') = (rev names ++ entered_rev fn (w_events w))%list ->
  invocations fn (w_events w') = (invocations fn (w_events w) ++ names)%list.
Proof.
  intros E. unfold invocations. rewrite E, rev_app_distr, rev_involutive. reflexivity.
Qed.

Lemma cascade_queues_entered names : forall l w r l1 w1,
  for_each names
    (fun queue_name =>
       bind (invoke "delete_queue" queue_name (delete_queue queue_name) queue_locals0)
         (fun queues_report => bind (u_extend queues_report) (fun _ => ret Next)))
    l w = (Ok r, l1, w1) ->
  entered_rev "delete_queue" (w_events w1)
  = (rev names ++ entered_rev "delete_queue" (w_events w))%list.
Proof.
  induction names as [|q names IH]; intros l w r l1 w1 E.
  - inversion E; subst. reflexivity.
  - simpl in E. unfold bind at 1 2 in E.
    destruct (invoke "delete_queue" q (delete_queue q) queue_locals0 l w)
      as [[[rows|e] la] wa] eqn:Ei; [|discriminate].
    pose proof (invoke_entered _ _ _ _ _ _ _ _ _ (delete_queue_quiet q) Ei "delete_queue")
      as Hq.
    simpl in Hq. simpl in E. apply IH in E. rewrite E, Hq.
    simpl. rewrite <- app_assoc. reflexivity.
Qed.

Lemma confirmed_Y : confirmed "Y" = true.
Proof. reflexivity. Qed.

Lemma cascade_work_managers_entered names : forall l w r l1 w1,
  for_each names
    (fun wm_name =>
       bind (u_set_wm_name wm_name) (fun _ =>
       bind (ask ("[INPUT] The project was using Work Manager '" ++ wm_name
                  ++ "'. Delete it, Y/N [Y]? ")) (fun del_wm_choice =>
       if confirmed del_wm_choice then
         bind (invoke "delete_work_manager" wm_name (delete_work_manager wm_name) [])
           (fun wm_report => bind (u_extend wm_report) (fun _ => ret Next))
       else
         bind (u_append ["Work manager"; wm_name; "Skipped"]) (fun _ => ret Next))))
    l w = (Ok r, l1, w1) ->
  entered_rev "delete_work_manager" (w_events w1)
  = (rev (chosen names (w_inputs w))
     ++ entered_rev "delete_work_manager" (w_events w))%list.
Proof.
  induction names as [|n names IH]; intros l w r l1 w1 E.
  - inversion E; subst. unfold chosen. destruct is_standalone; reflexivity.
  - simpl in E. unfold bind at 1 2 3 in E. unfold u_set_wm_name, modL in E.
    unfold ask, chosen in *. destruct is_standalone eqn:Es.
    + unfold ret at 1 in E. rewrite confirmed_Y in E. unfold bind at 1 2 in E.
      destruct (invoke "delete_work_manager" n (delete_work_manager n) [] _ w)
        as [[[rows|e] la] wa] eqn:Ei; [|discriminate].
      pose proof (invoke_inv _ _ _ _ _ _ _ _ _ Ei) as [_ [lf Ef]].
      pose proof (delete_work_manager_quiet n _ _ _ _ _ Ef) as [Hq Hi].
      simpl in E. apply IH in E. rewrite E, (Hq "delete_work_manager").
      simpl. rewrite <- app_assoc. reflexivity.
    + unfold raw_input in E. destruct (w_inputs w) as [|a rest] eqn:Ein; [discriminate|].
      simpl combine. simpl filter. simpl snd. destruct (confirmed a).
      * unfold bind at 1 2 in E.
        match type of E with context [invoke ?a ?b ?c ?d ?l0 ?w0] =>
          destruct (invoke a b c d l0 w0) as [[[rows|e] la] wa] eqn:Ei; [|discriminate]
        end.
        pose proof (invoke_inv _ _ _ _ _ _ _ _ _ Ei) as [_ [lf Ef]].
        pose proof (delete_work_manager_quiet n _ _ _ _ _ Ef) as [Hq Hi].
        simpl in E. apply IH in E. rewrite E, (Hq "delete_work_manager"), Hi.
        simpl. rewrite <- app_assoc. reflexivity.
      * simpl in E. apply IH in E. rewrite E. reflexivity.
Qed.

End Cascade.

Section DeadLetter.
Context `{Platform}.


Lemma kdo_refl w : keeps_dlq_order w w.
Proof. intro; assumption. Qed.

Lemma kdo_trans a b c : keeps_dlq_order a b -> keeps_dlq_order b c -> keeps_dlq_order a c.
Proof. unfold keeps_dlq_order. auto. Qed.

Lemma dlq_cons_other {T} (c : Call T) r evs :
  destroys_queue c = false ->
  dlq_resolved_first (EvCall c r :: evs) = dlq_resolved_first evs.
Proof. destruct c; simpl; intros E; try reflexivity; discriminate. Qed.

Lemma preserves_call_dlq {L T} (c : Call T) :
  destroys_queue c = false -> preserves keeps_dlq_order (call c : M L T).
Proof.
  intros Hc l w r l' w' E. apply call_inv in E. destruct E as (_ & Ev & _).
  unfold keeps_dlq_order. rewrite Ev, dlq_cons_other; auto.
Qed.

Lemma preserves_cd_dlq {L} path : preserves keeps_dlq_order (cd path : M L unit).
Proof.
  intros l w r l' w' E. unfold cd, bind in E.
  destruct (call (Cd path) l w) as [[[a|e] l1] w1] eqn:Ec;
    apply call_inv in Ec; destruct Ec as (_ & Ev & _);
    inversion E; subst; unfold keeps_dlq_order; simpl; rewrite Ev; auto.
Qed.

Lemma preserves_raw_input_dlq {L} prompt :
  preserves keeps_dlq_order (raw_input prompt : M L string).
Proof.
  intros l w r l' w' E. unfold raw_input in E.
  destruct (w_inputs w); inversion E; subst; unfold keeps_dlq_order; auto.
Qed.

Lemma preserves_ask_dlq {L} prompt : preserves keeps_dlq_order (ask prompt : M L string).
Proof.
  unfold ask. destruct is_standalone;
    [apply preserves_ret, kdo_refl | apply preserves_raw_input_dlq].
Qed.

End DeadLetter.

#[export] Hint Resolve kdo_refl kdo_trans preserves_cd_dlq preserves_raw_input_dlq
  preserves_ask_dlq : pres.
#[export] Hint Extern 1 (preserves keeps_dlq_order (call _)) =>
  apply preserves_call_dlq; reflexivity : pres.

(** Runs a computation given by an equation [E : m l w = (r, l', w')],
    with a case for every answer of the registry and of the operator. *)
Ltac exec_step E :=
  match type of E with
  | context [respond ?T ?c ?e] =>
      let r := fresh "r" in let e' := fresh "env" in let Er := fresh "Er" in
      destruct (respond T c e) as [[r|r] e'] eqn:Er
  | context [match ?x with _ => _ end] =>
      lazymatch x with
      | context [match _ with _ => _ end] => fail
      | _ => let Ex := fresh "Ex" in destruct x eqn:Ex
      end
  end.

#[local] Arguments String.append : simpl never.

Ltac exec E := repeat (exec_step E; simpl in E; try discriminate E).

Section DeadLetterOrder.
Context `{Platform}.

Lemma bean_eqb_refl b : bean_eqb b b = true.
Proof. apply String.eqb_refl. Qed.

Lemma delete_found_queue_dlq kind destroy q b :
  destroy = DestroyUniformDistributedQueue \/ destroy = DestroyQueue ->
  preserves keeps_dlq_order (delete_found_queue kind destroy q b).
Proof.
  intros Hd l w r l' w' E Hok.
  unfold delete_found_queue, ask, bind, q_set_found, q_append, q_set_dmq_deleted,
    modL, getL, cmo, raw_input, call, ret in E.
  destruct is_standalone; destruct Hd as [-> | ->]; simpl in E;
    exec E; inversion E; subst; simpl;
    rewrite ?bean_eqb_refl, ?Hok; simpl; rewrite ?orb_true_r; reflexivity.
Qed.

Lemma delete_queue_dlq q : preserves keeps_dlq_order (delete_queue q).
Proof.
  unfold delete_queue, delete_queue_body, delete_in_module, delete_in_foreign_server,
    q_set_found, q_append.
  pres; apply delete_found_queue_dlq; auto.
Qed.

End DeadLetterOrder.

Section DeadLetterScenario.
Context `{Platform}.
Variables (a1 a2 : string) (rest : list string).
Hypothesis Hs : is_standalone = false.
Hypothesis Ha1 : confirmed a1 = true.
Hypothesis Ha2 : confirmed a2 = false.

Lemma found_queue_scenario kind destroy q b l w r l' w' :
  queues_report l = [] -> is_dmq_queue_deleted l = false ->
  w_inputs w = a1 :: a2 :: rest ->
  delete_found_queue kind destroy q b l w = (Ok r, l', w') ->
  is_queue_found l' = true /\
  ((exists d,
      w_inputs w' = rest
      /\ queues_report l' = [["DMQ"; bean_name d; "Skipped"]; [kind; q; "Deleted"]]
      /\ w_events w'
         = EvCall Activate (Ok tt) :: EvCall Save (Ok tt)
           :: EvInput ASK_DMQ (Some a2)
           :: EvCall (destroy (w_cmo w) b) (Ok tt)
           :: EvCall (GetErrorDestination b) (Ok (Some d))
           :: EvInput ASK_QUEUE (Some a1) :: w_events w)
   \/ w_inputs w' = a2 :: rest).
Proof.
  intros Hrep Hdmq Hin E.
  unfold delete_found_queue, ask, bind, q_set_found, q_append, q_set_dmq_deleted,
    modL, getL, cmo, raw_input, call, ret in E.
  rewrite Hs in E. simpl in E. rewrite Hin in E. simpl in E. rewrite Ha1 in E.
  exec E.
  all: try solve [rewrite ?Ha2, ?Hdmq in *; discriminate].
  - inversion E; subst; clear E. simpl. split; [reflexivity|]. left. exists b0.
    rewrite Hrep. destruct r1, r2, r3. auto.
  - inversion E; subst; clear E. simpl. auto.
Qed.

Lemma foreign_scenario m q srvs : forall l w r l' w',
  w_inputs w = a1 :: a2 :: rest ->
  for_each srvs (delete_in_foreign_server m q) l w = (Ok r, l', w') ->
  (l' = l /\ w_inputs w' = a1 :: a2 :: rest)
  \/ (is_queue_found l' = true /\ w_inputs w' = a2 :: rest).
Proof.
  induction srvs as [|s srvs IH]; intros l w r l' w' Hin E.
  - inversion E; subst. auto.
  - simpl in E. apply bind_inv_ok in E. destruct E as (c & la & wa & Es & E).
    unfold delete_in_foreign_server, ask, cd, bind, q_set_found, q_append,
      modL, getL, cmo, raw_input, call, ret in Es.
    rewrite Hs in Es. simpl in Es. exec Es.
    + inversion Hin; subst. inversion Es; subst. inversion E; subst. simpl. auto.
    + inversion Hin; subst. congruence.
    + inversion Es; subst. simpl in E. eapply IH; [|exact E]. exact Hin.
Qed.


Lemma cd_inv_ok {L} path (l : L) w u l' w' :
  cd path l w = (Ok u, l', w') ->
  l' = l /\ w_inputs w' = w_inputs w /\ w_cmo w' = path
  /\ w_events w' = EvCall (Cd path) (Ok tt) :: w_events w.
Proof.
  unfold cd, bind, call. destruct (respond unit (Cd path) (w_env w)) as [[[]|e] e'];
    intros E; inversion E; subst; simpl; auto.
Qed.

Lemma module_scenario q mods : forall l w r l' w',
  queues_report l = [] -> is_dmq_queue_deleted l = false ->
  w_inputs w = a1 :: a2 :: rest ->
  for_each mods (delete_in_module q) l w = (Ok r, l', w') ->
  (l' = l /\ w_inputs w' = a1 :: a2 :: rest)
  \/ (is_queue_found l' = true /\ w_inputs w' = a2 :: rest)
  \/ (is_queue_found l' = true /\ w_inputs w' = rest
      /\ exists kind destroy b d c older,
           ((kind = "UniformDistributedQueue" /\ destroy = DestroyUniformDistributedQueue)
            \/ (kind = "Queue" /\ destroy = DestroyQueue))
           /\ queues_report l' = [["DMQ"; bean_name d; "Skipped"]; [kind; q; "Deleted"]]
           /\ w_events w'
              = EvCall Activate (Ok tt) :: EvCall Save (Ok tt)
                :: EvInput ASK_DMQ (Some a2)
                :: EvCall (destroy c b) (Ok tt)
                :: EvCall (GetErrorDestination b) (Ok (Some d))
                :: EvInput ASK_QUEUE (Some a1) :: older).
Proof.
  induction mods as [|m mods IH]; intros l w r l' w' Hrep Hdmq Hin E.
  - inversion E; subst. auto.
  - simpl in E. apply bind_inv_ok in E. destruct E as (c & la & wa & Em & E).
    unfold delete_in_module in Em.
    apply bind_inv_ok in Em. destruct Em as (u & l1 & w1 & Ecd & Em).
    apply cd_inv_ok in Ecd. destruct Ecd as (-> & Hin1 & Hcmo1 & Hev1).
    rewrite <- Hin1 in Hin.
    apply bind_inv_ok in Em. destruct Em as (p & l2 & w2 & Ecmo & Em).
    inversion Ecmo; subst p l2 w2; clear Ecmo.
    apply bind_inv_ok in Em. destruct Em as (ob & l2 & w2 & Elk & Em).
    apply call_inv in Elk. destruct Elk as (-> & Hev2 & Hin2 & Hcmo2 & _).
    rewrite <- Hin2 in Hin.
    destruct ob as [b|].
    + (* a distributed queue *)
      destruct (found_queue_scenario _ _ _ _ _ _ _ _ _ Hrep Hdmq Hin Em)
        as [Hf [[d (Hi & Hr & Hev)] | Hi]].
      * unfold delete_found_queue in Em. (* the loop ends *)
        assert (c = Break) as ->.
        { clear - Em Hs Ha1 Hin.
          unfold ask, bind, q_set_found, q_append, q_set_dmq_deleted,
            modL, getL, cmo, raw_input, call, ret in Em.
          rewrite Hs in Em. simpl in Em. rewrite Hin in Em. simpl in Em.
          rewrite Ha1 in Em. exec Em; inversion Em; reflexivity. }
        apply ret_inv in E. destruct E as (_ & -> & ->).
        right. right. split; [exact Hf|]. split; [exact Hi|].
        exists "UniformDistributedQueue", DestroyUniformDistributedQueue, b, d,
          (w_cmo w2), (w_events w2). auto.
      * assert (c = Break) as ->.
        { clear - Em Hs Ha1 Hin. unfold delete_found_queue in Em.
          unfold ask, bind, q_set_found, q_append, q_set_dmq_deleted,
            modL, getL, cmo, raw_input, call, ret in Em.
          rewrite Hs in Em. simpl in Em. rewrite Hin in Em. simpl in Em.
          rewrite Ha1 in Em. exec Em; inversion Em; reflexivity. }
        apply ret_inv in E. destruct E as (_ & -> & ->). auto.
    + apply bind_inv_ok in Em. destruct Em as (ob & l3 & w3 & Elk & Em).
      apply call_inv in Elk. destruct Elk as (-> & Hev3 & Hin3 & Hcmo3 & _).
      rewrite <- Hin3 in Hin.
      destruct ob as [b|].
      * (* a plain queue *)
        assert (c = Break) as ->.
        { clear - Em Hs Ha1 Hin. unfold delete_found_queue in Em.
          unfold ask, bind, q_set_found, q_append, q_set_dmq_deleted,
            modL, getL, cmo, raw_input, call, ret in Em.
          rewrite Hs in Em. simpl in Em. rewrite Hin in Em. simpl in Em.
          rewrite Ha1 in Em. exec Em; inversion Em; reflexivity. }
        apply ret_inv in E. destruct E as (_ & -> & ->).
        destruct (found_queue_scenario _ _ _ _ _ _ _ _ _ Hrep Hdmq Hin Em)
          as [Hf [[d (Hi & Hr & Hev)] | Hi]]; auto.
        right. right. split; [exact Hf|]. split; [exact Hi|].
        exists "Queue", DestroyQueue, b, d, (w_cmo w3), (w_events w3). auto.
      * (* the foreign servers *)
        apply bind_inv_ok in Em. destruct Em as (srvs & l4 & w4 & Efs & Em).
        apply call_inv in Efs. destruct Efs as (-> & Hev4 & Hin4 & Hcmo4 & _).
        rewrite <- Hin4 in Hin.
        apply bind_inv_ok in Em. destruct Em as (x & l5 & w5 & Eloop & Em).
        apply bind_inv_ok in Em. destruct Em as (l6 & l7 & w7 & Eget & Em).
        inversion Eget; subst l6 l7 w7; clear Eget.
        destruct (foreign_scenario _ _ _ _ _ _ _ _ Hin Eloop) as [[-> Hi] | [Hf Hi]].
        -- destruct (is_queue_found l) eqn:Hfound;
             apply ret_inv in Em; destruct Em as (Ec & -> & ->);
             inversion Ec; subst c; clear Ec.
           ++ apply ret_inv in E. destruct E as (_ & -> & ->). auto.
           ++ eapply IH; eauto.
        -- rewrite Hf in Em. apply ret_inv in Em. destruct Em as (Ec & -> & ->).
           inversion Ec; subst c; clear Ec.
           apply ret_inv in E. destruct E as (_ & -> & ->). auto.
Qed.

End DeadLetterScenario.

Section Discovery.
Context `{Platform}.

(** [get_prj_details] returns "Not found", "Empty" or the rows. *)
Lemma get_prj_details_result n l w d l' w' :
  get_prj_details n l w = (Ok d, l', w') ->
  d = DStr "Not found" \/ d = DStr "Empty" \/ exists rows, d = DList rows.
Proof.
  intros E. unfold get_prj_details in E.
  apply bind_inv_ok in E. destruct E as (name & l1 & w1 & _ & E).
  unfold try_except in E.
  match type of E with context [match ?b l1 w1 with _ => _ end] =>
    destruct (b l1 w1) as [[[d'|e] l2] w2] eqn:Eb end.
  - inversion E; subst d' l2 w2; clear E.
    apply bind_inv_ok in Eb. destruct Eb as (? & ? & ? & _ & Eb).
    apply bind_inv_ok in Eb. destruct Eb as (alsb & ? & ? & _ & Eb).
    apply bind_inv_ok in Eb. destruct Eb as (psc & ? & ? & _ & Eb).
    apply bind_inv_ok in Eb. destruct Eb as (biz & ? & ? & _ & Eb).
    apply bind_inv_ok in Eb. destruct Eb as (found & ? & ? & _ & Eb).
    destruct found; simpl in Eb.
    + apply bind_inv_ok in Eb. destruct Eb as (refs & ? & ? & _ & Eb).
      apply bind_inv_ok in Eb. destruct Eb as (? & ? & ? & _ & Eb).
      apply bind_inv_ok in Eb. destruct Eb as (rep & ? & ? & _ & Eb).
      destruct rep; apply ret_inv in Eb; destruct Eb as (Ed & _);
        inversion Ed; eauto.
    + apply ret_inv in Eb. destruct Eb as (Ed & _). inversion Ed. auto.
  - apply bind_inv_ok in E. destruct E as (rep & ? & ? & _ & E).
    apply ret_inv in E. destruct E as (Ed & _). inversion Ed. eauto.
Qed.

Lemma get_prj_details_not_project_is_empty n l w d l' w' :
  get_prj_details n l w = (Ok d, l', w') -> is_str d "Project is empty" = false.
Proof.
  intros E. destruct (get_prj_details_result _ _ _ _ _ _ E) as [-> | [-> | [rows ->]]];
    reflexivity.
Qed.

(** With a name, [get_prj_details] does not raise: its handler returns
    the rows collected before the exception. *)
Lemma get_prj_details_total n l w :
  n <> "" -> exists d l' w', get_prj_details n l w = (Ok d, l', w').
Proof.
  intros Hn. unfold get_prj_details.
  destruct (n =? "") eqn:En; [apply String.eqb_eq in En; contradiction|].
  unfold bind at 1. unfold ret at 1. unfold try_except.
  match goal with |- context [match ?b l w with _ => _ end] =>
    destruct (b l w) as [[[d'|e] l2] w2] eqn:Eb end.
  - eauto.
  - unfold bind, getL, ret. eauto.
Qed.

End Discovery.

Section Toggle.
Context `{Platform}.


Lemma no_commit_refl w : no_commit w w.
Proof. split; [apply quiet_refl | reflexivity]. Qed.

Lemma no_commit_trans a b c : no_commit a b -> no_commit b c -> no_commit a c.
Proof.
  intros [H1 H2] [H3 H4]. split; [eapply quiet_trans; eassumption | congruence].
Qed.

Lemma commits_cons_other {T} (c : Call T) r evs :
  is_commit c = false -> commits_rev (EvCall c r :: evs) = commits_rev evs.
Proof. destruct c; simpl; intros E; try reflexivity; discriminate. Qed.

Lemma preserves_call_no_commit {L T} (c : Call T) :
  is_commit c = false -> preserves no_commit (call c : M L T).
Proof.
  intros Hc l w r l' w' E. apply call_inv in E. destruct E as (_ & Ev & _).
  split; [intro fn | ]; rewrite Ev; [reflexivity | apply commits_cons_other; exact Hc].
Qed.

Lemma discard_session_no_commit sm s : preserves no_commit (discard_session sm s).
Proof.
  unfold discard_session. destruct sm; [|apply preserves_ret, no_commit_refl].
  apply preserves_bind; [apply no_commit_trans | apply preserves_call_no_commit; reflexivity |].
  intros []; [apply preserves_call_no_commit; reflexivity | apply preserves_ret, no_commit_refl].
Qed.


Lemma toggle_ref_step t action sm alsb psc s pfull plocal ref l w c l' w' :
  toggle_ref t action sm alsb psc s pfull plocal ref l w = (Ok c, l', w') ->
  c = Next /\ prx_full_names_cnt l' = prx_full_names_cnt l
  /\ t_session_name l' = t_session_name l /\ quiet w w'
  /\ exists items,
       mod_prx_cnt l' = mod_prx_cnt l + length items
       /\ commits_rev (w_events w')
          = (rev (flat_map (change_commits is_standalone
                              (Nat.eqb (prx_full_names_cnt l) 1) s) items)
             ++ commits_rev (w_events w))%list
       /\ (is_standalone = true ->
           Forall (fun rc => snd rc = item_comment plocal action) items).
Proof.
  intros E.
  unfold toggle_ref, on, bind, call, t_append, t_incr_mod, modL, getL, raw_input,
    ret, raise in E.
  destruct is_standalone eqn:Es;
    destruct alsb as [alsb|]; try discriminate E;
    destruct psc as [psc|]; simpl in E; exec E; try discriminate E;
    destruct sm as [sm|]; simpl in E; exec E; try discriminate E;
    destruct t; simpl in E; exec E; try discriminate E;
    inversion E; subst; clear E; simpl;
    (split; [reflexivity|]); (split; [reflexivity|]); (split; [reflexivity|]);
    (split; [intro fn; reflexivity|]);
    first
      [ exists []; simpl; split; [lia|]; split; [reflexivity|]; intros; constructor
      | exists [(ref, item_comment plocal action)]; simpl;
        split; [lia|]; split; [reflexivity|]; intros; repeat constructor
      | match goal with |- context [Asked ?cm] => exists [(ref, cm)] end; simpl;
        split; [lia|]; split; [reflexivity|]; intros; discriminate ].
Qed.


Lemma quiet_call {L T} (c : Call T) (l : L) w r l' w' :
  call c l w = (r, l', w') -> quiet w w'.
Proof. apply preserves_call_quiet. Qed.

Lemma toggle_refs_loop t action sm alsb psc s pfull plocal refs : forall l w b l' w',
  for_each refs (toggle_ref t action sm alsb psc s pfull plocal) l w = (Ok b, l', w') ->
  prx_full_names_cnt l' = prx_full_names_cnt l
  /\ t_session_name l' = t_session_name l /\ quiet w w'
  /\ exists items,
       mod_prx_cnt l' = mod_prx_cnt l + length items
       /\ commits_rev (w_events w')
          = (rev (flat_map (change_commits is_standalone
                              (Nat.eqb (prx_full_names_cnt l) 1) s) items)
             ++ commits_rev (w_events w))%list
       /\ (is_standalone = true ->
           Forall (fun rc => snd rc = item_comment plocal action) items).
Proof.
  induction refs as [|ref refs IH]; intros l w b l' w' E.
  - apply ret_inv in E. destruct E as (_ & -> & ->).
    split; [reflexivity|]. split; [reflexivity|]. split; [apply quiet_refl|].
    exists []. simpl. split; [lia|]. split; [reflexivity | intros; constructor].
  - simpl in E. apply bind_inv_ok in E. destruct E as (c & l1 & w1 & E1 & E).
    apply toggle_ref_step in E1.
    destruct E1 as (-> & Hc1 & Hn1 & Hq1 & items1 & Hm1 & He1 & Hf1).
    apply IH in E. destruct E as (Hc2 & Hn2 & Hq2 & items2 & Hm2 & He2 & Hf2).
    split; [congruence|]. split; [congruence|].
    split; [eapply quiet_trans; eassumption|].
    exists (items1 ++ items2)%list. rewrite length_app. split; [lia|]. split.
    + rewrite He2, He1, Hc1, flat_map_app, rev_app_distr, app_assoc. reflexivity.
    + intros Hs. apply Forall_app. auto.
Qed.

Lemma toggle_path_step t action sm alsb psc s names p l w c l' w' :
  toggle_path t action sm alsb psc s names p l w = (Ok c, l', w') ->
  c = Next /\ t_session_name l' = t_session_name l /\ quiet w w'
  /\ (prx_full_names_cnt l' = prx_full_names_cnt l
      \/ prx_full_names_cnt l' = length names)
  /\ exists items,
       mod_prx_cnt l' = mod_prx_cnt l + length items
       /\ commits_rev (w_events w')
          = (rev (flat_map (change_commits is_standalone
                              (Nat.eqb (length names) 1) s) items)
             ++ commits_rev (w_events w))%list
       /\ (items <> [] -> prx_full_names_cnt l' = length names)
       /\ (is_standalone = true ->
           Forall (fun rc => snd rc
                             = item_comment (last_item (split "/" (strip p))) action)
             items).
Proof.
  intros E. unfold toggle_path in E.
  apply bind_inv_ok in E. destruct E as (refs & l1 & w1 & E1 & E).
  assert (H1 : l1 = l /\ quiet w w1
               /\ commits_rev (w_events w1) = commits_rev (w_events w)).
  { destruct alsb as [m|]; [|discriminate E1]. simpl in E1.
    pose proof (quiet_call _ _ _ _ _ _ E1) as Hq.
    apply call_inv in E1. destruct E1 as (-> & Hev & _).
    split; [reflexivity|]. split; [exact Hq|]. rewrite Hev. reflexivity. }
  destruct H1 as (-> & Hq1 & He1).
  destruct refs as [|ref refs].
  - apply bind_inv_ok in E. destruct E as (u & l2 & w2 & Ea & E).
    apply modL_inv in Ea. destruct Ea as (_ & -> & ->).
    apply ret_inv in E. destruct E as (Ec & -> & ->). inversion Ec; subst c.
    split; [reflexivity|]. split; [reflexivity|]. split; [exact Hq1|].
    split; [left; reflexivity|].
    exists []. simpl. split; [lia|]. split; [exact He1|].
    split; [intros Hne; exfalso; apply Hne; reflexivity | intros; constructor].
  - apply bind_inv_ok in E. destruct E as (u & l2 & w2 & Ea & E).
    apply modL_inv in Ea. destruct Ea as (_ & -> & ->).
    apply bind_inv_ok in E. destruct E as (b & l3 & w3 & El & E).
    apply ret_inv in E. destruct E as (Ec & -> & ->). inversion Ec; subst c.
    apply toggle_refs_loop in El. simpl in El.
    destruct El as (Hc & Hn & Hq & items & Hm & He & Hf).
    split; [reflexivity|]. split; [exact Hn|].
    split; [eapply quiet_trans; eassumption|]. split; [right; exact Hc|].
    exists items. split; [exact Hm|]. split; [rewrite He, He1; reflexivity|].
    split; [intros _; exact Hc | exact Hf].
Qed.

Lemma toggle_paths_loop t action sm alsb psc s names ps : forall l w b l' w',
  for_each ps (toggle_path t action sm alsb psc s names) l w = (Ok b, l', w') ->
  t_session_name l' = t_session_name l /\ quiet w w'
  /\ (prx_full_names_cnt l' = prx_full_names_cnt l
      \/ prx_full_names_cnt l' = length names)
  /\ exists items,
       mod_prx_cnt l' = mod_prx_cnt l + length items
       /\ commits_rev (w_events w')
          = (rev (flat_map (change_commits is_standalone
                              (Nat.eqb (length names) 1) s) items)
             ++ commits_rev (w_events w))%list
       /\ (items <> [] -> prx_full_names_cnt l' = length names)
       /\ (is_standalone = true ->
           Forall (fun rc => exists p, In p ps
                     /\ snd rc = item_comment (last_item (split "/" (strip p))) action)
             items).
Proof.
  induction ps as [|p ps IH]; intros l w b l' w' E.
  - apply ret_inv in E. destruct E as (_ & -> & ->).
    split; [reflexivity|]. split; [apply quiet_refl|]. split; [left; reflexivity|].
    exists []. simpl. split; [lia|]. split; [reflexivity|].
    split; [intros Hne; exfalso; apply Hne; reflexivity | intros; constructor].
  - simpl in E. apply bind_inv_ok in E. destruct E as (c & l1 & w1 & E1 & E).
    apply toggle_path_step in E1.
    destruct E1 as (-> & Hn1 & Hq1 & Hc1 & items1 & Hm1 & He1 & Hi1 & Hf1).
    apply IH in E. destruct E as (Hn2 & Hq2 & Hc2 & items2 & Hm2 & He2 & Hi2 & Hf2).
    split; [congruence|]. split; [eapply quiet_trans; eassumption|].
    split; [destruct Hc1 as [A|A], Hc2 as [B|B]; [left|right|right|right]; congruence|].
    exists (items1 ++ items2)%list. rewrite length_app. split; [lia|]. split.
    + rewrite He2, He1, flat_map_app, rev_app_distr, app_assoc. reflexivity.
    + split.
      * intros Hne. destruct items2 as [|i2 items2'].
        -- rewrite app_nil_r in Hne. destruct Hc2 as [Hc2|Hc2]; [|exact Hc2].
           rewrite Hc2. auto.
        -- apply Hi2. discriminate.
      * intros Hs. apply Forall_app. split.
        -- eapply Forall_impl; [|exact (Hf1 Hs)]. intros rc Hrc. exists p.
           split; [left; reflexivity | exact Hrc].
        -- eapply Forall_impl; [|exact (Hf2 Hs)]. intros rc (p' & Hp' & Hrc).
           exists p'. split; [right; exact Hp' | exact Hrc].
Qed.

End Toggle.

Section Claim_C2.
Context `{Platform}.

Lemma call_no_commit {L T} (c : Call T) (l : L) w r l' w' :
  is_commit c = false -> call c l w = (r, l', w') -> l' = l /\ no_commit w w'.
Proof.
  intros Hc E. split; [apply call_inv in E; tauto|].
  eapply preserves_call_no_commit; eassumption.
Qed.

Lemma commits_app w w' cs :
  commits_rev (w_events w') = (rev cs ++ commits_rev (w_events w))%list ->
  commits (w_events w') = (commits (w_events w) ++ cs)%list.
Proof.
  intros E. unfold commits. rewrite E, rev_app_distr, rev_involutive. reflexivity.
Qed.

(** What [discard_session] does with a session service: it asks whether
    the session exists and, when it does, discards it. *)
Lemma discard_session_events sm s u w r u' w' :
  discard_session (Some sm) s u w = (Ok r, u', w') ->
  exists ex : bool,
    w_events w'
    = ((if ex then [EvCall (DiscardSession sm s) (Ok tt)] else [])
       ++ EvCall (SessionExists sm s) (Ok ex) :: w_events w)%list.
Proof.
  intros E. unfold discard_session in E.
  apply bind_inv_ok in E. destruct E as (ex & l1 & w1 & E1 & E).
  apply call_inv in E1. destruct E1 as (_ & Ev1 & _).
  exists ex. destruct ex.
  - apply call_inv in E. destruct E as (_ & Ev & _).
    rewrite Ev, Ev1. destruct r. reflexivity.
  - apply ret_inv in E. destruct E as (_ & _ & ->). rewrite Ev1. reflexivity.
Qed.

Lemma session_state_discarded sm s older :
  session_state (EvCall (DiscardSession sm s) (Ok tt) :: older) s = Some SessionDiscarded.
Proof. simpl. rewrite String.eqb_refl. reflexivity. Qed.

(** C2 (amended).  In a run of a bulk toggle whose [try] completes, the
    changes and activations of the session are these, in this order.  With
    exactly one path every change of a reference is followed at once by an
    activation of the session, and nothing follows; with more than one path
    the changes come first and, when there was one, a single activation
    follows after all paths; without any change nothing is activated and
    the session is discarded: [discard_session] is called for it, asks the
    session service whether the session exists and, when it does, discards
    it, and [discardSession] returns.  When the script runs unattended the
    comment of an activation after a change is "<local name> <action>d" and
    that of the activation after all paths names the number of changes;
    otherwise the comment is what the operator typed at the prompt before
    the activation. *)
Theorem toggle_commit_policy :
  forall t ci paths action w l' w',
    toggle_body t ci paths action toggle_locals0 w = (Ok tt, l', w') ->
    exists session items closing,
      t_session_name l' = Some session
      /\ length items = mod_prx_cnt l'
      /\ commits (w_events w')
         = (commits (w_events w)
            ++ flat_map (change_commits is_standalone (Nat.eqb (length paths) 1) session)
                 items
            ++ closing)%list
      /\ (is_standalone = true ->
          forall p, paths = [p] ->
            Forall (fun rc => snd rc
                              = item_comment (last_item (split "/" (strip p))) action)
              items)
      /\ (if Nat.ltb 1 (length paths) && Nat.ltb 0 (mod_prx_cnt l')
          then exists comment,
                 closing = closing_commits is_standalone session comment
                 /\ (is_standalone = true
                     -> comment = batch_comment t (mod_prx_cnt l') action)
          else closing = [])
      /\ invocations "discard_session" (w_events w')
         = (invocations "discard_session" (w_events w)
            ++ (if Nat.eqb (mod_prx_cnt l') 0 then [session] else []))%list
      /\ (mod_prx_cnt l' = 0 ->
          exists sm (ex : bool) older,
            w_events w'
            = ((if ex then [EvCall (DiscardSession sm session) (Ok tt)] else [])
               ++ EvCall (SessionExists sm session) (Ok ex)
               :: EvEnter "discard_session" session :: older)%list
            /\ (ex = true ->
                session_state (w_events w') session = Some SessionDiscarded)).
Proof.
  intros t ci paths action w l' w' E. unfold toggle_body in E.
  apply bind_inv_ok in E. destruct E as (u1 & l1 & w1 & E1 & E).
  apply call_no_commit in E1; [|reflexivity]. destruct E1 as (-> & N1).
  apply bind_inv_ok in E. destruct E as (millis & l2 & w2 & E2 & E).
  apply call_no_commit in E2; [|reflexivity]. destruct E2 as (-> & N2).
  cbv zeta in E. set (s := username ci ++ "_" ++ str_of_N millis) in *.
  apply bind_inv_ok in E. destruct E as (u3 & l3 & w3 & E3 & E).
  apply modL_inv in E3. destruct E3 as (_ & -> & ->).
  apply bind_inv_ok in E. destruct E as (sm & l4 & w4 & E4 & E).
  apply call_no_commit in E4; [|reflexivity]. destruct E4 as (-> & N4).
  apply bind_inv_ok in E. destruct E as (u5 & l5 & w5 & E5 & E).
  apply modL_inv in E5. destruct E5 as (_ & -> & ->).
  apply bind_inv_ok in E. destruct E as (u6 & l6 & w6 & E6 & E).
  destruct sm as [sm|]; [|discriminate E6]. simpl in E6.
  apply call_no_commit in E6; [|reflexivity]. destruct E6 as (-> & N6).
  apply bind_inv_ok in E. destruct E as (alsb & l7 & w7 & E7 & E).
  apply call_no_commit in E7; [|reflexivity]. destruct E7 as (-> & N7).
  apply bind_inv_ok in E. destruct E as (psc & l8 & w8 & E8 & E).
  apply call_no_commit in E8; [|reflexivity]. destruct E8 as (-> & N8).
  assert (N0 : no_commit w w8) by (repeat (eapply no_commit_trans; [eassumption|]);
                                   apply no_commit_refl).
  clear N1 N2 N4 N6 N7 N8.
  apply bind_inv_ok in E. destruct E as (b & l9 & w9 & Eloop & E).
  apply toggle_paths_loop in Eloop. simpl in Eloop.
  destruct Eloop as (Hn & Hq & Hc & items & Hm & He & Hi & Hf).
  apply bind_inv_ok in E. destruct E as (lx & l10 & w10 & Eg & E).
  inversion Eg; subst lx l10 w10; clear Eg.
  destruct N0 as [Q0 C0]. rewrite C0 in He.
  assert (Q9 : quiet w w9) by (eapply quiet_trans; eassumption).
  assert (Hitems : items = [] \/ prx_full_names_cnt l9 = length paths).
  { destruct items; [left; reflexivity | right; apply Hi; discriminate]. }
  exists s, items.
  destruct (Nat.ltb 1 (prx_full_names_cnt l9) && Nat.ltb 0 (mod_prx_cnt l9)) eqn:Ecase.
  - (* the activation after all paths *)
    apply andb_prop in Ecase. destruct Ecase as [Hcnt Hmod].
    apply Nat.ltb_lt in Hmod.
    assert (Hcn : prx_full_names_cnt l9 = length paths).
    { destruct Hitems as [-> | Hx]; [simpl in Hm; lia | exact Hx]. }
    rewrite Hcn in Hcnt.
    apply bind_inv_ok in E. destruct E as (comment & l11 & w11 & Ec & E).
    assert (Hask : l11 = l9 /\ quiet w9 w11
                   /\ commits_rev (w_events w11)
                      = ((if is_standalone then [] else [Asked comment])
                         ++ commits_rev (w_events w9))%list
                   /\ (is_standalone = true
                       -> comment = batch_comment t (mod_prx_cnt l9) action)).
    { destruct is_standalone.
      - apply ret_inv in Ec. destruct Ec as (Ec & -> & ->). inversion Ec.
        split; [reflexivity|]. split; [apply quiet_refl|]. split; reflexivity.
      - pose proof (preserves_raw_input_quiet _ _ _ _ _ _ Ec) as Qi.
        unfold raw_input in Ec. destruct (w_inputs w9) as [|a rest]; [discriminate|].
        inversion Ec; subst comment l11 w11; clear Ec.
        split; [reflexivity|]. split; [exact Qi|]. split; [reflexivity|]. discriminate. }
    destruct Hask as (-> & Qc & Hec & Hbc). clear Ec.
    simpl in E. pose proof (quiet_call _ _ _ _ _ _ E) as Qa.
    apply call_inv in E. destruct E as (-> & Hev & _).
    exists (closing_commits is_standalone s comment).
    split; [exact Hn|]. split; [lia|]. split; [|split; [|split; [|split]]];
      [| | | | intros Hz; lia].
    + apply commits_app. rewrite Hev. simpl. rewrite Hec, He.
      unfold closing_commits. rewrite !rev_app_distr. simpl.
      destruct is_standalone; simpl; rewrite <- ?app_assoc; reflexivity.
    + intros Hs p ->. simpl in Hcnt. discriminate.
    + rewrite Hcnt. replace (Nat.ltb 0 (mod_prx_cnt l9)) with true
        by (symmetry; apply Nat.ltb_lt; exact Hmod).
      simpl. exists comment. split; [reflexivity | exact Hbc].
    + replace (Nat.eqb (mod_prx_cnt l9) 0) with false
        by (symmetry; apply Nat.eqb_neq; lia).
      rewrite app_nil_r. unfold invocations. f_equal.
      rewrite (Qa "discard_session"), (Qc "discard_session"). apply Q9.
  - destruct (Nat.eqb (mod_prx_cnt l9) 0) eqn:Ezero.
    + (* nothing was changed: the session is discarded *)
      apply Nat.eqb_eq in Ezero.
      assert (items = []) as -> by (destruct items; [reflexivity | simpl in Hm; lia]).
      pose proof (invoke_entered _ _ _ _ _ _ _ _ _ (discard_session_quiet _ _) E
                    "discard_session") as Qd.
      simpl in Qd.
      apply invoke_inv in E. destruct E as (-> & lf & E).
      pose proof (discard_session_events _ _ _ _ _ _ _ E) as [ex Hex].
      apply discard_session_no_commit in E. destruct E as [_ Cd].
      exists []. split; [exact Hn|]. split; [simpl; lia|].
      split; [|split; [|split; [|split]]].
      * apply commits_app. simpl in *. rewrite Cd. exact He.
      * intros; constructor.
      * rewrite Ezero. rewrite andb_false_r. reflexivity.
      * rewrite Ezero. unfold invocations.
        rewrite Qd, (Q9 "discard_session"). reflexivity.
      * intros _. exists sm, ex, (w_events w9). split; [exact Hex|].
        intros ->. rewrite Hex. apply session_state_discarded.
    + (* one path: every change was activated at once *)
      apply ret_inv in E. destruct E as (_ & -> & ->).
      apply Nat.eqb_neq in Ezero.
      assert (Hcn : prx_full_names_cnt l9 = length paths).
      { destruct Hitems as [-> | Hx]; [simpl in Hm; lia | exact Hx]. }
      rewrite Hcn in Ecase.
      exists []. split; [exact Hn|]. split; [lia|].
      split; [|split; [|split; [|split]]]; [| | | | intros Hz; contradiction].
      * apply commits_app. rewrite app_nil_r. exact He.
      * intros Hs p ->. eapply Forall_impl; [|exact (Hf Hs)].
        intros rc (p' & [<- | []] & Hrc). exact Hrc.
      * rewrite Ecase. reflexivity.
      * replace (Nat.eqb (mod_prx_cnt l9) 0) with false
          by (symmetry; apply Nat.eqb_neq; exact Ezero).
        rewrite app_nil_r. unfold invocations. f_equal. apply Q9.
Qed.

End Claim_C2.

Section Claim_C5.
Context `{Platform}.

(** C5 (amended).  From the rows captured before the deletion the cascade
    derives the queue names of the URIs with a [jms://] scheme (the last
    dot-delimited token of the trailing path segment) and the work-manager
    names that are not a platform default; each collection holds each name
    once, in first-seen order.  When the two cascade steps complete,
    [delete_queue] was called exactly once per unique queue name, in that
    order, and [delete_work_manager] exactly once per unique work-manager
    name whose deletion was confirmed (every name when the script runs
    unattended) and not at all for a name the operator declined. *)
Theorem cascade_reaps_each_name_once :
  forall details l w l1 w1 l2 w2,
    cascade_queues details l w = (Ok tt, l1, w1) ->
    cascade_work_managers details l1 w1 = (Ok tt, l2, w2) ->
    jms_queues details = map queue_name_of_uri (filter is_jms_uri (map uri_text details))
    /\ wm_names details = filter named_work_manager (map wm_text details)
    /\ NoDup (unique (jms_queues details))
    /\ NoDup (unique (wm_names details))
    /\ (forall x, In x (unique (jms_queues details)) <-> In x (jms_queues details))
    /\ (forall x, In x (unique (wm_names details)) <-> In x (wm_names details))
    /\ (forall seen x later,
          ~ In x seen ->
          exists tail, unique (seen ++ x :: later) = (unique seen ++ x :: tail)%list)
    /\ invocations "delete_queue" (w_events w1)
       = (invocations "delete_queue" (w_events w) ++ unique (jms_queues details))%list
    /\ invocations "delete_work_manager" (w_events w2)
       = (invocations "delete_work_manager" (w_events w1)
          ++ chosen (unique (wm_names details)) (w_inputs w1))%list.
Proof.
  intros details l w l1 w1 l2 w2 Eq Ew.
  split; [apply jms_queues_spec|]. split; [apply wm_names_spec|].
  split; [apply unique_NoDup|]. split; [apply unique_NoDup|].
  split; [intro; apply unique_In|]. split; [intro; apply unique_In|].
  split; [intros; apply unique_first_seen; assumption|].
  split.
  - unfold cascade_queues in Eq.
    apply bind_inv_ok in Eq. destruct Eq as (b & la & wa & Ef & Er).
    inversion Er; subst. apply invocations_app.
    eapply cascade_queues_entered. exact Ef.
  - unfold cascade_work_managers in Ew.
    apply bind_inv_ok in Ew. destruct Ew as (u1 & la & wa & E1 & Ew).
    apply modL_inv in E1. destruct E1 as (_ & _ & ->).
    apply bind_inv_ok in Ew. destruct Ew as (u2 & lb & wb & E2 & Ew).
    assert (wb = w1) as ->.
    { destruct (wm_names details); [inversion E2; reflexivity|].
      apply modL_inv in E2. tauto. }
    apply bind_inv_ok in Ew. destruct Ew as (b & lc & wc & Ef & Er).
    inversion Er; subst. apply invocations_app.
    eapply cascade_work_managers_entered. exact Ef.
Qed.

End Claim_C5.

Section Claim_C7.
Context `{Platform}.

Lemma cons_neq {A} (x : A) l : x :: l <> l.
Proof. intros E. apply (f_equal (@length A)) in E. simpl in E. lia. Qed.

Lemma cons2_neq {A} (x y : A) l : x :: y :: l <> l.
Proof. intros E. apply (f_equal (@length A)) in E. simpl in E. lia. Qed.

Lemma delete_queue_body_scenario a1 a2 rest q w rows l' w' :
  is_standalone = false -> confirmed a1 = true -> confirmed a2 = false ->
  w_inputs w = a1 :: a2 :: rest -> w_inputs w' = rest ->
  delete_queue_body q queue_locals0 w = (Ok rows, l', w') ->
  exists kind destroy b d c older,
    ((kind = "UniformDistributedQueue" /\ destroy = DestroyUniformDistributedQueue)
     \/ (kind = "Queue" /\ destroy = DestroyQueue))
    /\ rows = [["DMQ"; bean_name d; "Skipped"]; [kind; q; "Deleted"]]
    /\ w_events w'
       = EvCall Activate (Ok tt) :: EvCall Save (Ok tt)
         :: EvInput ASK_DMQ (Some a2)
         :: EvCall (destroy c b) (Ok tt)
         :: EvCall (GetErrorDestination b) (Ok (Some d))
         :: EvInput ASK_QUEUE (Some a1) :: older.
Proof.
  intros Hs Ha1 Ha2 Hin Hout E. unfold delete_queue_body in E.
  apply bind_inv_ok in E. destruct E as (u1 & l1 & w1 & E1 & E).
  apply call_inv in E1. destruct E1 as (-> & _ & Hi1 & _). rewrite <- Hi1 in Hin.
  apply bind_inv_ok in E. destruct E as (u2 & l2 & w2 & E2 & E).
  apply call_inv in E2. destruct E2 as (-> & _ & Hi2 & _). rewrite <- Hi2 in Hin.
  apply bind_inv_ok in E. destruct E as (u3 & l3 & w3 & E3 & E).
  apply cd_inv_ok in E3. destruct E3 as (-> & Hi3 & _). rewrite <- Hi3 in Hin.
  apply bind_inv_ok in E. destruct E as (p & l4 & w4 & E4 & E).
  inversion E4; subst p l4 w4; clear E4.
  apply bind_inv_ok in E. destruct E as (mods & l5 & w5 & E5 & E).
  apply call_inv in E5. destruct E5 as (-> & _ & Hi5 & _). rewrite <- Hi5 in Hin.
  apply bind_inv_ok in E. destruct E as (x & l6 & w6 & Eloop & E).
  apply bind_inv_ok in E. destruct E as (l7 & l8 & w8 & Eget & E).
  inversion Eget; subst l7 l8 w8; clear Eget.
  apply bind_inv_ok in E. destruct E as (u & l9 & w9 & Eif & E).
  apply bind_inv_ok in E. destruct E as (l10 & l11 & w11 & Eget & E).
  inversion Eget; subst l10 l11 w11; clear Eget.
  apply ret_inv in E. destruct E as (Er & -> & ->). inversion Er; subst rows; clear Er.
  destruct (module_scenario a1 a2 rest Hs Ha1 Ha2 q mods queue_locals0 _ _ _ _
              eq_refl eq_refl Hin Eloop)
    as [[-> Hi] | [[Hf Hi] | (Hf & Hi & kind & destroy & b & d & c & older & Hk & Hr & He)]].
  - (* no module holds the queue: no answer was read *)
    simpl in Eif. apply bind_inv_ok in Eif. destruct Eif as (u' & la & wa & Ea & Eb).
    apply modL_inv in Ea. destruct Ea as (_ & -> & ->).
    apply call_inv in Eb. destruct Eb as (_ & _ & Hib & _).
    exfalso. apply (cons2_neq a1 a2 rest). congruence.
  - rewrite Hf in Eif. apply ret_inv in Eif. destruct Eif as (_ & -> & ->).
    exfalso. apply (cons_neq a2 rest). congruence.
  - rewrite Hf in Eif. apply ret_inv in Eif. destruct Eif as (_ & -> & ->).
    exists kind, destroy, b, d, c, older. auto.
Qed.

(** C7.  [delete_queue] reads the error destination of the queue it found
    before it destroys the queue: in the events of a call every destruction
    of a distributed or plain queue follows directly on the resolution of
    that queue's error destination, or destroys an error destination
    resolved before.  When the operator confirms the deletion of the queue
    and declines that of its error destination (the two answers the call
    reads) and nothing fails, the outcome is exactly two rows: the error
    destination with status Skipped and the queue with status Deleted. *)
Theorem dead_letter_resolved_first_and_reported :
  forall q w r l' w',
    delete_queue q queue_locals0 w = (r, l', w') ->
    (dlq_resolved_first (w_events w) = true -> dlq_resolved_first (w_events w') = true)
    /\ (forall a1 a2 rest rows,
          is_standalone = false ->
          w_inputs w = a1 :: a2 :: rest -> w_inputs w' = rest ->
          confirmed a1 = true -> confirmed a2 = false ->
          r = Ok rows -> ~ In ["Queue"; strip q; "Failed"] rows ->
          exists kind destroy b d c older,
            ((kind = "UniformDistributedQueue"
              /\ destroy = DestroyUniformDistributedQueue)
             \/ (kind = "Queue" /\ destroy = DestroyQueue))
            /\ rows = [["DMQ"; bean_name d; "Skipped"]; [kind; strip q; "Deleted"]]
            /\ w_events w'
               = EvCall Activate (Ok tt) :: EvCall Save (Ok tt)
                 :: EvInput ASK_DMQ (Some a2)
                 :: EvCall (destroy c b) (Ok tt)
                 :: EvCall (GetErrorDestination b) (Ok (Some d))
                 :: EvInput ASK_QUEUE (Some a1) :: older).
Proof.
  intros q w r l' w' E. split.
  - exact (delete_queue_dlq q _ _ _ _ _ E).
  - intros a1 a2 rest rows Hs Hin Hout Ha1 Ha2 -> Hnf.
    unfold delete_queue in E. destruct (strip q =? "") eqn:Eq.
    + apply bind_inv_ok in E. destruct E as (la & lb & wb & Eg & E).
      inversion Eg; subst la lb wb; clear Eg.
      apply ret_inv in E. destruct E as (_ & _ & ->).
      exfalso. apply (cons2_neq a1 a2 rest). congruence.
    + unfold try_except in E.
      destruct (delete_queue_body (strip q) queue_locals0 w) as [[[rows'|e] lb] wb] eqn:Eb.
      * inversion E; subst rows' lb wb; clear E.
        eapply delete_queue_body_scenario; eassumption.
      * exfalso. unfold bind, call, q_append, modL, getL, ret in E.
        exec E. inversion E; subst. apply Hnf. simpl.
        apply in_or_app. right. left. reflexivity.
Qed.

End Claim_C7.

Section Claim_C8.
Context `{Platform}.

(** A round of the loop of [undeploy_osb_prj] for a name that is not
    blank does not leave the loop: [get_prj_details] catches what fails
    while it discovers the project, so the [return] of lines 97-100 is
    not reached, and every other way through the round ends in the next
    round. *)
Lemma undeploy_one_goes_on ci p l w c l' w' :
  strip p <> "" ->
  undeploy_one ci p l w = (Ok c, l', w') -> c = Next.
Proof.
  intros Hp E. unfold undeploy_one in E.
  destruct (p =? "") eqn:Ep.
  - apply ret_inv in E. destruct E as (Ec & _). inversion Ec. reflexivity.
  - cbv zeta in E. apply bind_inv_ok in E. destruct E as (found & l1 & w1 & Ef & E).
    assert (Hf : exists d, found = Some d).
    { unfold try_except in Ef.
      match type of Ef with context [match ?b l w with _ => _ end] =>
        destruct (b l w) as [[[x|e] l2] w2] eqn:Eb end.
      - apply bind_inv_ok in Eb. destruct Eb as (d & l3 & w3 & _ & Eb).
        apply ret_inv in Eb. destruct Eb as (Ex & _). inversion Ex; subst x.
        inversion Ef; subst found. eauto.
      - exfalso. unfold bind in Eb.
        destruct (invoke "get_prj_details" (strip p) (get_prj_details (strip p)) [] l w)
          as [[[d|e'] l3] w3] eqn:Ei; [discriminate Eb|].
        apply invoke_inv in Ei. destruct Ei as (_ & lf & Ei).
        destruct (get_prj_details_total (strip p) [] (record (EvEnter "get_prj_details"
                                                               (strip p)) w) Hp)
          as (d & l4 & w4 & Et).
        rewrite Et in Ei. discriminate Ei. }
    destruct Hf as [d ->].
    destruct (is_str d "Not found").
    + apply bind_inv_ok in E. destruct E as (? & ? & ? & _ & E).
      apply ret_inv in E. destruct E as (Ec & _). inversion Ec. reflexivity.
    + apply bind_inv_ok in E. destruct E as (? & ? & ? & _ & E).
      apply bind_inv_ok in E. destruct E as (millis & ? & ? & _ & E).
      cbv zeta in E.
      apply bind_inv_ok in E. destruct E as (proceed & ? & ? & _ & E).
      destruct proceed.
      * apply bind_inv_ok in E. destruct E as (? & ? & ? & _ & E).
        apply ret_inv in E. destruct E as (Ec & _). inversion Ec. reflexivity.
      * apply ret_inv in E. destruct E as (Ec & _). inversion Ec. reflexivity.
Qed.

End Claim_C8.

Section Claim_C10.
Context `{Platform}.

(** C10.  For a queue name that is empty or whitespace only
    [delete_queue] returns the empty report at once: the world is the one
    it was called in, so no call reached the registry and no input was
    read. *)
Theorem delete_queue_blank_name :
  forall q w,
    all_space q = true ->
    delete_queue q queue_locals0 w = (Ok [], queue_locals0, w).
Proof.
  intros q w Hq. unfold delete_queue. rewrite (strip_all_space q Hq). reflexivity.
Qed.

End Claim_C10.

Section Claim_C9.
Context `{Platform}.



End Claim_C9.

(* ------------------------------------------------------------------ *)
(** * The workflows on the deployment *)

Section OnTheDeployment.
Import Registry Deployment Runs.

(** C1 (the code leaves sessions open).  Three runs end with an open
    session or edit transaction: [delete_work_manager] for a work manager
    that does not exist reports Not found and leaves the edit transaction
    it started open; the undeploy of a project that is gone from the view
    of the session reports Not found and leaves the session open; the
    undeploy of a project whose deletion the operator declines leaves the
    session open as well. *)
Theorem sessions_left_open :
  (result_of reap_missing_work_manager = Ok [["Work manager"; "NoSuchWM"; "Not found"]]
   /\ edit_state (w_events (world_of reap_missing_work_manager)) = Some EditOpen)
  /\ (result_of undeploy_raced = Ok (Some [["OSB project"; "Billing"; "Not found"]])
      /\ session_state (w_events (world_of undeploy_raced)) "weblogic_1000"
         = Some SessionOpen)
  /\ (result_of undeploy_declined
      = Ok (Some [["OSB project"; "Billing"; "Skipped by user"]])
      /\ session_state (w_events (world_of undeploy_declined)) "weblogic_1000"
         = Some SessionOpen).
Proof. vm_compute. repeat split; reflexivity. Qed.

(** C3 (the code leaves the session open).  When the operator declines
    the deletion of the project [Billing], the outcome is the one row
    (OSB project, Billing, Skipped by user) and no reaper is called, but
    [discard_session] is not called either: the session stays open. *)
Theorem declined_deletion_leaves_session_open :
  result_of undeploy_declined = Ok (Some [["OSB project"; "Billing"; "Skipped by user"]])
  /\ invocations "delete_queue" (w_events (world_of undeploy_declined)) = []
  /\ invocations "delete_work_manager" (w_events (world_of undeploy_declined)) = []
  /\ invocations "discard_session" (w_events (world_of undeploy_declined)) = []
  /\ session_state (w_events (world_of undeploy_declined)) "weblogic_1000"
     = Some SessionOpen.
Proof. vm_compute. repeat split; reflexivity. Qed.

(** C4 (the code never reports an empty project).  For the project
    [Archive], which has no endpoints, [get_prj_details] returns "Empty",
    not the "Project is empty" that [undeploy_osb_prj] compares with: the
    outcome is the one row (OSB project, Archive, Deleted), without a row
    (OSB project, Archive, Project is empty). *)
Theorem empty_project_row_missing :
  result_of discover_empty_project = Ok (DStr "Empty")
  /\ result_of undeploy_empty_project = Ok (Some [["OSB project"; "Archive"; "Deleted"]])
  /\ invocations "delete_queue" (w_events (world_of undeploy_empty_project)) = []
  /\ invocations "delete_work_manager" (w_events (world_of undeploy_empty_project)) = [].
Proof. vm_compute. repeat split; reflexivity. Qed.

(** C6 (the code goes on searching after a declined match).  The queue
    [BillingQueue] is a distributed queue of the first module.  When the
    operator declines its deletion, [delete_queue] cancels the edit and
    then searches the second module: a distributed-queue lookup, a
    plain-queue lookup and a foreign-destination lookup follow the match. *)
Theorem declined_queue_search_continues :
  result_of reap_queue_declined
  = Ok [["UniformDistributedQueue"; "BillingQueue"; "Skipped"]]
  /\ rev (w_events (world_of reap_queue_declined))
     = [ EvCall Edit (Ok tt); EvCall StartEdit (Ok tt); EvCall (Cd "/") (Ok tt);
         EvCall (JMSSystemResources "/") (Ok [mkBean "ModuleA"; mkBean "ModuleB"]);
         EvCall (Cd "/JMSSystemResources/ModuleA/JMSResource/ModuleA") (Ok tt);
         EvCall (LookupUniformDistributedQueue
                   "/JMSSystemResources/ModuleA/JMSResource/ModuleA" "BillingQueue")
           (Ok (Some (mkBean "BillingQueue")));
         EvInput ASK_QUEUE (Some "N");
         EvCall CancelEdit (Ok tt);
         EvCall (Cd "/JMSSystemResources/ModuleB/JMSResource/ModuleB") (Ok tt);
         EvCall (LookupUniformDistributedQueue
                   "/JMSSystemResources/ModuleB/JMSResource/ModuleB" "BillingQueue")
           (Ok None);
         EvCall (LookupQueue "/JMSSystemResources/ModuleB/JMSResource/ModuleB"
                   "BillingQueue")
           (Ok None);
         EvCall (GetForeignServers "/JMSSystemResources/ModuleB/JMSResource/ModuleB")
           (Ok [mkBean "RemoteMQ"]);
         EvCall (LookupForeignDestination (mkBean "RemoteMQ") "BillingQueue") (Ok None) ].
Proof. vm_compute. split; reflexivity. Qed.

(** C2, counterexample.  At the console the comment of an activation is
    the line the operator typed.  When one path is disabled, the session
    is activated at once with that line, not with the comment made from
    the name of the proxy service.  When two paths are given, one of them
    unknown, the session is activated once after all paths, again with the
    line the operator typed, not with the comment that names the number of
    changes. *)
Lemma console_activation_comment_is_typed :
  (result_of toggle_at_console
   = Ok [("Billing/Proxy/In", "Disabled", Some QUEUE_URI)]
   /\ activations (w_events (world_of toggle_at_console))
      = [("weblogic_1000", "maintenance window")]
   /\ item_comment "In" 0 = "In disabled"
   /\ ~ In ("weblogic_1000", item_comment "In" 0)
        (activations (w_events (world_of toggle_at_console))))
  /\ (result_of toggle_two_at_console
      = Ok [ ("Billing/Proxy/In", "Disabled", Some QUEUE_URI);
             ("Billing/Proxy/Missing", "Not found", Some "N/A") ]
      /\ commits (w_events (world_of toggle_two_at_console))
         = [ Changed billing_in; Asked "maintenance window";
             Activated "weblogic_1000" "maintenance window" ]
      /\ batch_comment Enablement 1 0 = "1 proxy services disabled"
      /\ ~ In ("weblogic_1000", batch_comment Enablement 1 0)
           (activations (w_events (world_of toggle_two_at_console)))).
Proof.
  vm_compute. repeat split; try reflexivity; intros [E|[]]; discriminate E.
Qed.

(** C5, counterexample.  The project [Billing] is deleted and its rows
    name the work manager [BillingWM]; the operator declines the deletion
    of the work manager: [delete_work_manager] is not called for it. *)
Lemma declined_work_manager_not_reaped :
  unique (wm_names billing_rows) = ["BillingWM"]
  /\ result_of undeploy_keep_work_manager
     = Ok (Some [ ["OSB project"; "Billing"; "Deleted"];
                  ["UniformDistributedQueue"; "BillingQueue"; "Deleted"];
                  ["DMQ"; "BillingDMQ"; "Deleted"];
                  ["Work manager"; "BillingWM"; "Skipped"] ])
  /\ invocations "delete_work_manager" (w_events (world_of undeploy_keep_work_manager))
     = [].
Proof. vm_compute. repeat split; reflexivity. Qed.

(** C8 (the code ends the batch when the handler of a failed deletion
    fails).  [Billing] and [Archive] are undeployed unattended.  When the
    deletion of [Billing] raises, the handler records the row (OSB project,
    Billing, Failed), discards the session, and the loop goes on:
    [Archive] is looked up and deleted.  When it is the lookup of the
    session service that raises, the handler records the same row and then
    reads [session_mbean], which is not bound yet: [NameError] leaves
    [undeploy_osb_prj], [Archive] is neither looked up nor deleted, and no
    report is made.  A name that is not blank never ends the batch by the
    [return] of the handler of the discovery; a name of white space does:
    here the second name is a tab, the operator enters an empty line when
    asked for the name of the project, and [Billing] is neither looked up
    nor deleted. *)
Theorem failed_deletion_ends_batch :
  (result_of undeploy_failing_delete
   = Ok (Some [ ["OSB project"; "Billing"; "Failed"];
                ["OSB project"; "Archive"; "Deleted"] ])
   /\ invocations "get_prj_details" (w_events (world_of undeploy_failing_delete))
      = ["Billing"; "Archive"]
   /\ session_state (w_events (world_of undeploy_failing_delete)) "weblogic_1000"
      = Some SessionDiscarded
   /\ map p_name (r_osb (w_env (world_of undeploy_failing_delete)))
      = ["Billing"; "Broken"])
  /\ (result_of undeploy_no_session_service = Raise NameError
      /\ hd (EvEnter "" "") (w_events (world_of undeploy_no_session_service))
         = EvCall (FindService "SessionManagement") (Raise WLSTException)
      /\ session_mbean (locals_of undeploy_no_session_service) = None
      /\ report (locals_of undeploy_no_session_service)
         = [["OSB project"; "Billing"; "Failed"]]
      /\ invocations "get_prj_details" (w_events (world_of undeploy_no_session_service))
         = ["Billing"]
      /\ map p_name (r_osb (w_env (world_of undeploy_no_session_service)))
         = ["Billing"; "Archive"; "Broken"])
  /\ (result_of undeploy_blank_name = Ok None
      /\ invocations "get_prj_details" (w_events (world_of undeploy_blank_name))
         = ["Archive"; ""]
      /\ map p_name (r_osb (w_env (world_of undeploy_blank_name))) = ["Billing"; "Broken"])
  /\ (forall (P : Platform) ci p l w c l' w',
        strip p <> "" -> @undeploy_one P ci p l w = (Ok c, l', w') -> c = Next).
Proof.
  split; [vm_compute; repeat split; reflexivity|].
  split; [vm_compute; repeat split; reflexivity|].
  split; [vm_compute; repeat split; reflexivity|].
  intros P ci p l w c l' w'. apply undeploy_one_goes_on.
Qed.


End OnTheDeployment.

Section Witnesses.
Import Registry Deployment Runs.

(** C10 on a name of a space and a tab. *)
Lemma delete_queue_blank_name_witness :
  all_space (" " ++ TAB) = true
  /\ @delete_queue console (" " ++ TAB) queue_locals0 blank_world
     = (Ok [], queue_locals0, blank_world).
Proof.
  split; [reflexivity|].
  apply (@delete_queue_blank_name console (" " ++ TAB) blank_world). reflexivity.
Defined.

(** C7 on the queue [BillingQueue], whose error destination is
    [BillingDMQ]: the answers are "Y" and "N". *)
Lemma dead_letter_resolved_first_and_reported_witness :
  @delete_queue console "BillingQueue" queue_locals0 dmq_world
  = (Ok [["DMQ"; "BillingDMQ"; "Skipped"];
         ["UniformDistributedQueue"; "BillingQueue"; "Deleted"]],
     locals_of reap_queue_keep_dmq, world_of reap_queue_keep_dmq)
  /\ @is_standalone console = false
  /\ w_inputs dmq_world = ["Y"; "N"]
  /\ w_inputs (world_of reap_queue_keep_dmq) = []
  /\ confirmed "Y" = true /\ confirmed "N" = false
  /\ dlq_resolved_first (w_events (world_of reap_queue_keep_dmq)) = true
  /\ exists kind destroy b d c older,
       ((kind = "UniformDistributedQueue" /\ destroy = DestroyUniformDistributedQueue)
        \/ (kind = "Queue" /\ destroy = DestroyQueue))
       /\ [["DMQ"; "BillingDMQ"; "Skipped"];
           ["UniformDistributedQueue"; "BillingQueue"; "Deleted"]]
          = [["DMQ"; bean_name d; "Skipped"]; [kind; strip "BillingQueue"; "Deleted"]]
       /\ w_events (world_of reap_queue_keep_dmq)
          = EvCall Activate (Ok tt) :: EvCall Save (Ok tt)
            :: EvInput ASK_DMQ (Some "N")
            :: EvCall (destroy c b) (Ok tt)
            :: EvCall (GetErrorDestination b) (Ok (Some d))
            :: EvInput ASK_QUEUE (Some "Y") :: older.
Proof.
  assert (E : @delete_queue console "BillingQueue" queue_locals0 dmq_world
              = (Ok [["DMQ"; "BillingDMQ"; "Skipped"];
                     ["UniformDistributedQueue"; "BillingQueue"; "Deleted"]],
                 locals_of reap_queue_keep_dmq, world_of reap_queue_keep_dmq))
    by (vm_compute; reflexivity).
  destruct (@dead_letter_resolved_first_and_reported console "BillingQueue" dmq_world
              _ (locals_of reap_queue_keep_dmq) (world_of reap_queue_keep_dmq) E)
    as [A B].
  split; [exact E|]. split; [reflexivity|]. split; [reflexivity|].
  split; [vm_compute; reflexivity|]. split; [reflexivity|]. split; [reflexivity|].
  split; [apply A; reflexivity|].
  apply (B "Y" "N" []); try reflexivity.
  intros [X|[X|[]]]; discriminate X.
Defined.

(** C5 on the rows of [Billing]: three endpoints name the same queue, two
    the same work manager. *)
Lemma cascade_reaps_each_name_once_witness :
  @cascade_queues (unattended ["Billing"]) billing_rows undeploy_locals0 cascade_world
  = (Ok tt, locals_of cascade_queues_run, world_of cascade_queues_run)
  /\ @cascade_work_managers (unattended ["Billing"]) billing_rows
       (locals_of cascade_queues_run) (world_of cascade_queues_run)
     = (Ok tt, locals_of cascade_work_managers_run, world_of cascade_work_managers_run)
  /\ jms_queues billing_rows = ["BillingQueue"; "BillingQueue"; "BillingQueue"]
  /\ invocations "delete_queue" (w_events (world_of cascade_queues_run))
     = ["BillingQueue"]
  /\ invocations "delete_work_manager" (w_events (world_of cascade_work_managers_run))
     = ["BillingWM"].
Proof.
  assert (E1 : @cascade_queues (unattended ["Billing"]) billing_rows undeploy_locals0
                 cascade_world
               = (Ok tt, locals_of cascade_queues_run, world_of cascade_queues_run))
    by (vm_compute; reflexivity).
  assert (E2 : @cascade_work_managers (unattended ["Billing"]) billing_rows
                 (locals_of cascade_queues_run) (world_of cascade_queues_run)
               = (Ok tt, locals_of cascade_work_managers_run,
                  world_of cascade_work_managers_run))
    by (vm_compute; reflexivity).
  split; [exact E1|]. split; [exact E2|]. split; [reflexivity|].
  destruct (@cascade_reaps_each_name_once (unattended ["Billing"]) billing_rows
              undeploy_locals0 cascade_world
              (locals_of cascade_queues_run) (world_of cascade_queues_run)
              (locals_of cascade_work_managers_run) (world_of cascade_work_managers_run)
              E1 E2) as (_ & _ & _ & _ & _ & _ & _ & Hq & Hw).
  split; [rewrite Hq | rewrite Hw]; vm_compute; reflexivity.
Defined.


(** C2 on two paths, unattended: one of them unknown, and both unknown. *)
Lemma toggle_commit_policy_witness :
  (@toggle_body (platform toggle_args) Enablement conn
     ["Billing/Proxy/Missing"; "Billing/Proxy/Gone"] 0%Z toggle_locals0 toggle_world
   = (Ok tt, locals_of toggle_unknown_paths, world_of toggle_unknown_paths)
   /\ mod_prx_cnt (locals_of toggle_unknown_paths) = 0
   /\ commits (w_events (world_of toggle_unknown_paths)) = []
   /\ session_state (w_events (world_of toggle_unknown_paths)) "weblogic_1000"
      = Some SessionDiscarded
   /\ exists session sm (ex : bool) older,
        t_session_name (locals_of toggle_unknown_paths) = Some session
        /\ w_events (world_of toggle_unknown_paths)
           = ((if ex then [EvCall (DiscardSession sm session) (Ok tt)] else [])
              ++ EvCall (SessionExists sm session) (Ok ex)
              :: EvEnter "discard_session" session :: older)%list
        /\ (ex = true ->
            session_state (w_events (world_of toggle_unknown_paths)) session
            = Some SessionDiscarded))
  /\ @toggle_body (platform toggle_args) Enablement conn
    ["Billing/Proxy/In"; "Billing/Proxy/Missing"] 0%Z toggle_locals0 toggle_world
  = (Ok tt, locals_of toggle_two_paths, world_of toggle_two_paths)
  /\ commits (w_events (world_of toggle_two_paths))
     = [Changed billing_in; Activated "weblogic_1000" "1 proxy services disabled"]
  /\ exists session items closing,
       t_session_name (locals_of toggle_two_paths) = Some session
       /\ length items = mod_prx_cnt (locals_of toggle_two_paths)
       /\ commits (w_events (world_of toggle_two_paths))
          = (commits (w_events toggle_world)
             ++ flat_map (change_commits (@is_standalone (platform toggle_args))
                            (Nat.eqb 2 1) session) items
             ++ closing)%list
       /\ (if Nat.ltb 1 2 && Nat.ltb 0 (mod_prx_cnt (locals_of toggle_two_paths))
           then exists comment,
                  closing = closing_commits (@is_standalone (platform toggle_args))
                              session comment
                  /\ (@is_standalone (platform toggle_args) = true
                      -> comment = batch_comment Enablement
                                     (mod_prx_cnt (locals_of toggle_two_paths)) 0)
           else closing = [])
       /\ invocations "discard_session" (w_events (world_of toggle_two_paths))
          = (invocations "discard_session" (w_events toggle_world)
             ++ (if Nat.eqb (mod_prx_cnt (locals_of toggle_two_paths)) 0
                 then [session] else []))%list.
Proof.
  assert (E0 : @toggle_body (platform toggle_args) Enablement conn
                 ["Billing/Proxy/Missing"; "Billing/Proxy/Gone"] 0%Z toggle_locals0
                 toggle_world
               = (Ok tt, locals_of toggle_unknown_paths, world_of toggle_unknown_paths))
    by (vm_compute; reflexivity).
  assert (Z0 : mod_prx_cnt (locals_of toggle_unknown_paths) = 0)
    by (vm_compute; reflexivity).
  assert (E : @toggle_body (platform toggle_args) Enablement conn
                ["Billing/Proxy/In"; "Billing/Proxy/Missing"] 0%Z toggle_locals0
                toggle_world
              = (Ok tt, locals_of toggle_two_paths, world_of toggle_two_paths))
    by (vm_compute; reflexivity).
  split.
  { split; [exact E0|]. split; [exact Z0|]. split; [vm_compute; reflexivity|].
    split; [vm_compute; reflexivity|].
    destruct (@toggle_commit_policy (platform toggle_args) Enablement conn
                ["Billing/Proxy/Missing"; "Billing/Proxy/Gone"] 0%Z toggle_world
                (locals_of toggle_unknown_paths) (world_of toggle_unknown_paths) E0)
      as (session & items & closing & H1 & _ & _ & _ & _ & _ & H7).
    destruct (H7 Z0) as (sm & ex & older & Hev & Hst).
    exists session, sm, ex, older. split; [exact H1|]. split; [exact Hev | exact Hst]. }
  split; [exact E|]. split; [vm_compute; reflexivity|].
  destruct (@toggle_commit_policy (platform toggle_args) Enablement conn
              ["Billing/Proxy/In"; "Billing/Proxy/Missing"] 0%Z toggle_world
              (locals_of toggle_two_paths) (world_of toggle_two_paths) E)
    as (session & items & closing & H1 & H2 & H3 & _ & H5 & H6 & _).
  exists session, items, closing.
  split; [exact H1|]. split; [exact H2|]. split; [exact H3|]. split; [exact H5|].
  exact H6.
Defined.

End Witnesses.

(* ------------------------------------------------------------------ *)
(** ** The order of strings and of rows *)

Lemma ascii_compare_refl c : Ascii.compare c c = Eq.
Proof. unfold Ascii.compare. apply N.compare_refl. Qed.

Lemma ascii_compare_eq a b : Ascii.compare a b = Eq -> a = b.
Proof.
  unfold Ascii.compare. intros E. apply N.compare_eq in E.
  rewrite <- (ascii_N_embedding a), <- (ascii_N_embedding b), E. reflexivity.
Qed.

Lemma ascii_compare_lt_trans a b c :
  Ascii.compare a b = Lt -> Ascii.compare b c = Lt -> Ascii.compare a c = Lt.
Proof.
  unfold Ascii.compare. rewrite !N.compare_lt_iff. apply N.lt_trans.
Qed.

Lemma string_compare_refl s : String.compare s s = Eq.
Proof.
  induction s as [|c s IH]; simpl; [reflexivity|].
  rewrite ascii_compare_refl. exact IH.
Qed.

Lemma string_compare_lt_trans a :
  forall b c, String.compare a b = Lt -> String.compare b c = Lt -> String.compare a c = Lt.
Proof.
  induction a as [|x a IH]; intros [|y b] [|z c]; simpl; try discriminate; auto.
  destruct (Ascii.compare x y) eqn:Exy; try discriminate;
    destruct (Ascii.compare y z) eqn:Eyz; try discriminate; intros H1 H2.
  - apply ascii_compare_eq in Exy, Eyz. subst. rewrite ascii_compare_refl. eauto.
  - apply ascii_compare_eq in Exy. subst. rewrite Eyz. reflexivity.
  - apply ascii_compare_eq in Eyz. subst. rewrite Exy. reflexivity.
  - rewrite (ascii_compare_lt_trans _ _ _ Exy Eyz). reflexivity.
Qed.

Lemma string_compare_gt_lt a b : String.compare a b = Gt -> String.compare b a = Lt.
Proof. intros E. rewrite String.compare_antisym, E. reflexivity. Qed.


Lemma string_leb_sorts : sorts String.leb.
Proof.
  split.
  - apply String.leb_total.
  - intros a b c. unfold String.leb.
    destruct (String.compare a b) eqn:Eab; try discriminate;
      destruct (String.compare b c) eqn:Ebc; try discriminate; intros _ _.
    + apply String.compare_eq_iff in Eab, Ebc. subst.
      rewrite string_compare_refl. reflexivity.
    + apply String.compare_eq_iff in Eab. subst. rewrite Ebc. reflexivity.
    + apply String.compare_eq_iff in Ebc. subst. rewrite Eab. reflexivity.
    + rewrite (string_compare_lt_trans _ _ _ Eab Ebc). reflexivity.
  - intros a b. apply String.leb_antisym.
Qed.

Lemma row_leb_sorts : sorts row_leb.
Proof.
  split.
  - induction a as [|x a IH]; intros [|y b]; simpl; auto.
    rewrite (String.compare_antisym x y).
    destruct (String.compare y x); simpl; auto.
  - induction a as [|x a IH]; intros [|y b] [|z c]; simpl; auto; try discriminate.
    destruct (String.compare x y) eqn:Exy; try discriminate;
      destruct (String.compare y z) eqn:Eyz; try discriminate; intros H1 H2.
    + apply String.compare_eq_iff in Exy, Eyz. subst.
      rewrite string_compare_refl. eauto.
    + apply String.compare_eq_iff in Exy. subst. rewrite Eyz. reflexivity.
    + apply String.compare_eq_iff in Eyz. subst. rewrite Exy. reflexivity.
    + rewrite (string_compare_lt_trans _ _ _ Exy Eyz). reflexivity.
  - induction a as [|x a IH]; intros [|y b]; simpl; auto; try discriminate.
    rewrite (String.compare_antisym x y).
    destruct (String.compare y x) eqn:Exy; simpl; try discriminate.
    intros H1 H2. apply String.compare_eq_iff in Exy. subst.
    f_equal. auto.
Qed.

(* ------------------------------------------------------------------ *)
(** ** Sorting *)

Section Sorting.
Context {A : Type}.
Variable leb : A -> A -> bool.
Hypothesis leb_sorts : sorts leb.


Lemma insert_sorted_perm x l : Permutation (x :: l) (insert_sorted leb x l).
Proof.
  induction l as [|y l IH]; simpl; [reflexivity|].
  destruct (leb x y); [reflexivity|].
  rewrite perm_swap. apply perm_skip. exact IH.
Qed.

Lemma sort_perm l : Permutation l (sort leb l).
Proof.
  induction l as [|x l IH]; simpl; [reflexivity|].
  rewrite <- insert_sorted_perm. apply perm_skip. exact IH.
Qed.

Lemma insert_sorted_sorted x l :
  StronglySorted (ordered leb) l -> StronglySorted (ordered leb) (insert_sorted leb x l).
Proof.
  induction l as [|y l IH]; simpl; intros Hs.
  - constructor; constructor.
  - destruct (leb x y) eqn:Exy.
    + constructor; [exact Hs|]. constructor; [exact Exy|].
      inversion Hs as [|? ? _ Hall]; subst.
      eapply Forall_impl; [|exact Hall].
      intros z Hz. eapply (sorts_trans _ leb_sorts); eassumption.
    + inversion Hs as [|? ? Hl Hall]; subst. constructor; [auto|].
      assert (Hyx : ordered leb y x).
      { destruct (sorts_total _ leb_sorts x y) as [E|E]; [congruence | exact E]. }
      eapply Permutation_Forall; [apply insert_sorted_perm|].
      constructor; assumption.
Qed.

Lemma sort_sorted l : StronglySorted (ordered leb) (sort leb l).
Proof.
  induction l as [|x l IH]; simpl; [constructor | apply insert_sorted_sorted, IH].
Qed.

(** There is one sorted arrangement of a list. *)
Lemma sorted_unique l1 :
  forall l2, StronglySorted (ordered leb) l1 -> StronglySorted (ordered leb) l2 -> Permutation l1 l2 -> l1 = l2.
Proof.
  induction l1 as [|a l1 IH]; intros l2 H1 H2 Hp.
  - apply Permutation_nil in Hp. subst. reflexivity.
  - destruct l2 as [|b l2]; [apply Permutation_sym, Permutation_nil in Hp; discriminate|].
    inversion H1 as [|? ? Hs1 Ha]; subst. inversion H2 as [|? ? Hs2 Hb]; subst.
    assert (E : a = b).
    { assert (Hab : ordered leb a b).
      { assert (Hin : In b (a :: l1))
          by (eapply Permutation_in; [apply Permutation_sym, Hp | left; reflexivity]).
        destruct Hin as [->|Hin].
        - destruct (sorts_total _ leb_sorts b b); assumption.
        - rewrite Forall_forall in Ha. auto. }
      assert (Hba : ordered leb b a).
      { assert (Hin : In a (b :: l2))
          by (eapply Permutation_in; [apply Hp | left; reflexivity]).
        destruct Hin as [->|Hin].
        - destruct (sorts_total _ leb_sorts a a); assumption.
        - rewrite Forall_forall in Hb. auto. }
      apply (sorts_antisym _ leb_sorts); assumption. }
    subst b. f_equal. apply IH; try assumption.
    eapply Permutation_cons_inv. exact Hp.
Qed.

Lemma sort_permuted l l' : Permutation l l' -> sort leb l = sort leb l'.
Proof.
  intros Hp. apply sorted_unique; try apply sort_sorted.
  rewrite <- !sort_perm. exact Hp.
Qed.

Lemma sort_length l : length (sort leb l) = length l.
Proof. symmetry. apply Permutation_length, sort_perm. Qed.

End Sorting.

(* ------------------------------------------------------------------ *)
(** ** Lengths of adjusted cells *)

Lemma append_cons c (a b : string) : String c a ++ b = String c (a ++ b).
Proof. reflexivity. Qed.

Lemma append_assoc (a b c : string) : (a ++ b) ++ c = a ++ b ++ c.
Proof.
  induction a as [|x a IH]; [reflexivity|].
  rewrite !append_cons, IH. reflexivity.
Qed.

Lemma length_append (a b : string) :
  String.length (a ++ b) = String.length a + String.length b.
Proof.
  induction a as [|c a IH]; [reflexivity|].
  rewrite append_cons. simpl. rewrite IH. reflexivity.
Qed.

Lemma length_replicate n c : String.length (replicate n c) = n.
Proof. induction n as [|n IH]; simpl; [reflexivity | rewrite IH; reflexivity]. Qed.

Lemma ljust_length s w : String.length s <= w -> String.length (ljust s w) = w.
Proof. intros Hs. unfold ljust. rewrite length_append, length_replicate. lia. Qed.

Lemma rjust_length s w : String.length s <= w -> String.length (rjust s w) = w.
Proof. intros Hs. unfold rjust. rewrite length_append, length_replicate. lia. Qed.

Lemma append_empty_r (s : string) : s ++ "" = s.
Proof.
  induction s as [|c s IH]; [reflexivity|].
  rewrite append_cons, IH. reflexivity.
Qed.

Lemma ljust_full s w : w <= String.length s -> ljust s w = s.
Proof.
  intros Hs. unfold ljust. replace (w - String.length s) with 0 by lia.
  apply append_empty_r.
Qed.

Lemma rjust_full s w : w <= String.length s -> rjust s w = s.
Proof.
  intros Hs. unfold rjust. replace (w - String.length s) with 0 by lia. reflexivity.
Qed.


Lemma join_length cells :
  forall ws, Forall2 (fun cell w => String.length cell = w) cells ws ->
             String.length (join " " cells) = line_width ws.
Proof.
  induction cells as [|c cells IH]; intros ws Hf; inversion Hf as [|? w ? ws' Hc Hr]; subst.
  - reflexivity.
  - destruct cells as [|c' cells].
    + inversion Hr; subst. reflexivity.
    + inversion Hr as [|? w' ? ws'' Hc' Hr']; subst.
      change (join " " (c :: c' :: cells)) with (c ++ " " ++ join " " (c' :: cells)).
      rewrite !length_append, (IH _ Hr). simpl. lia.
Qed.


Lemma max_len_head x col : String.length x <= max_len (x :: col).
Proof. simpl. lia. Qed.

Lemma max_len_in x col : In x col -> String.length x <= max_len col.
Proof.
  induction col as [|y col IH]; simpl; [tauto|].
  intros [->|Hin]; [lia | specialize (IH Hin); lia].
Qed.

Lemma zip_star_fits first :
  forall others,
    let ws := map max_len (zip_star first others) in
    fits first ws /\ forall r, In r others -> fits r ws.
Proof.
  induction first as [|x first IH]; intros others; simpl.
  - split; [constructor | intros; constructor].
  - destruct (forallb nonempty others) eqn:Hne; simpl.
    + destruct (IH (map (@tl string) others)) as [IH1 IH2].
      split.
      * constructor; [lia | exact IH1].
      * intros r Hin. rewrite forallb_forall in Hne.
        pose proof (Hne r Hin) as Hr. destruct r as [|c r]; [discriminate|].
        unfold fits. simpl. constructor.
        -- assert (Hc : In c (map (hd "") others)) by (apply (in_map (hd "") _ _ Hin)).
           pose proof (max_len_in c _ Hc). lia.
        -- apply IH2. apply (in_map (@tl string) _ _ Hin).
    + split; [constructor | intros; constructor].
Qed.

Lemma zip_star_length first others : length (zip_star first others) <= length first.
Proof.
  revert others. induction first as [|x first IH]; intros others; simpl; [lia|].
  destruct (forallb nonempty others); simpl; [|lia].
  specialize (IH (map (@tl string) others)). lia.
Qed.

Lemma combine_firstn {A B} (row : list A) (ws : list B) :
  combine row ws = combine (firstn (length ws) row) ws.
Proof.
  revert ws. induction row as [|c row IH]; intros [|w ws]; simpl; try reflexivity.
  rewrite <- IH. reflexivity.
Qed.

(** A row whose cells fit is adjusted without an error, each cell to the
    width of its column. *)
Lemma adjust_from_fits col_names :
  forall cells ws x,
    Forall2 (fun cell w => String.length cell <= w) cells ws ->
    x + length ws <= length col_names ->
    exists row_adj,
      adjust_from col_names x (combine cells ws) = Ok row_adj
      /\ Forall2 (fun cell w => String.length cell = w) row_adj ws.
Proof.
  induction cells as [|c cells IH]; intros ws x Hf Hx;
    inversion Hf as [|? w ? ws' Hc Hr]; subst; simpl.
  - exists []. split; [reflexivity | constructor].
  - simpl in Hx.
    destruct (nth_error col_names x) as [name|] eqn:En.
    + destruct (IH ws' (S x) Hr) as (rest & E & Hrest); [lia|].
      rewrite E. eexists. split; [reflexivity|].
      constructor; [|exact Hrest].
      destruct (contains "#" name); [apply rjust_length | apply ljust_length]; exact Hc.
    + apply nth_error_None in En. lia.
Qed.

Lemma adjust_rows_fits col_names ws :
  length ws <= length col_names ->
  forall rows,
    Forall (fun r => fits r ws) rows ->
    exists lines,
      adjust_rows col_names ws rows = Ok lines
      /\ length lines = length rows
      /\ Forall (fun line => String.length line = line_width ws) lines.
Proof.
  intros Hw. induction rows as [|r rows IH]; intros Hf; simpl.
  - exists []. repeat split; constructor.
  - inversion Hf as [|? ? Hr Hrest]; subst.
    rewrite (combine_firstn r ws).
    destruct (adjust_from_fits col_names _ ws 0 Hr) as (row_adj & E & Hadj); [lia|].
    rewrite E. destruct (IH Hrest) as (lines & El & Hlen & Hall). rewrite El.
    eexists. split; [reflexivity|]. split; [simpl; congruence|].
    constructor; [apply join_length; exact Hadj | exact Hall].
Qed.

Lemma underline_fits ws : fits (map (fun width => replicate width "=") ws) ws.
Proof.
  unfold fits. rewrite <- (length_map (fun width => replicate width "=") ws), firstn_all.
  induction ws as [|w ws IH]; simpl; constructor; [rewrite length_replicate; lia | exact IH].
Qed.

Section CreateReportProofs.
Context {Item : Type}.
Variable str : Item -> string.

Lemma rows_as_strings_length report is_sorted :
  length (rows_as_strings str report is_sorted) = length report.
Proof.
  unfold rows_as_strings. destruct is_sorted.
  - rewrite (sort_length row_leb), length_map. reflexivity.
  - apply length_map.
Qed.

Lemma create_report_lines report_title report col_names is_sorted :
  exists lines,
    create_report str report_title report col_names is_sorted = Ok (report_title :: lines)
    /\ length lines = length report + 4
    /\ Forall (fun line => String.length line
                           = line_width (col_widths str report col_names is_sorted)) lines.
Proof.
  unfold create_report, col_widths.
  set (rows := rows_as_strings str report is_sorted).
  set (ws := map max_len (zip_star (header col_names) rows)).
  destruct (zip_star_fits (header col_names) rows) as [Hh Hr]. fold ws in Hh, Hr.
  assert (Hw : length ws <= length col_names).
  { unfold ws. rewrite length_map.
    pose proof (zip_star_length (header col_names) rows) as Hl.
    unfold header in Hl. rewrite length_map in Hl. exact Hl. }
  destruct (adjust_rows_fits col_names ws Hw
              (map (fun width => replicate width "=") ws :: header col_names
               :: map (fun width => replicate width "=") ws
               :: rows ++ [map (fun width => replicate width "=") ws]))
    as (lines & E & Hlen & Hall).
  { repeat constructor; try apply underline_fits; try exact Hh.
    apply Forall_app. split; [apply Forall_forall; exact Hr|].
    constructor; [apply underline_fits | constructor]. }
  rewrite E. exists lines. split; [reflexivity|]. split; [|exact Hall].
  rewrite Hlen. simpl. rewrite length_app. unfold rows.
  rewrite rows_as_strings_length. simpl. lia.
Qed.

End CreateReportProofs.

(* ------------------------------------------------------------------ *)
(** ** The table of create_report *)

Lemma adjust_from_underline col_names :
  forall ws x,
    x + length ws <= length col_names ->
    adjust_from col_names x (combine (map (fun width => replicate width "=") ws) ws)
    = Ok (map (fun width => replicate width "=") ws).
Proof.
  induction ws as [|w ws IH]; intros x Hx; simpl; [reflexivity|].
  simpl in Hx. destruct (nth_error col_names x) as [name|] eqn:En.
  - rewrite IH by lia.
    rewrite rjust_full, ljust_full by (rewrite length_replicate; lia).
    destruct (contains "#" name); reflexivity.
  - apply nth_error_None in En. lia.
Qed.

Lemma adjust_rows_app col_names ws a :
  forall b la lb,
    adjust_rows col_names ws a = Ok la ->
    adjust_rows col_names ws b = Ok lb ->
    adjust_rows col_names ws (a ++ b) = Ok (la ++ lb)%list.
Proof.
  induction a as [|r a IH]; intros b la lb Ea Eb; simpl in *.
  - inversion Ea; subst. exact Eb.
  - destruct (adjust_from col_names 0 (combine r ws)) as [row_adj|e]; [|discriminate].
    destruct (adjust_rows col_names ws a) as [la'|e] eqn:Ea'; [|discriminate].
    inversion Ea; subst. rewrite (IH b la' lb eq_refl Eb). reflexivity.
Qed.

Lemma zip_star_columns first :
  forall others,
    length (zip_star first others)
    = fold_right Nat.min (length first) (map (@length string) others).
Proof.
  induction first as [|x first IH]; intros others; simpl.
  - induction others as [|r others IHo]; simpl; [reflexivity|].
    rewrite <- IHo. lia.
  - destruct (forallb nonempty others) eqn:Hne; simpl.
    + rewrite IH. clear IH. induction others as [|r others IHo]; simpl; [reflexivity|].
      simpl in Hne. apply andb_prop in Hne. destruct Hne as [Hr Hne].
      destruct r as [|c r]; [discriminate|]. simpl.
      rewrite <- (IHo Hne). lia.
    + clear IH. induction others as [|r others IHo]; simpl; [discriminate|].
      simpl in Hne. destruct r as [|c r]; simpl; [lia|].
      simpl in Hne. rewrite <- (IHo Hne). lia.
Qed.

Lemma fold_min_permuted n (l l' : list nat) :
  Permutation l l' -> fold_right Nat.min n l = fold_right Nat.min n l'.
Proof. induction 1; simpl; lia. Qed.

Section CreateReportTheorems.
Context {Item : Type}.
Variable str : Item -> string.

(** X1.  [create_report] raises no error, whatever the lengths of the rows: it
    writes the title, a rule, the header, the rule again, one line for
    every row of the report, and the rule once more. *)
Theorem create_report_frame report_title report col_names is_sorted :
  exists head body,
    create_report str report_title report col_names is_sorted
    = Ok (report_title
          :: rule (col_widths str report col_names is_sorted)
          :: head
          :: rule (col_widths str report col_names is_sorted)
          :: body ++ [rule (col_widths str report col_names is_sorted)])
    /\ length body = length report.
Proof.
  unfold create_report, col_widths, rule.
  set (rows := rows_as_strings str report is_sorted).
  set (ws := map max_len (zip_star (header col_names) rows)).
  set (underline := map (fun width => replicate width "=") ws).
  destruct (zip_star_fits (header col_names) rows) as [Hh Hr]. fold ws in Hh, Hr.
  assert (Hw : length ws <= length col_names).
  { unfold ws. rewrite length_map.
    pose proof (zip_star_length (header col_names) rows) as Hl.
    unfold header in Hl. rewrite length_map in Hl. exact Hl. }
  assert (Eu : adjust_from col_names 0 (combine underline ws) = Ok underline)
    by (apply adjust_from_underline; lia).
  destruct (adjust_rows_fits col_names ws Hw [header col_names]) as (lh & Eh & Hlh & _).
  { repeat constructor. exact Hh. }
  destruct (adjust_rows_fits col_names ws Hw rows) as (body & Eb & Hlb & _).
  { apply Forall_forall. exact Hr. }
  destruct lh as [|head [|]]; try discriminate Hlh.
  exists head, body. split.
  - assert (E1 : adjust_rows col_names ws [underline] = Ok [join " " underline])
      by (simpl; rewrite Eu; reflexivity).
    change (underline :: header col_names :: underline :: rows ++ [underline])
      with ([underline] ++ [header col_names] ++ [underline] ++ rows ++ [underline])%list.
    rewrite (adjust_rows_app col_names ws [underline] _ _
               ([head] ++ [join " " underline] ++ body ++ [join " " underline])%list E1);
      [reflexivity|].
    apply adjust_rows_app; [exact Eh|].
    apply adjust_rows_app; [exact E1|].
    apply adjust_rows_app; [exact Eb | exact E1].
  - rewrite Hlb. apply rows_as_strings_length.
Qed.

(** X2.  The lines of the table all have the same length: the columns are
    aligned. *)
Theorem create_report_aligned report_title report col_names is_sorted :
  exists lines,
    create_report str report_title report col_names is_sorted = Ok (report_title :: lines)
    /\ Forall (fun line => String.length line
                           = line_width (col_widths str report col_names is_sorted)) lines.
Proof.
  destruct (create_report_lines str report_title report col_names is_sorted)
    as (lines & E & _ & Hall).
  exists lines. split; assumption.
Qed.

(** X3.  A sorted report does not depend on the order in which the rows were
    collected. *)
Theorem create_report_sorted_any_order report_title report report' col_names :
  Permutation report report' ->
  create_report str report_title report col_names true
  = create_report str report_title report' col_names true.
Proof.
  intros Hp. unfold create_report, rows_as_strings.
  rewrite (sort_permuted row_leb row_leb_sorts (map (map str) report)
             (map (map str) report')) by (apply Permutation_map; exact Hp).
  reflexivity.
Qed.

Lemma col_widths_length report col_names is_sorted :
  length (col_widths str report col_names is_sorted)
  = fold_right Nat.min (length col_names) (map (@length Item) report).
Proof.
  unfold col_widths. rewrite length_map, zip_star_columns.
  unfold header. rewrite length_map.
  assert (E : map (@length string) (map (map str) report) = map (@length Item) report).
  { rewrite map_map. apply map_ext. intro r. apply length_map. }
  unfold rows_as_strings. destruct is_sorted; [|rewrite E; reflexivity].
  rewrite <- E. apply fold_min_permuted, Permutation_map, Permutation_sym, sort_perm.
Qed.

(** X4.  The table has as many columns as the shortest of the header and the
    rows has cells: the cells beyond are left out of every line. *)
Theorem create_report_columns report col_names is_sorted :
  length (col_widths str report col_names is_sorted)
  = fold_right Nat.min (length col_names) (map (@length Item) report).
Proof. apply col_widths_length. Qed.

End CreateReportTheorems.

(* ------------------------------------------------------------------ *)
(** ** Splitting at a character *)

Lemma contains_char_cons c x s :
  contains (String c "") (String x s) = Ascii.eqb c x || contains (String c "") s.
Proof.
  change (contains (String c "") (String x s))
    with (if (if ascii_dec c x then prefix "" s else false) then true
          else contains (String c "") s).
  destruct (ascii_dec c x) as [E|E].
  - subst. rewrite Ascii.eqb_refl. destruct s; reflexivity.
  - apply Ascii.eqb_neq in E. rewrite E. reflexivity.
Qed.

Lemma contains_char_empty c : contains (String c "") "" = false.
Proof. reflexivity. Qed.

Lemma contains_char_app c a b :
  contains (String c "") (a ++ b) = contains (String c "") a || contains (String c "") b.
Proof.
  induction a as [|x a IH]; [reflexivity|].
  change (String x a ++ b) with (String x (a ++ b)).
  rewrite !contains_char_cons, IH. apply orb_assoc.
Qed.

Lemma split_without c s : contains (String c "") s = false -> split c s = [s].
Proof.
  induction s as [|x s IH]; intros Hs; [reflexivity|].
  rewrite contains_char_cons in Hs. apply orb_false_iff in Hs. destruct Hs as [Hx Hs].
  simpl. rewrite Ascii.eqb_sym, Hx, (IH Hs). reflexivity.
Qed.

Lemma split_first c a rest :
  contains (String c "") a = false ->
  split c (a ++ String c rest) = a :: split c rest.
Proof.
  induction a as [|x a IH]; intros Ha.
  - simpl. rewrite Ascii.eqb_refl. reflexivity.
  - rewrite contains_char_cons in Ha. apply orb_false_iff in Ha. destruct Ha as [Hx Ha].
    change (String x a ++ String c rest) with (String x (a ++ String c rest)).
    simpl. rewrite Ascii.eqb_sym, Hx, (IH Ha). reflexivity.
Qed.

Lemma split_not_nil c s : split c s <> [].
Proof.
  destruct s as [|x s]; simpl; [discriminate|].
  destruct (Ascii.eqb x c); [discriminate|]. destruct (split c s); discriminate.
Qed.

Lemma last_cons_nonempty {A} (x : A) l d : l <> [] -> last (x :: l) d = last l d.
Proof. destruct l; [congruence | reflexivity]. Qed.

Lemma split_app_struct c a b :
  exists w ws,
    split c (a ++ String c b) = w :: ws /\ ws <> []
    /\ last ws "" = last (split c b) "".
Proof.
  induction a as [|x a IH].
  - exists "", (split c b). simpl. rewrite Ascii.eqb_refl.
    split; [reflexivity|]. split; [apply split_not_nil | reflexivity].
  - destruct IH as (w & ws & E & Hne & Hl).
    change (String x a ++ String c b) with (String x (a ++ String c b)). simpl.
    rewrite E. destruct (Ascii.eqb x c).
    + exists "", (w :: ws). split; [reflexivity|]. split; [discriminate|].
      rewrite (last_cons_nonempty w ws "" Hne). exact Hl.
    + exists (String x w), ws. auto.
Qed.

Lemma last_item_split_app c a b :
  last_item (split c (a ++ String c b)) = last_item (split c b).
Proof.
  unfold last_item. destruct (split_app_struct c a b) as (w & ws & E & Hne & Hl).
  rewrite E, (last_cons_nonempty w ws "" Hne). exact Hl.
Qed.

(* ------------------------------------------------------------------ *)
(** ** The dictionary of property files *)

Lemma dict_get_set k v k' d :
  dict_get k' (dict_set k v d) = if k =? k' then Some v else dict_get k' d.
Proof.
  induction d as [|[k0 v0] d IH]; simpl.
  - destruct (k =? k'); reflexivity.
  - destruct (k0 =? k) eqn:E0; simpl.
    + apply String.eqb_eq in E0. subst k0. destruct (k =? k'); reflexivity.
    + rewrite IH. destruct (k0 =? k') eqn:E1; [|reflexivity].
      apply String.eqb_eq in E1. subst k0.
      rewrite String.eqb_sym, E0. reflexivity.
Qed.

Lemma get_env_prop_file_fold listdir :
  get_env_prop_file listdir = fold_left add_prop_file listdir [].
Proof. reflexivity. Qed.

Lemma fold_entries listdir :
  forall d env f_name,
    dict_get env (fold_left add_prop_file listdir d) = Some f_name ->
    dict_get env d = Some f_name
    \/ (In f_name listdir /\ endswith ".properties" f_name = true
        /\ prop_env_of f_name = env).
Proof.
  induction listdir as [|g listdir IH]; intros d env f_name Hg; simpl in *; [auto|].
  destruct (IH _ _ _ Hg) as [Hd|(Hin & He & Hp)]; [|auto].
  unfold add_prop_file in Hd. destruct (endswith ".properties" g) eqn:Eg; [|auto].
  rewrite dict_get_set in Hd. destruct (prop_env_of g =? env) eqn:Ek; [|auto].
  inversion Hd; subst. apply String.eqb_eq in Ek. auto.
Qed.

Lemma fold_keeps after :
  forall d env f_name,
    dict_get env d = Some f_name ->
    (forall g, In g after -> endswith ".properties" g = true -> prop_env_of g <> env) ->
    dict_get env (fold_left add_prop_file after d) = Some f_name.
Proof.
  induction after as [|g after IH]; intros d env f_name Hd Hafter; simpl; [exact Hd|].
  apply IH; [|intros; apply Hafter; [right|]; assumption].
  unfold add_prop_file. destruct (endswith ".properties" g) eqn:Eg; [|exact Hd].
  rewrite dict_get_set.
  destruct (prop_env_of g =? env) eqn:Ek; [|exact Hd].
  apply String.eqb_eq in Ek. exfalso. apply (Hafter g); [left; reflexivity | exact Eg | exact Ek].
Qed.

(** X5.  Every entry of the dictionary is a file of the directory whose name
    ends with ".properties", under the key made from that name. *)
Theorem get_env_prop_file_entries listdir env f_name :
  dict_get env (get_env_prop_file listdir) = Some f_name ->
  In f_name listdir /\ endswith ".properties" f_name = true /\ prop_env_of f_name = env.
Proof.
  intros Hg. rewrite get_env_prop_file_fold in Hg.
  destruct (fold_entries _ _ _ _ Hg) as [Hd|H]; [discriminate Hd | exact H].
Qed.

(** X6.  Of the property files of one environment the last one of the listing
    is kept. *)
Theorem get_env_prop_file_last_wins before f_name after :
  endswith ".properties" f_name = true ->
  (forall g, In g after -> endswith ".properties" g = true ->
             prop_env_of g <> prop_env_of f_name) ->
  dict_get (prop_env_of f_name) (get_env_prop_file (before ++ f_name :: after))
  = Some f_name.
Proof.
  intros Hf Hafter. rewrite get_env_prop_file_fold, fold_left_app. simpl.
  apply fold_keeps; [|exact Hafter].
  unfold add_prop_file. rewrite Hf, dict_get_set, String.eqb_refl. reflexivity.
Qed.

Lemma prop_env_of_before_dot a rest :
  contains "." a = false ->
  prop_env_of (a ++ "." ++ rest)
  = if contains "_" (a ++ "." ++ rest) then last_item (split "_" a) else a.
Proof.
  intros Ha. unfold prop_env_of.
  change (a ++ "." ++ rest) with (a ++ String "." rest).
  rewrite (split_first "." a rest Ha). reflexivity.
Qed.

(** X7.  The environment of a property file is read from the text before the
    first dot of its name: the text after the last "_" of it when the name
    holds a "_" anywhere, all of it otherwise. *)
Theorem prop_env_of_first_dot a rest :
  contains "." a = false ->
  prop_env_of (a ++ "." ++ rest)
  = if contains "_" (a ++ "." ++ rest) then last_item (split "_" a) else a.
Proof. apply prop_env_of_before_dot. Qed.

(** X8.  A file named [stem_ENV.properties] is the property file of the
    environment [ENV]. *)
Theorem prop_env_of_documented stem env :
  contains "." stem = false ->
  contains "." env = false ->
  contains "_" env = false ->
  prop_env_of (stem ++ "_" ++ env ++ ".properties") = env.
Proof.
  intros Hs He Hu.
  replace (stem ++ "_" ++ env ++ ".properties")
    with ((stem ++ "_" ++ env) ++ "." ++ "properties")
    by (rewrite !append_assoc; reflexivity).
  rewrite prop_env_of_before_dot.
  - assert (Hc : contains "_" ((stem ++ "_" ++ env) ++ "." ++ "properties") = true).
    { rewrite !(contains_char_app "_"). destruct (contains "_" stem); reflexivity. }
    rewrite Hc. change ("_" ++ env) with (String "_" env).
    rewrite last_item_split_app, (split_without "_" env Hu). reflexivity.
  - rewrite !(contains_char_app "."), Hs, He. reflexivity.
Qed.

(* ------------------------------------------------------------------ *)
(** ** The table of environments *)

Lemma group_env_fields g entry :
  let grp := hd "" (split "_" (snd entry)) in
  envs_PROD (group_env g entry)
  = (envs_PROD g ++ (if grp =? "PROD" then [fst entry] else []))%list
  /\ envs_QA (group_env g entry)
     = (envs_QA g ++ (if grp =? "QA" then [fst entry] else []))%list
  /\ envs_TEST (group_env g entry)
     = (envs_TEST g ++ (if grp =? "TEST" then [fst entry] else []))%list
  /\ envs_DEV (group_env g entry)
     = (envs_DEV g ++ (if grp =? "DEV" then [fst entry] else []))%list.
Proof.
  destruct entry as [env f_name]. unfold group_env. cbn [fst snd].
  destruct (hd "" (split "_" f_name) =? "PROD");
    destruct (hd "" (split "_" f_name) =? "QA");
    destruct (hd "" (split "_" f_name) =? "TEST");
    destruct (hd "" (split "_" f_name) =? "DEV");
    cbn [envs_PROD envs_QA envs_TEST envs_DEV]; rewrite ?app_nil_r; auto.
Qed.

Lemma envs_in_cons g entry d :
  envs_in g (entry :: d)
  = ((if hd "" (split "_" (snd entry)) =? g then [fst entry] else []) ++ envs_in g d)%list.
Proof.
  unfold envs_in. simpl. destruct (hd "" (split "_" (snd entry)) =? g); reflexivity.
Qed.

Lemma fold_group_env d :
  forall g,
    envs_PROD (fold_left group_env d g) = (envs_PROD g ++ envs_in "PROD" d)%list
    /\ envs_QA (fold_left group_env d g) = (envs_QA g ++ envs_in "QA" d)%list
    /\ envs_TEST (fold_left group_env d g) = (envs_TEST g ++ envs_in "TEST" d)%list
    /\ envs_DEV (fold_left group_env d g) = (envs_DEV g ++ envs_in "DEV" d)%list.
Proof.
  induction d as [|entry d IH]; intros g; simpl.
  - unfold envs_in. simpl. rewrite !app_nil_r. auto.
  - destruct (IH (group_env g entry)) as (H1 & H2 & H3 & H4).
    destruct (group_env_fields g entry) as (F1 & F2 & F3 & F4).
    rewrite H1, H2, H3, H4, F1, F2, F3, F4, !envs_in_cons, <- !app_assoc. auto.
Qed.

Lemma envs_in_permuted g d d' :
  Permutation d d' -> Permutation (envs_in g d) (envs_in g d').
Proof.
  intros Hp. unfold envs_in. apply Permutation_map.
  induction Hp; simpl.
  - constructor.
  - destruct (hd "" (split "_" (snd x)) =? g); [constructor|]; assumption.
  - destruct (hd "" (split "_" (snd x)) =? g); destruct (hd "" (split "_" (snd y)) =? g);
      try constructor; reflexivity.
  - etransitivity; eassumption.
Qed.

Lemma avail_envs_rows_eq d :
  avail_envs_rows d
  = let P := sort String.leb (envs_in "PROD" d) in
    let Q := sort String.leb (envs_in "QA" d) in
    let T := sort String.leb (envs_in "TEST" d) in
    let D := sort String.leb (envs_in "DEV" d) in
    map (fun i => [nth i P ""; nth i Q ""; nth i T ""; nth i D ""])
        (seq 0 (Nat.max (length P) (length Q))).
Proof.
  unfold avail_envs_rows.
  destruct (fold_group_env d (mkGroups [] [] [] [])) as (H1 & H2 & H3 & H4).
  simpl in H1, H2, H3, H4. rewrite H1, H2, H3, H4. cbv zeta.
  replace (Nat.max (length (sort String.leb (envs_in "PROD" d)))
             (Nat.max (length (sort String.leb (envs_in "QA" d)))
                (Nat.max (length (sort String.leb (envs_in "PROD" d)))
                   (Nat.max (length (sort String.leb (envs_in "QA" d)))
                      (Nat.max (length (sort String.leb (envs_in "PROD" d)))
                         (length (sort String.leb (envs_in "QA" d))))))))
    with (Nat.max (length (sort String.leb (envs_in "PROD" d)))
            (length (sort String.leb (envs_in "QA" d)))) by lia.
  apply map_ext. intro i.
  assert (Hn : forall l : list string,
             (if Nat.ltb i (length l) then nth i l "" else "") = nth i l "").
  { intro l. destruct (Nat.ltb i (length l)) eqn:E; [reflexivity|].
    apply Nat.ltb_ge in E. symmetry. apply nth_overflow. exact E. }
  rewrite !Hn. reflexivity.
Qed.

(** X9.  The table of environments has as many rows as the larger of the
    groups PROD and QA has environments, each of four cells: the groups
    TEST and DEV are not counted, and what they hold beyond that number of
    rows is not listed. *)
Theorem avail_envs_rows_shape prop_env_file :
  length (avail_envs_rows prop_env_file)
  = Nat.max (length (envs_in "PROD" prop_env_file)) (length (envs_in "QA" prop_env_file))
  /\ Forall (fun row => length row = 4) (avail_envs_rows prop_env_file).
Proof.
  rewrite avail_envs_rows_eq. cbv zeta. split.
  - rewrite length_map, length_seq, !(sort_length String.leb). reflexivity.
  - apply Forall_forall. intros row Hin. apply in_map_iff in Hin.
    destruct Hin as (i & <- & _). reflexivity.
Qed.

(** X10.  The table does not depend on the order in which the keys of the
    dictionary are gone through. *)
Theorem avail_envs_rows_any_order prop_env_file prop_env_file' :
  Permutation prop_env_file prop_env_file' ->
  avail_envs_rows prop_env_file = avail_envs_rows prop_env_file'.
Proof.
  intros Hp. rewrite !avail_envs_rows_eq. cbv zeta.
  rewrite (sort_permuted String.leb string_leb_sorts _ _ (envs_in_permuted "PROD" _ _ Hp)).
  rewrite (sort_permuted String.leb string_leb_sorts _ _ (envs_in_permuted "QA" _ _ Hp)).
  rewrite (sort_permuted String.leb string_leb_sorts _ _ (envs_in_permuted "TEST" _ _ Hp)).
  rewrite (sort_permuted String.leb string_leb_sorts _ _ (envs_in_permuted "DEV" _ _ Hp)).
  reflexivity.
Qed.

(* ------------------------------------------------------------------ *)
(** ** Runs that change nothing, runs that read no input *)

Section Observing.
Context `{Platform}.

Lemma preserves_weaken {L A} (R R' : World -> World -> Prop) (m : M L A) :
  (forall w w', R w w' -> R' w w') -> preserves R m -> preserves R' m.
Proof. intros Hw Hm l w r l' w' E. apply Hw. eapply Hm. exact E. Qed.

Lemma preserves_invoke {L L' A} (R : World -> World -> Prop) fn arg (f : M L' A) init :
  (forall a b c, R a b -> R b c -> R a c) ->
  (forall w ev, is_change ev = false -> R w (record ev w)) ->
  preserves R f -> preserves R (invoke fn arg f init : M L A).
Proof.
  intros Ht Hr Hf l w r l' w' E. apply invoke_inv in E. destruct E as [_ [lf E]].
  eapply Ht; [apply (Hr w (EvEnter fn arg)); reflexivity | eapply Hf; exact E].
Qed.

Lemma cn_refl w : changes_nothing w w.
Proof. reflexivity. Qed.

Lemma cn_trans a b c : changes_nothing a b -> changes_nothing b c -> changes_nothing a c.
Proof. unfold changes_nothing. congruence. Qed.

Lemma cn_record w ev : is_change ev = false -> changes_nothing w (record ev w).
Proof. intros E. unfold changes_nothing, changes_of. simpl. rewrite E. reflexivity. Qed.

Lemma preserves_call_cn {L T} (c : Call T) :
  changes c = false -> preserves changes_nothing (call c : M L T).
Proof.
  intros Hc l w r l' w' E. apply call_inv in E. destruct E as (_ & Ev & _).
  unfold changes_nothing, changes_of. rewrite Ev. simpl. rewrite Hc. reflexivity.
Qed.

Lemma preserves_on_cn {L T} mb (c : MBean -> Call T) :
  (forall m, changes (c m) = false) -> preserves changes_nothing (on mb c : M L T).
Proof.
  intros Hc. destruct mb; simpl; [apply preserves_call_cn, Hc | apply preserves_raise, cn_refl].
Qed.

Lemma preserves_raw_input_cn {L} prompt :
  preserves changes_nothing (raw_input prompt : M L string).
Proof.
  intros l w r l' w' E. unfold raw_input in E.
  destruct (w_inputs w); inversion E; subst; reflexivity.
Qed.

Lemma preserves_lookup_cn {L T} {registry_queries : Queries} mb (q : MBean -> Env -> res T) :
  preserves changes_nothing (lookup mb q : M L T).
Proof.
  destruct mb; simpl; [|apply preserves_raise, cn_refl].
  intros l w r l' w' E. inversion E; subst. reflexivity.
Qed.

Lemma si_refl w : same_inputs w w.
Proof. reflexivity. Qed.

Lemma si_trans a b c : same_inputs a b -> same_inputs b c -> same_inputs a c.
Proof. unfold same_inputs. congruence. Qed.

Lemma preserves_call_si {L T} (c : Call T) : preserves same_inputs (call c : M L T).
Proof. eapply preserves_weaken; [|apply preserves_call_qsi]. intros w w' [_ Hi]. exact Hi. Qed.

Lemma preserves_on_si {L T} mb (c : MBean -> Call T) :
  preserves same_inputs (on mb c : M L T).
Proof. eapply preserves_weaken; [|apply preserves_on_qsi]. intros w w' [_ Hi]. exact Hi. Qed.

Lemma preserves_cd_si {L} path : preserves same_inputs (cd path : M L unit).
Proof. eapply preserves_weaken; [|apply preserves_cd_qsi]. intros w w' [_ Hi]. exact Hi. Qed.

Lemma preserves_invoke_si {L L' A} fn arg (f : M L' A) init :
  preserves same_inputs f -> preserves same_inputs (invoke fn arg f init : M L A).
Proof.
  intros Hf l w r l' w' E. apply invoke_inv in E. destruct E as [_ [lf E]].
  apply Hf in E. exact E.
Qed.

Lemma preserves_ask_si {L} prompt :
  is_standalone = true -> preserves same_inputs (ask prompt : M L string).
Proof. intros Hs. unfold ask. rewrite Hs. apply preserves_ret, si_refl. Qed.

End Observing.

#[export] Hint Resolve cn_refl cn_trans si_refl si_trans preserves_raw_input_cn
  preserves_lookup_cn preserves_call_si preserves_on_si preserves_cd_si : pres.
#[export] Hint Extern 1 (preserves changes_nothing (call _)) =>
  apply preserves_call_cn; reflexivity : pres.
#[export] Hint Extern 1 (preserves changes_nothing (on _ _)) =>
  apply preserves_on_cn; intro; reflexivity : pres.

Section ReadOnly.
Context `{Platform}.

(** X11.  [get_prj_details] only asks: it makes no call that opens, activates
    or discards a session or the edit transaction, or that changes the
    configuration. *)
Theorem get_prj_details_changes_nothing prj_name l w :
  changes_of (w_events (world_of (get_prj_details prj_name l w)))
  = changes_of (w_events w).
Proof.
  assert (Hp : preserves changes_nothing (get_prj_details prj_name)).
  { unfold get_prj_details, detail_of_ref, d_append, toString, first_uri_xml. pres. }
  destruct (get_prj_details prj_name l w) as [[r l'] w'] eqn:E.
  exact (Hp _ _ _ _ _ E).
Qed.

Context {registry_queries : Queries}.

(** X12.  The three listings only ask as well. *)
Theorem listings_change_nothing ci w :
  (forall l, changes_of (w_events (world_of (list_projects ci l w)))
             = changes_of (w_events w))
  /\ (forall l, changes_of (w_events (world_of (list_proxy_services ci l w)))
                = changes_of (w_events w))
  /\ (forall l, changes_of (w_events (world_of (list_business_services ci l w)))
                = changes_of (w_events w)).
Proof.
  assert (H1 : preserves changes_nothing (list_projects ci))
    by (unfold list_projects; pres).
  assert (H2 : preserves changes_nothing (list_proxy_services ci))
    by (unfold list_proxy_services, s_append; pres).
  assert (H3 : preserves changes_nothing (list_business_services ci))
    by (unfold list_business_services, business_row, s_append, toString, first_uri_xml;
        pres).
  split; [|split]; intros l.
  - destruct (list_projects ci l w) as [[r l'] w'] eqn:E. exact (H1 _ _ _ _ _ E).
  - destruct (list_proxy_services ci l w) as [[r l'] w'] eqn:E. exact (H2 _ _ _ _ _ E).
  - destruct (list_business_services ci l w) as [[r l'] w'] eqn:E. exact (H3 _ _ _ _ _ E).
Qed.

End ReadOnly.

Section Unattended.
Context `{Platform}.
Hypothesis Hs : is_standalone = true.

Lemma delete_found_queue_si kind destroy q b :
  preserves same_inputs (delete_found_queue kind destroy q b).
Proof.
  pose proof (fun p => @preserves_ask_si _ queue_locals p Hs) as Hask.
  unfold delete_found_queue, q_set_found, q_append, q_set_dmq_deleted. pres.
Qed.

Lemma delete_queue_si q : preserves same_inputs (delete_queue q).
Proof.
  pose proof (fun p => @preserves_ask_si _ queue_locals p Hs) as Hask.
  unfold delete_queue, delete_queue_body, delete_in_module, delete_in_foreign_server,
    q_set_found, q_append. pres; apply delete_found_queue_si.
Qed.

Lemma discard_session_si sm s : preserves same_inputs (discard_session sm s).
Proof. unfold discard_session. pres. Qed.

Lemma bulk_toggle_si t ci paths action :
  preserves same_inputs (bulk_toggle t ci paths action).
Proof.
  pose proof discard_session_si as Hd.
  unfold bulk_toggle, toggle_body, toggle_failed, toggle_path, toggle_ref,
    t_append, t_set_session_name, t_set_session_mbean, t_incr_mod, t_set_cnt.
  rewrite Hs.
  pres; try (apply preserves_invoke_si, Hd).
Qed.

End Unattended.

(* ------------------------------------------------------------------ *)
(** ** The edit transaction of the two reapers *)

Section EditTransaction.
Context `{Platform}.

Lemma for_each_inv {L X} (I : L -> World -> Prop) (body : X -> M L ctl) xs :
  (forall x l w c l' w', I l w -> body x l w = (Ok c, l', w') -> I l' w') ->
  forall l w b l' w', I l w -> for_each xs body l w = (Ok b, l', w') -> I l' w'.
Proof.
  intros Hb. induction xs as [|x xs IH]; intros l w b l' w' Hi E.
  - apply ret_inv in E. destruct E as (_ & -> & ->). exact Hi.
  - simpl in E. apply bind_inv_ok in E. destruct E as (c & l1 & w1 & Ex & E).
    pose proof (Hb _ _ _ _ _ _ Hi Ex) as Hi1.
    destruct c; [eapply IH; eassumption | |];
      apply ret_inv in E; destruct E as (_ & -> & ->); exact Hi1.
Qed.

Lemma edit_state_other {T} (c : Call T) r evs :
  marks_edit c = false -> edit_state (EvCall c r :: evs) = edit_state evs.
Proof. destruct c; simpl; intros E; try reflexivity; discriminate. Qed.

Lemma edit_closed_other {T} (c : Call T) r evs :
  marks_edit c = false -> edit_closed (EvCall c r :: evs) = edit_closed evs.
Proof. intros E. unfold edit_closed. rewrite edit_state_other by exact E. reflexivity. Qed.

(** X17.  The row [delete_work_manager] reports last tells the state it leaves
    the edit transaction in: activated after "Deleted", cancelled after
    "Failed", and still open after "Not found". *)
Theorem delete_work_manager_outcome wm_name w rows l' w' :
  delete_work_manager wm_name [] w = (Ok rows, l', w') ->
  (last rows [] = ["Work manager"; wm_name; "Deleted"]
   /\ edit_state (w_events w') = Some EditActivated)
  \/ (rows = [["Work manager"; wm_name; "Not found"]]
      /\ edit_state (w_events w') = Some EditOpen)
  \/ (last rows [] = ["Work manager"; wm_name; "Failed"]
      /\ edit_state (w_events w') = Some EditCancelled).
Proof.
  intros E.
  unfold delete_work_manager, append_row, cd, bind, try_except, call, modL, getL, cmo,
    ret in E.
  simpl in E. exec E; inversion E; subst; simpl; auto.
Qed.

Lemma delete_found_queue_closes kind destroy q b l w c l' w' :
  delete_found_queue kind destroy q b l w = (Ok c, l', w') ->
  edit_closed (w_events w') = true.
Proof.
  intros E.
  unfold delete_found_queue, ask, bind, q_set_found, q_append, q_set_dmq_deleted,
    modL, getL, cmo, raw_input, call, ret in E.
  destruct is_standalone; simpl in E; exec E; inversion E; subst; reflexivity.
Qed.

Lemma foreign_round_closes m q s l w c l' w' :
  found_means_closed l w ->
  delete_in_foreign_server m q s l w = (Ok c, l', w') ->
  found_means_closed l' w'.
Proof.
  intros Hi E.
  unfold delete_in_foreign_server, ask, cd, bind, q_set_found, q_append,
    modL, getL, cmo, raw_input, call, ret in E.
  destruct is_standalone; simpl in E; exec E; inversion E; subst;
    try (intros _; reflexivity).
  all: intros Hf; unfold found_means_closed in Hi; simpl;
    rewrite edit_closed_other by reflexivity; auto.
Qed.

Lemma module_round_closes q m l w c l' w' :
  found_means_closed l w ->
  delete_in_module q m l w = (Ok c, l', w') ->
  found_means_closed l' w'.
Proof.
  intros Hi E. unfold delete_in_module in E.
  apply bind_inv_ok in E. destruct E as (u & l1 & w1 & Ecd & E).
  apply cd_inv_ok in Ecd. destruct Ecd as (-> & _ & _ & Hev1).
  apply bind_inv_ok in E. destruct E as (p & l2 & w2 & Ecmo & E).
  inversion Ecmo; subst p l2 w2; clear Ecmo.
  apply bind_inv_ok in E. destruct E as (ob & l2 & w2 & Elk & E).
  apply call_inv in Elk. destruct Elk as (-> & Hev2 & _).
  destruct ob as [b|].
  { intros _. eapply delete_found_queue_closes. exact E. }
  apply bind_inv_ok in E. destruct E as (ob & l3 & w3 & Elk & E).
  apply call_inv in Elk. destruct Elk as (-> & Hev3 & _).
  destruct ob as [b|].
  { intros _. eapply delete_found_queue_closes. exact E. }
  apply bind_inv_ok in E. destruct E as (srvs & l4 & w4 & Efs & E).
  apply call_inv in Efs. destruct Efs as (-> & Hev4 & _).
  apply bind_inv_ok in E. destruct E as (x & l5 & w5 & Eloop & E).
  apply bind_inv_ok in E. destruct E as (l6 & l7 & w7 & Eget & E).
  inversion Eget; subst l6 l7 w7; clear Eget.
  assert (H4 : found_means_closed l w4).
  { intros Hf. rewrite Hev4, Hev3, Hev2, Hev1.
    rewrite !edit_closed_other by reflexivity. exact (Hi Hf). }
  pose proof (for_each_inv found_means_closed _ srvs
                (foreign_round_closes (bean_name m) q) _ _ _ _ _ H4 Eloop) as H5.
  destruct (is_queue_found l5); apply ret_inv in E; destruct E as (_ & -> & ->); exact H5.
Qed.

(** X18.  When [delete_queue] returns for a name that is not blank, the edit
    transaction it started is activated or cancelled. *)
Theorem delete_queue_closes_edit queue_name w rows l' w' :
  strip queue_name <> "" ->
  delete_queue queue_name queue_locals0 w = (Ok rows, l', w') ->
  edit_state (w_events w') = Some EditActivated
  \/ edit_state (w_events w') = Some EditCancelled.
Proof.
  intros Hq E.
  assert (Hc : edit_closed (w_events w') = true).
  2:{ unfold edit_closed in Hc.
      destruct (edit_state (w_events w')) as [[| |]|]; auto; discriminate. }
  unfold delete_queue in E.
  destruct (strip queue_name =? "") eqn:Eq; [apply String.eqb_eq in Eq; contradiction|].
  unfold try_except in E.
  destruct (delete_queue_body (strip queue_name) queue_locals0 w) as [[[a|e] l1] w1] eqn:Eb.
  - inversion E; subst a l1 w1; clear E.
    unfold delete_queue_body in Eb.
    apply bind_inv_ok in Eb. destruct Eb as (? & l1 & w1 & E1 & Eb).
    apply call_inv in E1. destruct E1 as (-> & _).
    apply bind_inv_ok in Eb. destruct Eb as (? & l2 & w2 & E2 & Eb).
    apply call_inv in E2. destruct E2 as (-> & _).
    apply bind_inv_ok in Eb. destruct Eb as (? & l3 & w3 & E3 & Eb).
    apply cd_inv_ok in E3. destruct E3 as (-> & _).
    apply bind_inv_ok in Eb. destruct Eb as (p & l4 & w4 & Ecmo & Eb).
    inversion Ecmo; subst p l4 w4; clear Ecmo.
    apply bind_inv_ok in Eb. destruct Eb as (mods & l4 & w4 & E4 & Eb).
    apply call_inv in E4. destruct E4 as (-> & _).
    apply bind_inv_ok in Eb. destruct Eb as (looped & l5 & w5 & Eloop & Eb).
    assert (H4 : found_means_closed queue_locals0 w4) by (intro Hf; discriminate Hf).
    pose proof (for_each_inv found_means_closed _ mods
                  (module_round_closes (strip queue_name)) _ _ _ _ _ H4 Eloop) as H5.
    apply bind_inv_ok in Eb. destruct Eb as (l6 & l7 & w7 & Eget & Eb).
    inversion Eget; subst l6 l7 w7; clear Eget.
    apply bind_inv_ok in Eb. destruct Eb as (u & l6 & w6 & Efin & Eb).
    apply bind_inv_ok in Eb. destruct Eb as (l7 & l8 & w8 & Eget & Eb).
    inversion Eget; subst l7 l8 w8; clear Eget.
    apply ret_inv in Eb. destruct Eb as (_ & -> & ->).
    destruct (is_queue_found l5) eqn:Hf; simpl in Efin.
    + apply ret_inv in Efin. destruct Efin as (_ & -> & ->). exact (H5 Hf).
    + apply bind_inv_ok in Efin. destruct Efin as (? & l7 & w7 & _ & Efin).
      apply call_inv in Efin. destruct Efin as (_ & Hev & _).
      rewrite Hev. reflexivity.
  - unfold bind, call, q_append, modL, getL, ret in E. simpl in E.
    exec E; inversion E; subst; reflexivity.
Qed.

End EditTransaction.

(* ------------------------------------------------------------------ *)
(** ** The bulk toggles: the action, and failures before the session *)

Section ToggleEdges.
Context `{Platform}.

(** X19.  An action that is neither 0 nor 1 enables: the state of every
    reference is changed by the enabling call, and the row of the report
    says "Disabled". *)
Theorem toggle_action_out_of_range t action sm alsb_mbean psc_mbean session_name
    prx_full_name prx_local_name ref l w c l' w' :
  action <> 0%Z -> action <> 1%Z ->
  toggle_ref t action sm alsb_mbean psc_mbean session_name prx_full_name prx_local_name
    ref l w = (Ok c, l', w') ->
  exists psc service_uri,
    psc_mbean = Some psc
    /\ In (EvCall (enable t psc ref) (Ok tt)) (w_events w')
    /\ t_report l' = (t_report l ++ [(prx_full_name, "Disabled", service_uri)])%list
    /\ mod_prx_cnt l' = mod_prx_cnt l + 1.
Proof.
  intros H0 H1 E.
  assert (Hz : (action =? 0)%Z = false) by (apply Z.eqb_neq; exact H0).
  assert (Hz1 : (action =? 1)%Z = false) by (apply Z.eqb_neq; exact H1).
  unfold toggle_ref, same_state, ActionTxt in E. rewrite Hz, Hz1 in E.
  destruct alsb_mbean as [alsb|]; [|discriminate E].
  destruct psc_mbean as [psc|]; [|simpl in E; unfold bind, call in E; exec E].
  unfold on, bind, call, t_append, t_incr_mod, modL, getL, raw_input, ret in E.
  simpl in E.
  repeat (exec_step E; simpl in E; rewrite ?Hz, ?Hz1 in E; simpl in E;
          try discriminate E).
  all: inversion E; subst; simpl; exists psc; eexists;
    (split; [reflexivity|]); (split; [|split; reflexivity]);
    repeat match goal with
      | r : unit |- _ => destruct r
      end; simpl; auto.
Qed.

(** X20.  When [domainRuntime()], [System.currentTimeMillis()] or the search
    for the session service raises, the handler of a bulk toggle fails in
    turn, on the name [session_mbean] that is not bound yet: the toggle
    raises [NameError], and no call that changes the registry was made. *)
Theorem toggle_fails_before_session t ci paths action w :
  is_ok (result_of
           (bind (call DomainRuntime) (fun _ =>
            bind (call CurrentTimeMillis) (fun _ =>
            call (FindService "SessionManagement"))) tt w)) = false ->
  result_of (bulk_toggle t ci paths action toggle_locals0 w) = Raise NameError
  /\ changes_of (w_events (world_of (bulk_toggle t ci paths action toggle_locals0 w)))
     = changes_of (w_events w).
Proof.
  unfold bulk_toggle, toggle_body, toggle_failed, try_except, bind, call, read_var,
    t_set_session_name, modL, result_of, world_of.
  simpl.
  destruct (respond unit DomainRuntime (w_env w)) as [[u|e] env1]; simpl;
    [|intros _; split; reflexivity].
  destruct (respond N CurrentTimeMillis env1) as [[n|e] env2]; simpl;
    [|intros _; split; reflexivity].
  destruct (respond (option MBean) (FindService "SessionManagement") env2)
    as [[sm|e] env3]; simpl; [discriminate|].
  intros _; split; reflexivity.
Qed.

End ToggleEdges.

(* ------------------------------------------------------------------ *)
(** ** Refusals *)


Section RefusalProofs.
Context `{Platform}.
Variable removed : list Event.
Hypothesis Hs : is_standalone = false.

Lemma kr_refl w : keeps_refusing removed w w.
Proof. intro; assumption. Qed.

Lemma kr_trans a b c :
  keeps_refusing removed a b -> keeps_refusing removed b c -> keeps_refusing removed a c.
Proof. unfold keeps_refusing. auto. Qed.

Lemma preserves_call_kr {L T} (c : Call T) :
  removes c = false -> preserves (keeps_refusing removed) (call c : M L T).
Proof.
  intros Hc l w r l' w' E [Hi Hr]. apply call_inv in E.
  destruct E as (_ & Ev & Ei & _). split; [rewrite Ei; exact Hi|].
  unfold removals_of. rewrite Ev. simpl. rewrite Hc. exact Hr.
Qed.

Lemma preserves_on_kr {L T} mb (c : MBean -> Call T) :
  (forall m, removes (c m) = false) -> preserves (keeps_refusing removed) (on mb c : M L T).
Proof.
  intros Hc. destruct mb; simpl;
    [apply preserves_call_kr, Hc | apply preserves_raise, kr_refl].
Qed.

Lemma cd_inv {L} path (l : L) w r l' w' :
  cd path l w = (r, l', w') ->
  w_inputs w' = w_inputs w
  /\ exists answer, w_events w' = EvCall (Cd path) answer :: w_events w.
Proof.
  unfold cd, bind, call. destruct (respond unit (Cd path) (w_env w)) as [[u|e] env];
    intros E; inversion E; simpl; eauto.
Qed.

Lemma preserves_cd_kr {L} path : preserves (keeps_refusing removed) (cd path : M L unit).
Proof.
  intros l w r l' w' E [Hi Hr]. apply cd_inv in E. destruct E as (Ei & answer & Ev).
  split; [rewrite Ei; exact Hi|]. unfold removals_of. rewrite Ev. exact Hr.
Qed.

Lemma preserves_raw_input_kr {L} prompt :
  preserves (keeps_refusing removed) (raw_input prompt : M L string).
Proof.
  intros l w r l' w' E [Hi Hr]. unfold raw_input in E.
  destruct (w_inputs w) as [|a rest] eqn:Ein; inversion E; split; simpl; auto.
  - rewrite Ein. constructor.
  - inversion Hi; assumption.
Qed.

Lemma preserves_invoke_kr {L L' A} fn arg (f : M L' A) init :
  preserves (keeps_refusing removed) f ->
  preserves (keeps_refusing removed) (invoke fn arg f init : M L A).
Proof.
  intros Hf l w r l' w' E Hw. apply invoke_inv in E. destruct E as [_ [lf E]].
  eapply Hf; [exact E|]. exact Hw.
Qed.

(** What follows a question is run on a refusal. *)
Lemma preserves_ask_refused {L A} prompt (k : string -> M L A) :
  (forall a, confirmed a = false -> preserves (keeps_refusing removed) (k a)) ->
  preserves (keeps_refusing removed) (bind (ask prompt) k).
Proof.
  intros Hk l w r l' w' E [Hi Hr]. unfold bind, ask, raw_input in E. rewrite Hs in E.
  destruct (w_inputs w) as [|a rest] eqn:Ein.
  - inversion E. split; simpl; [rewrite Ein; constructor | exact Hr].
  - inversion Hi as [|? ? Ha Hrest].
    eapply (Hk a Ha); [exact E|]. split; simpl; assumption.
Qed.

End RefusalProofs.

#[export] Hint Resolve kr_refl kr_trans preserves_cd_kr preserves_raw_input_kr : pres.
#[export] Hint Extern 1 (preserves (keeps_refusing _) (call _)) =>
  apply preserves_call_kr; reflexivity : pres.
#[export] Hint Extern 1 (preserves (keeps_refusing _) (on _ _)) =>
  apply preserves_on_kr; intro; reflexivity : pres.

(** The step at a question of the operator. *)
Ltac refused Hs :=
  apply (preserves_ask_refused _ Hs);
  let a := fresh "a" in let Ha := fresh "Ha" in
  intros a Ha; rewrite ?Ha; cbv iota.

Section RefusalTheorems.
Context `{Platform}.
Variable removed : list Event.
Hypothesis Hs : is_standalone = false.

Lemma delete_found_queue_kr kind destroy q b :
  preserves (keeps_refusing removed) (delete_found_queue kind destroy q b).
Proof.
  unfold delete_found_queue, q_set_found, q_append, q_set_dmq_deleted.
  apply preserves_bind; pres_side. refused Hs. pres.
Qed.

Lemma delete_in_foreign_server_kr m q s :
  preserves (keeps_refusing removed) (delete_in_foreign_server m q s).
Proof.
  unfold delete_in_foreign_server, q_set_found, q_append.
  apply preserves_bind; pres_side. destruct a as [fd|]; [|pres].
  apply preserves_bind; pres_side. apply preserves_bind; pres_side.
  refused Hs. pres.
Qed.

Lemma delete_queue_kr q : preserves (keeps_refusing removed) (delete_queue q).
Proof.
  unfold delete_queue, delete_queue_body, delete_in_module, q_set_found, q_append.
  pres; try apply (delete_found_queue_kr); try apply delete_in_foreign_server_kr.
Qed.

Lemma get_prj_details_kr n : preserves (keeps_refusing removed) (get_prj_details n).
Proof. unfold get_prj_details, detail_of_ref, d_append, toString, first_uri_xml. pres. Qed.

Lemma discard_session_kr sm s : preserves (keeps_refusing removed) (discard_session sm s).
Proof. unfold discard_session. pres. Qed.

Lemma delete_in_session_kr p s : preserves (keeps_refusing removed) (delete_in_session p s).
Proof.
  unfold delete_in_session, u_set_session_mbean, u_append.
  do 5 (apply preserves_bind; pres_side). destruct a3; [|pres].
  refused Hs. pres.
Qed.

Lemma delete_failed_kr p s : preserves (keeps_refusing removed) (delete_failed p s).
Proof.
  unfold delete_failed, u_append. pres. apply preserves_invoke_kr, discard_session_kr.
Qed.

Lemma cascade_kr d : preserves (keeps_refusing removed) (cascade d).
Proof.
  unfold cascade, cascade_queues, cascade_work_managers, u_extend, u_append,
    u_set_wm_name.
  destruct d as [|[|r rows]]; try (apply preserves_ret, kr_refl).
  apply preserves_bind; pres_side.
  - pres. apply preserves_invoke_kr, delete_queue_kr.
  - apply preserves_try; pres_side; [|pres].
    apply preserves_bind; pres_side. apply preserves_bind; pres_side; [pres|].
    apply preserves_bind; pres_side. apply preserves_for_each; pres_side.
    apply preserves_bind; pres_side. refused Hs. pres.
Qed.

Lemma undeploy_one_kr ci p : preserves (keeps_refusing removed) (undeploy_one ci p).
Proof.
  pose proof delete_in_session_kr as H1. pose proof delete_failed_kr as H2.
  pose proof cascade_kr as H3.
  unfold undeploy_one. pres. apply preserves_invoke_kr, get_prj_details_kr.
Qed.

End RefusalTheorems.

(* ------------------------------------------------------------------ *)
(** ** Paths of proxy services *)

Lemma join_cons_nonempty sep x y l :
  join sep (x :: y :: l) = x ++ sep ++ join sep (y :: l).
Proof. reflexivity. Qed.

Lemma join_split c s : join (String c "") (split c s) = s.
Proof.
  induction s as [|x s IH]; [reflexivity|].
  simpl split. destruct (split c s) as [|w ws] eqn:E; [exfalso; exact (split_not_nil c s E)|].
  destruct (Ascii.eqb x c) eqn:Ex.
  - apply Ascii.eqb_eq in Ex. subst x. rewrite join_cons_nonempty, IH. reflexivity.
  - destruct ws as [|w' ws].
    + simpl in *. rewrite IH. reflexivity.
    + rewrite join_cons_nonempty. rewrite join_cons_nonempty in IH.
      rewrite append_cons, IH. reflexivity.
Qed.

Lemma join_app_last sep l x :
  l <> [] -> join sep (l ++ [x]) = join sep l ++ sep ++ x.
Proof.
  induction l as [|y l IH]; intros Hl; [congruence|].
  destruct l as [|z l].
  - reflexivity.
  - change ((y :: z :: l) ++ [x])%list with (y :: (z :: l) ++ [x])%list.
    change ((z :: l) ++ [x])%list with (z :: l ++ [x])%list.
    rewrite join_cons_nonempty. change (z :: l ++ [x])%list with ((z :: l) ++ [x])%list.
    rewrite IH by discriminate. rewrite join_cons_nonempty, !append_assoc. reflexivity.
Qed.

Lemma split_pieces_without c s :
  Forall (fun w => contains (String c "") w = false) (split c s).
Proof.
  induction s as [|x s IH]; simpl.
  - repeat constructor.
  - destruct (split c s) as [|w ws] eqn:E; [exfalso; exact (split_not_nil c s E)|].
    inversion IH as [|? ? Hw Hws]; subst.
    destruct (Ascii.eqb x c) eqn:Ex.
    + constructor; [reflexivity | exact IH].
    + constructor; [|exact Hws].
      rewrite contains_char_cons, Hw, Ascii.eqb_sym, Ex. reflexivity.
Qed.

Lemma split_single c s : split c s = [s] \/ exists w w' ws, split c s = w :: w' :: ws.
Proof.
  destruct (split c s) as [|w [|w' ws]] eqn:E.
  - exfalso. exact (split_not_nil c s E).
  - left. pose proof (join_split c s) as J. rewrite E in J. simpl in J. congruence.
  - right. eauto.
Qed.

Lemma split_with c s :
  contains (String c "") s = true -> exists w w' ws, split c s = w :: w' :: ws.
Proof.
  intros Hc. destruct (split_single c s) as [E|E]; [|exact E].
  pose proof (split_pieces_without c s) as Hf. rewrite E in Hf.
  inversion Hf; congruence.
Qed.

(** X23.  The path and the local name a bulk toggle asks the registry for make
    up the full name it was given: the local name is the text after the
    last "/", the path the text before it, and a name without "/" has the
    empty path. *)
Theorem path_and_local_name prx_full_name :
  let prx_local_name := last_item (split "/" prx_full_name) in
  let prx_path := join "/" (removelast (split "/" prx_full_name)) in
  contains "/" prx_local_name = false
  /\ (if contains "/" prx_full_name
      then prx_full_name = prx_path ++ "/" ++ prx_local_name
      else prx_path = "" /\ prx_local_name = prx_full_name).
Proof.
  cbv zeta. unfold last_item. split.
  - pose proof (split_pieces_without "/" prx_full_name) as Hf.
    rewrite Forall_forall in Hf. apply Hf.
    destruct (@exists_last _ (split "/" prx_full_name)) as (l' & x & El);
      [apply split_not_nil|].
    rewrite El, last_last. apply in_or_app. right. left. reflexivity.
  - destruct (contains "/" prx_full_name) eqn:Hc.
    + destruct (split_with "/" prx_full_name Hc) as (w & w' & ws & E).
      pose proof (join_split "/" prx_full_name) as J.
      destruct (@exists_last _ (split "/" prx_full_name)) as (l' & x & El);
        [apply split_not_nil|].
      rewrite El in J. rewrite El, removelast_last, last_last.
      rewrite <- join_app_last; [symmetry; exact J|].
      intros ->. rewrite E in El. discriminate.
    + rewrite (split_without "/" prx_full_name Hc). split; reflexivity.
Qed.

(* ------------------------------------------------------------------ *)
(** ** The prompts of the bulk toggles *)

Section Prompts.
Context `{Platform}.

Lemma ask_paths_from_skips {L} n : forall line rest (l : L) w,
  line <> "" ->
  w_inputs w = (repeat "" n ++ line :: rest)%list ->
  ask_paths_from (w_inputs w) l w
  = (Ok line, l,
     mkWorld (w_env w)
       (EvInput ASK_PATHS (Some line)
        :: repeat (EvInput ASK_PATHS (Some "")) n ++ w_events w)%list
       rest (w_cmo w)).
Proof.
  induction n as [|n IH]; intros line rest l w Hl Hin.
  - simpl in Hin. rewrite Hin. simpl. unfold bind, raw_input. rewrite Hin.
    destruct (line =? "") eqn:E; [apply String.eqb_eq in E; contradiction|].
    reflexivity.
  - simpl in Hin. rewrite Hin. simpl. unfold bind, raw_input at 1. rewrite Hin. simpl.
    specialize (IH line rest l
                  (mkWorld (w_env w) (EvInput ASK_PATHS (Some "") :: w_events w)
                     (repeat "" n ++ line :: rest)%list (w_cmo w)) Hl eq_refl).
    simpl in IH. rewrite IH. simpl.
    replace (repeat (EvInput ASK_PATHS (Some "")) n
             ++ EvInput ASK_PATHS (Some "") :: w_events w)%list
      with (EvInput ASK_PATHS (Some "")
            :: repeat (EvInput ASK_PATHS (Some "")) n ++ w_events w)%list; [reflexivity|].
    clear. induction n as [|n IHn]; simpl; [reflexivity | rewrite <- IHn; reflexivity].
Qed.

(** X21.  The prompt for the paths is repeated as long as the operator enters
    empty lines: the first line that is not empty is the answer, and
    nothing but the lines read is recorded. *)
Theorem ask_paths_skips_empty_lines {L} n line rest (l : L) w :
  line <> "" ->
  w_inputs w = (repeat "" n ++ line :: rest)%list ->
  ask_paths l w
  = (Ok line, l,
     mkWorld (w_env w)
       (EvInput ASK_PATHS (Some line)
        :: repeat (EvInput ASK_PATHS (Some "")) n ++ w_events w)%list
       rest (w_cmo w)).
Proof. intros Hl Hin. unfold ask_paths. apply ask_paths_from_skips; assumption. Qed.

(** X22.  An action that is not a number makes a bulk toggle raise
    [ValueError] after its two prompts: no call was made to the registry,
    and no session was created. *)
Theorem toggle_rejects_action t ci paths action rest l w :
  paths <> "" ->
  w_inputs w = paths :: action :: rest ->
  py_int (strip action) = None ->
  toggle_from_input t ci l w
  = (Raise ValueError, l,
     mkWorld (w_env w)
       (EvInput (ASK_ACTION t) (Some action) :: EvInput ASK_PATHS (Some paths)
        :: w_events w)
       rest (w_cmo w)).
Proof.
  intros Hp Hin Hint. unfold toggle_from_input. unfold bind at 1.
  unfold ask_paths at 1.
  rewrite (ask_paths_from_skips 0 paths (action :: rest) l w Hp Hin). simpl.
  unfold bind, raw_input, int. simpl. rewrite Hint. reflexivity.
Qed.

End Prompts.

(* ------------------------------------------------------------------ *)
(** ** The listings *)

Section ListingProofs.
Context `{Platform} {registry_queries : Queries}.








End ListingProofs.

(* ------------------------------------------------------------------ *)
(** ** What a run keeps *)

Section KeepingProofs.
Context `{Platform}.

Lemma extends_refl w : extends w w.
Proof. exists []. reflexivity. Qed.

Lemma extends_trans a b c : extends a b -> extends b c -> extends a c.
Proof.
  intros [x Hx] [y Hy]. exists (y ++ x)%list. rewrite Hy, Hx, app_assoc. reflexivity.
Qed.

Lemma preserves_call_ext {L T} (c : Call T) : preserves extends (call c : M L T).
Proof.
  intros l w r l' w' E. apply call_inv in E. destruct E as (_ & Ev & _).
  exists [EvCall c r]. exact Ev.
Qed.

Lemma preserves_on_ext {L T} mb (c : MBean -> Call T) : preserves extends (on mb c : M L T).
Proof.
  destruct mb; simpl; [apply preserves_call_ext | apply preserves_raise, extends_refl].
Qed.

Lemma preserves_cd_ext {L} path : preserves extends (cd path : M L unit).
Proof.
  intros l w r l' w' E. apply cd_inv in E. destruct E as (_ & answer & Ev).
  exists [EvCall (Cd path) answer]. exact Ev.
Qed.

Lemma preserves_raw_input_ext {L} prompt : preserves extends (raw_input prompt : M L string).
Proof.
  intros l w r l' w' E. unfold raw_input in E.
  destruct (w_inputs w); inversion E; simpl; eexists [_]; reflexivity.
Qed.

Lemma preserves_ask_ext {L} prompt : preserves extends (ask prompt : M L string).
Proof.
  unfold ask. destruct is_standalone;
    [apply preserves_ret, extends_refl | apply preserves_raw_input_ext].
Qed.

Lemma preserves_invoke_ext {L L' A} fn arg (f : M L' A) init :
  preserves extends f -> preserves extends (invoke fn arg f init : M L A).
Proof.
  intros Hf l w r l' w' E. apply invoke_inv in E. destruct E as [_ [lf E]].
  apply Hf in E. eapply extends_trans; [|exact E]. exists [EvEnter fn arg]. reflexivity.
Qed.

End KeepingProofs.

#[export] Hint Resolve extends_refl extends_trans preserves_call_ext preserves_on_ext
  preserves_cd_ext preserves_raw_input_ext preserves_ask_ext : pres.

Section KeepingRules.
Context `{Platform}.

Lemma delete_work_manager_ext n : preserves extends (delete_work_manager n).
Proof. unfold delete_work_manager, append_row. pres. Qed.

Lemma delete_queue_ext q : preserves extends (delete_queue q).
Proof.
  unfold delete_queue, delete_queue_body, delete_in_module, delete_in_foreign_server,
    delete_found_queue, q_set_found, q_append, q_set_dmq_deleted. pres.
Qed.

Lemma discard_session_ext sm s : preserves extends (discard_session sm s).
Proof. unfold discard_session. pres. Qed.

Lemma get_prj_details_ext n : preserves extends (get_prj_details n).
Proof. unfold get_prj_details, detail_of_ref, d_append, toString, first_uri_xml. pres. Qed.

Lemma keeps_ret {L A} (I : L -> World -> Prop) (a : A) : keeps I (ret a).
Proof. intros l w r l' w' Hi E. inversion E; subst. exact Hi. Qed.

Lemma keeps_raise {L A} (I : L -> World -> Prop) e : keeps I (raise e : M L A).
Proof. intros l w r l' w' Hi E. inversion E; subst. exact Hi. Qed.

Lemma keeps_getL {L} (I : L -> World -> Prop) : keeps I getL.
Proof. intros l w r l' w' Hi E. inversion E; subst. exact Hi. Qed.

Lemma keeps_read_var {L A} (I : L -> World -> Prop) (g : L -> option A) :
  keeps I (read_var g).
Proof.
  intros l w r l' w' Hi E. unfold read_var in E. destruct (g l); inversion E; subst; exact Hi.
Qed.

Lemma keeps_modL {L} (I : L -> World -> Prop) (f : L -> L) :
  (forall l w, I l w -> I (f l) w) -> keeps I (modL f).
Proof. intros Hf l w r l' w' Hi E. inversion E; subst. apply Hf, Hi. Qed.

Lemma keeps_bind {L A B} (I : L -> World -> Prop) (m : M L A) (k : A -> M L B) :
  keeps I m -> (forall a, keeps I (k a)) -> keeps I (bind m k).
Proof.
  intros Hm Hk l w r l' w' Hi E. unfold bind in E.
  destruct (m l w) as [[[a|e] l1] w1] eqn:Em.
  - eapply Hk; [|exact E]. eapply Hm; eassumption.
  - inversion E; subst. eapply Hm; eassumption.
Qed.

Lemma keeps_try {L A} (I : L -> World -> Prop) (m : M L A) (h : exn -> M L A) :
  keeps I m -> (forall e, keeps I (h e)) -> keeps I (try_except m h).
Proof.
  intros Hm Hh l w r l' w' Hi E. unfold try_except in E.
  destruct (m l w) as [[[a|e] l1] w1] eqn:Em.
  - inversion E; subst. eapply Hm; eassumption.
  - eapply Hh; [|exact E]. eapply Hm; eassumption.
Qed.

Lemma keeps_for_each {L X} (I : L -> World -> Prop) (xs : list X) (body : X -> M L ctl) :
  (forall x, keeps I (body x)) -> keeps I (for_each xs body).
Proof.
  intros Hb. induction xs as [|x xs IH]; simpl.
  - apply keeps_ret.
  - apply keeps_bind; [apply Hb|].
    intros [| |]; [exact IH | apply keeps_ret | apply keeps_ret].
Qed.

Lemma keeps_leaving {L A} (I : L -> World -> Prop) (m : M L A) :
  steady I -> leaves_locals m -> keeps I m.
Proof.
  intros Hs Hm l w r l' w' Hi E. apply Hm in E. destruct E as [-> He].
  eapply Hs; eassumption.
Qed.

Lemma call_leaves {L T} (c : Call T) : leaves_locals (call c : M L T).
Proof.
  intros l w r l' w' E. split; [|eapply preserves_call_ext; exact E].
  apply call_inv in E. tauto.
Qed.

Lemma on_leaves {L T} mb (c : MBean -> Call T) : leaves_locals (on mb c : M L T).
Proof.
  destruct mb; simpl; [apply call_leaves|].
  intros l w r l' w' E. inversion E. split; [reflexivity | apply extends_refl].
Qed.

Lemma cd_leaves {L} path : leaves_locals (cd path : M L unit).
Proof.
  intros l w r l' w' E. split; [|eapply preserves_cd_ext; exact E].
  unfold cd, bind, call in E.
  destruct (respond unit (Cd path) (w_env w)) as [[u|e] env]; inversion E; reflexivity.
Qed.

Lemma cmo_leaves {L} : leaves_locals (cmo : M L string).
Proof. intros l w r l' w' E. inversion E. split; [reflexivity | apply extends_refl]. Qed.

Lemma raw_input_leaves {L} prompt : leaves_locals (raw_input prompt : M L string).
Proof.
  intros l w r l' w' E. split; [|eapply preserves_raw_input_ext; exact E].
  unfold raw_input in E. destruct (w_inputs w); inversion E; reflexivity.
Qed.

Lemma ask_leaves {L} prompt : leaves_locals (ask prompt : M L string).
Proof.
  unfold ask. destruct is_standalone; [|apply raw_input_leaves].
  intros l w r l' w' E. inversion E. split; [reflexivity | apply extends_refl].
Qed.

Lemma invoke_leaves {L L' A} fn arg (f : M L' A) init :
  preserves extends f -> leaves_locals (invoke fn arg f init : M L A).
Proof.
  intros Hf l w r l' w' E. split; [|eapply preserves_invoke_ext; eassumption].
  apply invoke_inv in E. tauto.
Qed.

(** What follows the call of a function of the script is run on what the
    function returns. *)
Lemma keeps_invoke_then {L L' A B} (I : L -> World -> Prop) fn arg (f : M L' A) init
    (V : A -> Prop) (k : A -> M L B) :
  steady I -> preserves extends f -> returns f init V ->
  (forall a, V a -> keeps I (k a)) ->
  keeps I (bind (invoke fn arg f init) k).
Proof.
  intros Hs Hf Hv Hk l w r l' w' Hi E. unfold bind in E.
  destruct (invoke fn arg f init l w) as [[[a|e] l1] w1] eqn:Em.
  - pose proof (invoke_leaves fn arg f init Hf _ _ _ _ _ Em) as [-> He].
    apply invoke_inv in Em. destruct Em as [_ [lf Em]].
    eapply (Hk a); [eapply Hv; exact Em | | exact E]. eapply Hs; eassumption.
  - pose proof (invoke_leaves fn arg f init Hf _ _ _ _ _ Em) as [-> He].
    inversion E; subst. eapply Hs; eassumption.
Qed.

End KeepingRules.

Create HintDb keeps.
#[export] Hint Resolve keeps_ret keeps_raise keeps_getL keeps_read_var : keeps.
#[export] Hint Resolve call_leaves on_leaves cd_leaves cmo_leaves raw_input_leaves
  ask_leaves extends_refl extends_trans : keeps.
#[export] Hint Extern 3 (keeps _ _) => apply keeps_leaving : keeps.

(** Goes through a computation built from the combinators. *)
Ltac keep :=
  repeat match goal with
    | |- keeps _ (bind _ _) => apply keeps_bind; [|intro]
    | |- keeps _ (try_except _ _) => apply keeps_try; [|intro]
    | |- keeps _ (for_each _ _) => apply keeps_for_each; intro
    | |- keeps _ (match ?x with _ => _ end) => destruct x
    | |- keeps _ _ => solve [eauto with keeps]
    end.

(* ------------------------------------------------------------------ *)
(** ** The rows of the reapers *)

Section ReaperRows.
Context `{Platform}.

Lemma reaper_rows_steady {L} (rows : L -> list row) : steady (reaper_rows rows).
Proof. intros l w w' _ Hi. exact Hi. Qed.

Lemma reaper_row_lit kind name status :
  kind <> "OSB project" -> reaper_row [kind; name; status].
Proof. intros Hk. split; [reflexivity | exact Hk]. Qed.

Lemma keeps_append_row kind name status :
  kind <> "OSB project" ->
  keeps (reaper_rows (fun l => l)) (append_row [kind; name; status]).
Proof.
  intros Hk. apply keeps_modL. intros l w Hi. apply Forall_app. split; [exact Hi|].
  constructor; [apply reaper_row_lit, Hk | constructor].
Qed.

Lemma keeps_q_append kind name status :
  kind <> "OSB project" ->
  keeps (reaper_rows queues_report) (q_append [kind; name; status]).
Proof.
  intros Hk. apply keeps_modL. intros l w Hi. unfold reaper_rows. simpl.
  apply Forall_app. split; [exact Hi|].
  constructor; [apply reaper_row_lit, Hk | constructor].
Qed.

Lemma keeps_q_flags (f : queue_locals -> queue_locals) :
  (forall l, queues_report (f l) = queues_report l) ->
  keeps (reaper_rows queues_report) (modL f).
Proof.
  intros Hf. apply keeps_modL. intros l w Hi. unfold reaper_rows. rewrite Hf. exact Hi.
Qed.

Lemma delete_work_manager_keeps n :
  keeps (reaper_rows (fun l => l)) (delete_work_manager n).
Proof.
  pose proof (@reaper_rows_steady (list row) (fun l => l)) as Hst.
  unfold delete_work_manager.
  keep; try (apply keeps_append_row; discriminate).
Qed.

Lemma delete_work_manager_rows n : returns (delete_work_manager n) [] (Forall reaper_row).
Proof.
  intros w rows l' w' E.
  assert (Hk : reaper_rows (fun l => l) l' w').
  { eapply delete_work_manager_keeps; [|exact E]. constructor. }
  unfold delete_work_manager in E.
  apply bind_inv_ok in E. destruct E as (u & l1 & w1 & _ & E).
  inversion E; subst. exact Hk.
Qed.

Lemma delete_found_queue_keeps kind destroy q b :
  kind <> "OSB project" ->
  keeps (reaper_rows queues_report) (delete_found_queue kind destroy q b).
Proof.
  intros Hk. pose proof (reaper_rows_steady queues_report) as Hst.
  unfold delete_found_queue, q_set_found, q_set_dmq_deleted.
  keep; try (apply keeps_q_append; (exact Hk || discriminate));
    try (apply keeps_q_flags; reflexivity).
Qed.

Lemma delete_queue_keeps q : keeps (reaper_rows queues_report) (delete_queue q).
Proof.
  pose proof (reaper_rows_steady queues_report) as Hst.
  unfold delete_queue, delete_queue_body, delete_in_module, delete_in_foreign_server,
    q_set_found.
  keep; try (apply keeps_q_append; discriminate);
    try (apply keeps_q_flags; reflexivity);
    try (apply delete_found_queue_keeps; discriminate).
Qed.

Lemma delete_queue_returns_report q l w rows l' w' :
  delete_queue q l w = (Ok rows, l', w') -> rows = queues_report l'.
Proof.
  intros E. unfold delete_queue in E.
  destruct (strip q =? "").
  - apply bind_inv_ok in E. destruct E as (l0 & l1 & w1 & Eg & E).
    inversion Eg; subst. inversion E; subst. reflexivity.
  - unfold try_except in E.
    destruct (delete_queue_body (strip q) l w) as [[[a|e] l1] w1] eqn:Eb.
    + inversion E; subst a l1 w1; clear E. unfold delete_queue_body in Eb.
      do 7 (apply bind_inv_ok in Eb; destruct Eb as (? & ? & ? & _ & Eb)).
      apply bind_inv_ok in Eb. destruct Eb as (l0 & l2 & w2 & Eg & Eb).
      inversion Eg; subst. inversion Eb; subst. reflexivity.
    + do 3 (apply bind_inv_ok in E; destruct E as (? & ? & ? & _ & E)).
      apply bind_inv_ok in E. destruct E as (l0 & l2 & w2 & Eg & E).
      inversion Eg; subst. inversion E; subst. reflexivity.
Qed.

Lemma delete_queue_rows q : returns (delete_queue q) queue_locals0 (Forall reaper_row).
Proof.
  intros w rows l' w' E. rewrite (delete_queue_returns_report _ _ _ _ _ _ E).
  eapply (delete_queue_keeps q); [|exact E]. constructor.
Qed.

End ReaperRows.

(* ------------------------------------------------------------------ *)
(** ** The report of undeploy_osb_prj *)

Section UndeployReport.
Context `{Platform}.

Lemma deleted_and_activated_steady p w w' :
  extends w w' -> deleted_and_activated p (w_events w) ->
  deleted_and_activated p (w_events w').
Proof.
  intros [added Hev] (sm & s & alsb & H1 & H2). exists sm, s, alsb.
  rewrite Hev. split; apply in_or_app; right; assumption.
Qed.

Lemma report_backed_steady : steady report_backed.
Proof.
  intros l w w' He Hi r Hr. destruct (Hi r Hr) as [H3 Hd]. split; [exact H3|].
  intros p Hp. eapply deleted_and_activated_steady; eauto.
Qed.

Lemma keeps_u_append kind name status :
  status <> "Deleted" -> keeps report_backed (u_append [kind; name; status]).
Proof.
  intros Hs. apply keeps_modL. intros l w Hi r Hr. simpl in Hr.
  apply in_app_or in Hr. destruct Hr as [Hr|[<-|[]]]; [exact (Hi r Hr)|].
  split; [reflexivity|]. intros p Hp. inversion Hp. congruence.
Qed.

Lemma keeps_u_extend rows :
  Forall reaper_row rows -> keeps report_backed (u_extend rows).
Proof.
  intros Hrows. apply keeps_modL. intros l w Hi r Hr. simpl in Hr.
  apply in_app_or in Hr. destruct Hr as [Hr|Hr]; [exact (Hi r Hr)|].
  rewrite Forall_forall in Hrows. destruct (Hrows r Hr) as [H3 Hh].
  split; [exact H3|]. intros p Hp. subst r. simpl in Hh. congruence.
Qed.

Lemma keeps_u_flags (f : undeploy_locals -> undeploy_locals) :
  (forall l, report (f l) = report l) -> keeps report_backed (modL f).
Proof.
  intros Hf. apply keeps_modL. intros l w Hi. unfold report_backed. rewrite Hf. exact Hi.
Qed.

(** The row of a deleted project is written after the deletion and the
    activation returned. *)
Lemma delete_and_activate_keeps alsb sm p s :
  keeps report_backed
    (bind (on alsb (fun m => Delete m p)) (fun _ =>
     bind (on sm (fun m => ActivateSession m s ("Deleted '" ++ p ++ "'"))) (fun _ =>
     bind (u_append ["OSB project"; p; "Deleted"]) (fun _ => ret true)))).
Proof.
  intros l w r l' w' Hi E. unfold bind in E.
  destruct (on alsb (fun m => Delete m p) l w) as [[[u1|e1] l1] w1] eqn:E1.
  2:{ inversion E; subst. eapply (keeps_leaving _ _ report_backed_steady (on_leaves _ _));
      eassumption. }
  destruct (on sm (fun m => ActivateSession m s ("Deleted '" ++ p ++ "'")) l1 w1)
    as [[[u2|e2] l2] w2] eqn:E2.
  2:{ inversion E; subst.
      eapply (keeps_leaving _ _ report_backed_steady (on_leaves _ _)); [|exact E2].
      eapply (keeps_leaving _ _ report_backed_steady (on_leaves _ _)); eassumption. }
  destruct alsb as [a|]; [|discriminate E1]. destruct sm as [m|]; [|discriminate E2].
  simpl in E1, E2. apply call_inv in E1, E2.
  destruct E1 as (-> & Hev1 & _). destruct E2 as (-> & Hev2 & _).
  unfold u_append, modL, ret in E. inversion E; subst r l' w'; clear E.
  assert (Hext : extends w w2).
  { exists [EvCall (ActivateSession m s ("Deleted '" ++ p ++ "'")) (Ok u2);
            EvCall (Delete a p) (Ok u1)]. rewrite Hev2, Hev1. reflexivity. }
  intros r Hr. simpl in Hr. apply in_app_or in Hr. destruct Hr as [Hr|[<-|[]]].
  - eapply report_backed_steady; eassumption.
  - split; [reflexivity|]. intros p' Hp. inversion Hp; subst p'.
    exists m, s, a. destruct u1, u2. rewrite Hev2, Hev1. simpl. auto.
Qed.

Lemma delete_in_session_keeps p s : keeps report_backed (delete_in_session p s).
Proof.
  pose proof report_backed_steady as Hst.
  unfold delete_in_session, u_set_session_mbean.
  do 5 (apply keeps_bind; [keep; try (apply keeps_u_flags; reflexivity) | intro]).
  match goal with |- keeps _ (if ?b then _ else _) => destruct b end.
  - apply keeps_bind; [keep | intro].
    match goal with |- keeps _ (if ?b then _ else _) => destruct b end.
    + apply delete_and_activate_keeps.
    + keep. apply keeps_u_append. discriminate.
  - keep. apply keeps_u_append. discriminate.
Qed.

Lemma delete_failed_keeps p s : keeps report_backed (delete_failed p s).
Proof.
  pose proof report_backed_steady as Hst.
  unfold delete_failed. keep; try (apply keeps_u_append; discriminate).
  apply keeps_leaving; [exact Hst|]. apply invoke_leaves, discard_session_ext.
Qed.

Lemma cascade_keeps d : keeps report_backed (cascade d).
Proof.
  pose proof report_backed_steady as Hst.
  unfold cascade, cascade_queues, cascade_work_managers, u_set_wm_name.
  destruct d as [|[|r rows]]; try apply keeps_ret.
  apply keeps_bind; [|intro].
  - apply keeps_try; [|intro; apply keeps_ret].
    apply keeps_bind; [|intro; apply keeps_ret].
    apply keeps_for_each. intro q.
    apply (keeps_invoke_then _ _ _ _ _ (Forall reaper_row));
      [exact Hst | apply delete_queue_ext | apply delete_queue_rows |].
    intros rows' Hrows. keep. apply keeps_u_extend, Hrows.
  - apply keeps_try; [|intro; keep; apply keeps_u_append; discriminate].
    apply keeps_bind; [apply keeps_u_flags; reflexivity | intro].
    apply keeps_bind; [keep; apply keeps_u_flags; reflexivity | intro].
    apply keeps_bind; [|intro; apply keeps_ret].
    apply keeps_for_each. intro n.
    apply keeps_bind; [apply keeps_u_flags; reflexivity | intro].
    apply keeps_bind; [keep | intro].
    match goal with |- keeps _ (if ?b then _ else _) => destruct b end.
    + apply (keeps_invoke_then _ _ _ _ _ (Forall reaper_row));
        [exact Hst | apply delete_work_manager_ext | apply delete_work_manager_rows |].
      intros rows' Hrows. keep. apply keeps_u_extend, Hrows.
    + keep. apply keeps_u_append. discriminate.
Qed.

Lemma undeploy_one_keeps ci p : keeps report_backed (undeploy_one ci p).
Proof.
  pose proof report_backed_steady as Hst.
  pose proof delete_in_session_keeps as H1. pose proof delete_failed_keeps as H2.
  pose proof cascade_keeps as H3.
  unfold undeploy_one.
  keep; try (apply keeps_u_append; discriminate).
  apply keeps_leaving; [exact Hst|]. apply invoke_leaves, get_prj_details_ext.
Qed.

Lemma undeploy_osb_prj_backed ci w rows l' w' :
  undeploy_osb_prj ci undeploy_locals0 w = (Ok (Some rows), l', w') ->
  rows = report l' /\ report_backed l' w'.
Proof.
  intros E.
  assert (Hk : keeps report_backed (undeploy_osb_prj ci)).
  { pose proof report_backed_steady as Hst. pose proof (undeploy_one_keeps ci) as H1.
    unfold undeploy_osb_prj. keep. }
  split; [|eapply Hk; [|exact E]; intros r []].
  unfold undeploy_osb_prj in E.
  apply bind_inv_ok in E. destruct E as (names & l1 & w1 & _ & E).
  destruct (names =? "").
  - destruct is_standalone; inversion E.
  - apply bind_inv_ok in E. destruct E as (returned & l2 & w2 & _ & E).
    destruct returned; [inversion E|].
    apply bind_inv_ok in E. destruct E as (l0 & l3 & w3 & Eg & E).
    inversion Eg; subst. inversion E; subst. reflexivity.
Qed.

End UndeployReport.

(* ------------------------------------------------------------------ *)
(** ** Unattended runs, refusals, and the report of an undeploy *)

Section Workflows.
Context `{Platform}.

(** X15.  When the script runs unattended, [delete_queue] and the bulk toggles
    (after the lines they were given) read no input: no question waits
    for an operator. *)
Theorem unattended_reads_no_input :
  is_standalone = true ->
  (forall q l w, w_inputs (world_of (delete_queue q l w)) = w_inputs w)
  /\ (forall t ci paths action l w,
        w_inputs (world_of (bulk_toggle t ci paths action l w)) = w_inputs w).
Proof.
  intros Hs. split.
  - intros q l w. destruct (delete_queue q l w) as [[r l'] w'] eqn:E.
    exact (delete_queue_si Hs q _ _ _ _ _ E).
  - intros t ci paths action l w.
    destruct (bulk_toggle t ci paths action l w) as [[r l'] w'] eqn:E.
    exact (bulk_toggle_si Hs t ci paths action _ _ _ _ _ E).
Qed.

Lemma removals_after {L A} (m : M L A) l w :
  preserves (keeps_refusing (removals_of (w_events w))) m ->
  all_refused (w_inputs w) ->
  removals_of (w_events (world_of (m l w))) = removals_of (w_events w).
Proof.
  intros Hm Hi. destruct (m l w) as [[r l'] w'] eqn:E.
  destruct (Hm _ _ _ _ _ E) as [_ Hr]; [split; [exact Hi | reflexivity]|]. exact Hr.
Qed.

(** X16.  At the console, when the operator answers every question with a
    refusal, [delete_queue] and [undeploy_osb_prj] remove nothing: no
    project is deleted, no queue, work manager or constraint destroyed.  A
    refusal is an answer that is neither "Y" or "y" nor blank: an empty or
    blank line is taken for "Y" at every prompt. *)
Theorem refusing_removes_nothing :
  is_standalone = false ->
  (forall q l w,
     all_refused (w_inputs w) ->
     removals_of (w_events (world_of (delete_queue q l w))) = removals_of (w_events w))
  /\ (forall ci l w names answers,
        w_inputs w = names :: answers ->
        all_refused answers ->
        removals_of (w_events (world_of (undeploy_osb_prj ci l w)))
        = removals_of (w_events w))
  /\ (forall answers,
        all_refused answers <->
        Forall (fun a => upper a <> "Y" /\ strip a <> "") answers).
Proof.
  intros Hs. split; [|split].
  3: { intros answers. unfold all_refused. split; intros Ha;
       (eapply Forall_impl; [|exact Ha]); intros a; unfold confirmed;
       rewrite orb_false_iff, !String.eqb_neq; tauto. }
  - intros q l w Hi. apply removals_after; [apply delete_queue_kr; exact Hs | exact Hi].
  - intros ci l w names answers Hin Hi.
    destruct (undeploy_osb_prj ci l w) as [[r l'] w'] eqn:E. unfold world_of. simpl.
    unfold undeploy_osb_prj in E. rewrite Hs in E.
    unfold bind at 1 in E. unfold bind at 1 in E. unfold raw_input at 1 in E.
    rewrite Hin in E. unfold ret at 1 in E. cbv beta iota in E.
    pose proof (undeploy_one_kr (removals_of (w_events w)) Hs ci) as H1.
    match type of E with ?k ?l0 ?w0 = _ =>
      assert (Hk : preserves (keeps_refusing (removals_of (w_events w))) k)
        by (destruct (strip names =? ""); pres)
    end.
    destruct (Hk _ _ _ _ _ E) as [_ Hr]; [split; [exact Hi | reflexivity]|]. exact Hr.
Qed.

(** X24.  Every row of the report of [undeploy_osb_prj] that says a project
    was deleted is backed by the calls: the project was deleted in a
    session, and the session was activated. *)
Theorem undeploy_deleted_rows_backed ci w rows l' w' p :
  undeploy_osb_prj ci undeploy_locals0 w = (Ok (Some rows), l', w') ->
  In ["OSB project"; p; "Deleted"] rows ->
  exists sm session alsb,
    In (EvCall (ActivateSession sm session ("Deleted '" ++ p ++ "'")) (Ok tt))
       (w_events w')
    /\ In (EvCall (Delete alsb p) (Ok tt)) (w_events w').
Proof.
  intros E Hin. destruct (undeploy_osb_prj_backed _ _ _ _ _ E) as [-> Hb].
  destruct (Hb _ Hin) as [_ Hd]. exact (Hd p eq_refl).
Qed.

(** X25.  Every row of the report of [undeploy_osb_prj] has three cells, so
    the table [create_report] makes of it under the three column names
    has three columns: no cell is left out. *)
Theorem undeploy_report_three_columns ci w rows l' w' is_sorted :
  undeploy_osb_prj ci undeploy_locals0 w = (Ok (Some rows), l', w') ->
  Forall (fun r => length r = 3) rows
  /\ length (col_widths (fun cell : string => cell) rows
               ["OBJECT_TYPE"; "OBJECT_NAME"; "STATUS"] is_sorted) = 3.
Proof.
  intros E. destruct (undeploy_osb_prj_backed _ _ _ _ _ E) as [-> Hb].
  assert (H3 : Forall (fun r => length r = 3) (report l')).
  { apply Forall_forall. intros r Hr. exact (proj1 (Hb r Hr)). }
  split; [exact H3|]. rewrite col_widths_length.
  change (length ["OBJECT_TYPE"; "OBJECT_NAME"; "STATUS"]) with 3.
  clear - H3. induction H3 as [|r rs Hr _ IH]; [reflexivity|].
  cbn [map fold_right]. rewrite Hr, IH. reflexivity.
Qed.

(** X26.  Without a name of a project [undeploy_osb_prj] makes no call:
    unattended it raises [ValueError], and at the console, after a line
    that is empty or blank, it returns without a report. *)
Theorem undeploy_without_names ci l w :
  (is_standalone = true -> length argv < 4 ->
   undeploy_osb_prj ci l w = (Raise ValueError, l, w))
  /\ (is_standalone = false ->
      forall names rest,
        w_inputs w = names :: rest -> all_space names = true ->
        undeploy_osb_prj ci l w
        = (Ok None, l,
           mkWorld (w_env w)
             (EvInput "[INPUT] Enter one or several project names separated by space: "
                (Some names) :: w_events w)
             rest (w_cmo w))).
Proof.
  split.
  - intros Hs Hn. unfold undeploy_osb_prj. rewrite Hs.
    destruct (Nat.leb 4 (length argv)) eqn:E; [apply Nat.leb_le in E; lia|].
    reflexivity.
  - intros Hs names rest Hin Hb. unfold undeploy_osb_prj. rewrite Hs.
    unfold bind, raw_input. rewrite Hin. simpl.
    rewrite (strip_all_space names Hb). reflexivity.
Qed.

End Workflows.

(* ------------------------------------------------------------------ *)
(** ** The properties on the deployment *)

Section MoreWitnesses.
Import Registry Deployment Runs Catalog MoreRuns.

(** X3: the same two rows in two orders make the same sorted table. *)
Lemma create_report_sorted_any_order_witness :
  Permutation rows_one rows_two
  /\ create_report str_of_str "REPORT" rows_one OUTCOME_COLUMNS true
     = create_report str_of_str "REPORT" rows_two OUTCOME_COLUMNS true
  /\ create_report str_of_str "REPORT" rows_two OUTCOME_COLUMNS true
     = Ok [ "REPORT";
            "============ =========== =======";
            "OBJECT_TYPE  OBJECT_NAME STATUS ";
            "============ =========== =======";
            "OSB project  Billing     Deleted";
            "Work manager BillingWM   Skipped";
            "============ =========== =======" ].
Proof.
  split; [apply perm_swap|]. split; [|vm_compute; reflexivity].
  apply (create_report_sorted_any_order str_of_str "REPORT" rows_one rows_two
           OUTCOME_COLUMNS).
  apply perm_swap.
Defined.

(** X5: the entry of the environment DEV in a directory with two files of
    that environment. *)
Lemma get_env_prop_file_entries_witness :
  dict_get "DEV" (get_env_prop_file directory) = Some "new_DEV.properties"
  /\ In "new_DEV.properties" directory
  /\ endswith ".properties" "new_DEV.properties" = true
  /\ prop_env_of "new_DEV.properties" = "DEV".
Proof.
  assert (E : dict_get "DEV" (get_env_prop_file directory) = Some "new_DEV.properties")
    by (vm_compute; reflexivity).
  split; [exact E|].
  exact (get_env_prop_file_entries directory "DEV" "new_DEV.properties" E).
Defined.

(** X6: of the two files of the environment DEV the later one is kept. *)
Lemma get_env_prop_file_last_wins_witness :
  endswith ".properties" "new_DEV.properties" = true
  /\ (forall g, In g ["QA_stage.properties"] -> endswith ".properties" g = true ->
                prop_env_of g <> prop_env_of "new_DEV.properties")
  /\ dict_get (prop_env_of "new_DEV.properties")
       (get_env_prop_file
          (["manageOSB.py"; "PROD_live.properties"; "old_DEV.properties";
            "DEV_local.properties"]
           ++ "new_DEV.properties" :: ["QA_stage.properties"]))
     = Some "new_DEV.properties".
Proof.
  assert (H1 : endswith ".properties" "new_DEV.properties" = true) by reflexivity.
  assert (H2 : forall g, In g ["QA_stage.properties"] ->
                         endswith ".properties" g = true ->
                         prop_env_of g <> prop_env_of "new_DEV.properties").
  { intros g [<-|[]] _ E. vm_compute in E. discriminate E. }
  split; [exact H1|]. split; [exact H2|].
  exact (get_env_prop_file_last_wins
           ["manageOSB.py"; "PROD_live.properties"; "old_DEV.properties";
            "DEV_local.properties"]
           "new_DEV.properties" ["QA_stage.properties"] H1 H2).
Defined.

(** X7: a file named [release.2_DEV.properties] is the property file of the
    environment [release]. *)
Lemma prop_env_of_first_dot_witness :
  contains "." "release" = false
  /\ prop_env_of ("release" ++ "." ++ "2_DEV.properties")
     = (if contains "_" ("release" ++ "." ++ "2_DEV.properties")
        then last_item (split "_" "release") else "release")
  /\ prop_env_of "release.2_DEV.properties" = "release".
Proof.
  split; [reflexivity|]. split; [|vm_compute; reflexivity].
  apply (prop_env_of_first_dot "release" "2_DEV.properties"). reflexivity.
Defined.

(** X8: the file of the example in the script. *)
Lemma prop_env_of_documented_witness :
  contains "." "manageJmsQueues" = false
  /\ contains "." "DEV" = false
  /\ contains "_" "DEV" = false
  /\ prop_env_of ("manageJmsQueues" ++ "_" ++ "DEV" ++ ".properties") = "DEV".
Proof.
  split; [reflexivity|]. split; [reflexivity|]. split; [reflexivity|].
  apply (prop_env_of_documented "manageJmsQueues" "DEV"); reflexivity.
Defined.

(** X10: a dictionary of two entries gone through in the two orders. *)
Lemma avail_envs_rows_any_order_witness :
  Permutation dictionary_one dictionary_two
  /\ avail_envs_rows dictionary_one = avail_envs_rows dictionary_two
  /\ avail_envs_rows dictionary_two = [["live"; "stage"; ""; ""]].
Proof.
  split; [apply perm_swap|]. split; [|vm_compute; reflexivity].
  apply (avail_envs_rows_any_order dictionary_one dictionary_two). apply perm_swap.
Defined.


(** X15: started with arguments the script asks nothing. *)
Lemma unattended_reads_no_input_witness :
  @is_standalone (unattended ["Billing"]) = true
  /\ (forall q l w,
        @w_inputs (unattended ["Billing"])
          (world_of (@delete_queue (unattended ["Billing"]) q l w))
        = @w_inputs (unattended ["Billing"]) w)
  /\ (forall t ci paths action l w,
        @w_inputs (unattended ["Billing"])
          (world_of (@bulk_toggle (unattended ["Billing"]) t ci paths action l w))
        = @w_inputs (unattended ["Billing"]) w).
Proof.
  split; [reflexivity|].
  exact (@unattended_reads_no_input (unattended ["Billing"]) eq_refl).
Defined.

(** X16: the undeploy of [Billing] that the operator declines removes
    nothing. *)
Lemma refusing_removes_nothing_witness :
  @is_standalone console = false
  /\ w_inputs (start interactive registry0 ["Billing"; "N"]) = ["Billing"; "N"]
  /\ all_refused ["N"]
  /\ removals_of (w_events (world_of undeploy_declined)) = [].
Proof.
  assert (Hs : @is_standalone console = false) by reflexivity.
  assert (Hr : all_refused ["N"]) by (repeat constructor).
  split; [exact Hs|]. split; [reflexivity|]. split; [exact Hr|].
  exact (proj1 (proj2 (@refusing_removes_nothing console Hs)) conn undeploy_locals0
           (start interactive registry0 ["Billing"; "N"]) "Billing" ["N"] eq_refl Hr).
Defined.

(** X17: the work manager that does not exist: the last row is the row "Not
    found", and the edit transaction is open. *)
Lemma delete_work_manager_outcome_witness :
  @delete_work_manager console "NoSuchWM" [] (start interactive registry0 [])
  = (Ok [["Work manager"; "NoSuchWM"; "Not found"]],
     locals_of reap_missing_work_manager, world_of reap_missing_work_manager)
  /\ ((last [["Work manager"; "NoSuchWM"; "Not found"]] []
       = ["Work manager"; "NoSuchWM"; "Deleted"]
       /\ edit_state (w_events (world_of reap_missing_work_manager)) = Some EditActivated)
      \/ ([["Work manager"; "NoSuchWM"; "Not found"]]
          = [["Work manager"; "NoSuchWM"; "Not found"]]
          /\ edit_state (w_events (world_of reap_missing_work_manager)) = Some EditOpen)
      \/ (last [["Work manager"; "NoSuchWM"; "Not found"]] []
          = ["Work manager"; "NoSuchWM"; "Failed"]
          /\ edit_state (w_events (world_of reap_missing_work_manager))
             = Some EditCancelled)).
Proof.
  assert (E : @delete_work_manager console "NoSuchWM" [] (start interactive registry0 [])
              = (Ok [["Work manager"; "NoSuchWM"; "Not found"]],
                 locals_of reap_missing_work_manager,
                 world_of reap_missing_work_manager))
    by (vm_compute; reflexivity).
  split; [exact E|].
  exact (@delete_work_manager_outcome console "NoSuchWM" (start interactive registry0 [])
           [["Work manager"; "NoSuchWM"; "Not found"]]
           (locals_of reap_missing_work_manager) (world_of reap_missing_work_manager) E).
Defined.

(** X18: the queue whose deletion the operator declines: the edit transaction
    is cancelled. *)
Lemma delete_queue_closes_edit_witness :
  strip "BillingQueue" <> ""
  /\ @delete_queue console "BillingQueue" queue_locals0 (start interactive registry0 ["N"])
     = (Ok [["UniformDistributedQueue"; "BillingQueue"; "Skipped"]],
        locals_of reap_queue_declined, world_of reap_queue_declined)
  /\ (edit_state (w_events (world_of reap_queue_declined)) = Some EditActivated
      \/ edit_state (w_events (world_of reap_queue_declined)) = Some EditCancelled).
Proof.
  assert (Hq : strip "BillingQueue" <> "") by (intro X; vm_compute in X; discriminate X).
  assert (E : @delete_queue console "BillingQueue" queue_locals0
                (start interactive registry0 ["N"])
              = (Ok [["UniformDistributedQueue"; "BillingQueue"; "Skipped"]],
                 locals_of reap_queue_declined, world_of reap_queue_declined))
    by (vm_compute; reflexivity).
  split; [exact Hq|]. split; [exact E|].
  exact (@delete_queue_closes_edit console "BillingQueue"
           (start interactive registry0 ["N"])
           [["UniformDistributedQueue"; "BillingQueue"; "Skipped"]]
           (locals_of reap_queue_declined) (world_of reap_queue_declined) Hq E).
Defined.

(** X19: the action 2 on a proxy service that is enabled. *)
Lemma toggle_action_out_of_range_witness :
  2%Z <> 0%Z /\ 2%Z <> 1%Z
  /\ @toggle_ref (platform toggle_args) Enablement 2%Z (Some "SessionManagement")
       (Some "ALSBConfiguration.weblogic_1000")
       (Some "ProxyServiceConfiguration.weblogic_1000")
       "weblogic_1000" "Billing/Proxy/In" "In" billing_in toggle_locals0 session_world
     = (Ok Next, locals_of toggle_with_two, world_of toggle_with_two)
  /\ exists psc service_uri,
       Some "ProxyServiceConfiguration.weblogic_1000" = Some psc
       /\ In (EvCall (enable Enablement psc billing_in) (Ok tt))
             (w_events (world_of toggle_with_two))
       /\ t_report (locals_of toggle_with_two)
          = (t_report toggle_locals0 ++ [("Billing/Proxy/In", "Disabled", service_uri)])%list
       /\ mod_prx_cnt (locals_of toggle_with_two) = mod_prx_cnt toggle_locals0 + 1.
Proof.
  assert (H0 : 2%Z <> 0%Z) by discriminate.
  assert (H1 : 2%Z <> 1%Z) by discriminate.
  assert (E : @toggle_ref (platform toggle_args) Enablement 2%Z (Some "SessionManagement")
                (Some "ALSBConfiguration.weblogic_1000")
                (Some "ProxyServiceConfiguration.weblogic_1000")
                "weblogic_1000" "Billing/Proxy/In" "In" billing_in toggle_locals0
                session_world
              = (Ok Next, locals_of toggle_with_two, world_of toggle_with_two))
    by (vm_compute; reflexivity).
  split; [exact H0|]. split; [exact H1|]. split; [exact E|].
  exact (@toggle_action_out_of_range (platform toggle_args) Enablement 2%Z
           (Some "SessionManagement") (Some "ALSBConfiguration.weblogic_1000")
           (Some "ProxyServiceConfiguration.weblogic_1000")
           "weblogic_1000" "Billing/Proxy/In" "In" billing_in toggle_locals0 session_world
           Next (locals_of toggle_with_two) (world_of toggle_with_two) H0 H1 E).
Defined.

(** X20: a bulk toggle when [domainRuntime()] raises. *)
Lemma toggle_fails_before_session_witness :
  is_ok (result_of
           (@bind (platform toggle_args) unit unit (option MBean)
              (call DomainRuntime) (fun _ =>
            bind (call CurrentTimeMillis) (fun _ =>
            call (FindService "SessionManagement"))) tt offline_world)) = false
  /\ result_of (@bulk_toggle (platform toggle_args) Enablement conn ["Billing/Proxy/In"]
                  0%Z toggle_locals0 offline_world) = Raise NameError
  /\ changes_of (w_events (world_of
                   (@bulk_toggle (platform toggle_args) Enablement conn
                      ["Billing/Proxy/In"] 0%Z toggle_locals0 offline_world)))
     = changes_of (w_events offline_world).
Proof.
  assert (E : is_ok (result_of
                (@bind (platform toggle_args) unit unit (option MBean)
                   (call DomainRuntime) (fun _ =>
                 bind (call CurrentTimeMillis) (fun _ =>
                 call (FindService "SessionManagement"))) tt offline_world)) = false)
    by (vm_compute; reflexivity).
  split; [exact E|].
  exact (@toggle_fails_before_session (platform toggle_args) Enablement conn
           ["Billing/Proxy/In"] 0%Z offline_world E).
Defined.

(** X21: two empty lines before the path. *)
Lemma ask_paths_skips_empty_lines_witness :
  "Billing/Proxy/In" <> ""
  /\ w_inputs prompt_world = (repeat "" 2 ++ "Billing/Proxy/In" :: ["0"])%list
  /\ @ask_paths console toggle_locals toggle_locals0 prompt_world
     = (Ok "Billing/Proxy/In", toggle_locals0,
        @mkWorld console (w_env prompt_world)
          (EvInput ASK_PATHS (Some "Billing/Proxy/In")
           :: repeat (EvInput ASK_PATHS (Some "")) 2 ++ w_events prompt_world)%list
          ["0"] (w_cmo prompt_world)).
Proof.
  assert (Hl : "Billing/Proxy/In" <> "") by discriminate.
  split; [exact Hl|]. split; [reflexivity|].
  exact (@ask_paths_skips_empty_lines console toggle_locals 2 "Billing/Proxy/In" ["0"]
           toggle_locals0 prompt_world Hl eq_refl).
Defined.

(** X22: the action "yes". *)
Lemma toggle_rejects_action_witness :
  "Billing/Proxy/In" <> ""
  /\ w_inputs answer_world = ["Billing/Proxy/In"; "yes"]
  /\ py_int (strip "yes") = None
  /\ @toggle_from_input console Enablement conn toggle_locals0 answer_world
     = (Raise ValueError, toggle_locals0,
        @mkWorld console (w_env answer_world)
          (EvInput (ASK_ACTION Enablement) (Some "yes")
           :: EvInput ASK_PATHS (Some "Billing/Proxy/In") :: w_events answer_world)
          [] (w_cmo answer_world)).
Proof.
  assert (Hl : "Billing/Proxy/In" <> "") by discriminate.
  split; [exact Hl|]. split; [reflexivity|]. split; [reflexivity|].
  exact (@toggle_rejects_action console Enablement conn "Billing/Proxy/In" "yes" []
           toggle_locals0 answer_world Hl eq_refl eq_refl).
Defined.

(** X24: the undeploy of [Billing] at the console, the work manager kept. *)
Lemma undeploy_deleted_rows_backed_witness :
  @undeploy_osb_prj console conn undeploy_locals0
    (start interactive registry0 ["Billing"; "Y"; "Y"; "Y"; "N"])
  = (Ok (Some [ ["OSB project"; "Billing"; "Deleted"];
                ["UniformDistributedQueue"; "BillingQueue"; "Deleted"];
                ["DMQ"; "BillingDMQ"; "Deleted"];
                ["Work manager"; "BillingWM"; "Skipped"] ]),
     locals_of undeploy_keep_work_manager, world_of undeploy_keep_work_manager)
  /\ exists sm session alsb,
       In (EvCall (ActivateSession sm session ("Deleted '" ++ "Billing" ++ "'")) (Ok tt))
          (w_events (world_of undeploy_keep_work_manager))
       /\ In (EvCall (Delete alsb "Billing") (Ok tt))
             (w_events (world_of undeploy_keep_work_manager)).
Proof.
  assert (E : @undeploy_osb_prj console conn undeploy_locals0
                (start interactive registry0 ["Billing"; "Y"; "Y"; "Y"; "N"])
              = (Ok (Some [ ["OSB project"; "Billing"; "Deleted"];
                            ["UniformDistributedQueue"; "BillingQueue"; "Deleted"];
                            ["DMQ"; "BillingDMQ"; "Deleted"];
                            ["Work manager"; "BillingWM"; "Skipped"] ]),
                 locals_of undeploy_keep_work_manager,
                 world_of undeploy_keep_work_manager))
    by (vm_compute; reflexivity).
  split; [exact E|].
  exact (@undeploy_deleted_rows_backed console conn
           (start interactive registry0 ["Billing"; "Y"; "Y"; "Y"; "N"])
           [ ["OSB project"; "Billing"; "Deleted"];
             ["UniformDistributedQueue"; "BillingQueue"; "Deleted"];
             ["DMQ"; "BillingDMQ"; "Deleted"];
             ["Work manager"; "BillingWM"; "Skipped"] ]
           (locals_of undeploy_keep_work_manager) (world_of undeploy_keep_work_manager)
           "Billing" E (or_introl eq_refl)).
Defined.

(** X25: the table of that undeploy has its three columns. *)
Lemma undeploy_report_three_columns_witness :
  @undeploy_osb_prj console conn undeploy_locals0
    (start interactive registry0 ["Billing"; "Y"; "Y"; "Y"; "N"])
  = (Ok (Some [ ["OSB project"; "Billing"; "Deleted"];
                ["UniformDistributedQueue"; "BillingQueue"; "Deleted"];
                ["DMQ"; "BillingDMQ"; "Deleted"];
                ["Work manager"; "BillingWM"; "Skipped"] ]),
     locals_of undeploy_keep_work_manager, world_of undeploy_keep_work_manager)
  /\ Forall (fun r : list string => length r = 3)
       [ ["OSB project"; "Billing"; "Deleted"];
         ["UniformDistributedQueue"; "BillingQueue"; "Deleted"];
         ["DMQ"; "BillingDMQ"; "Deleted"];
         ["Work manager"; "BillingWM"; "Skipped"] ]
  /\ length (col_widths (fun cell : string => cell)
               [ ["OSB project"; "Billing"; "Deleted"];
                 ["UniformDistributedQueue"; "BillingQueue"; "Deleted"];
                 ["DMQ"; "BillingDMQ"; "Deleted"];
                 ["Work manager"; "BillingWM"; "Skipped"] ]
               ["OBJECT_TYPE"; "OBJECT_NAME"; "STATUS"] true) = 3.
Proof.
  assert (E : @undeploy_osb_prj console conn undeploy_locals0
                (start interactive registry0 ["Billing"; "Y"; "Y"; "Y"; "N"])
              = (Ok (Some [ ["OSB project"; "Billing"; "Deleted"];
                            ["UniformDistributedQueue"; "BillingQueue"; "Deleted"];
                            ["DMQ"; "BillingDMQ"; "Deleted"];
                            ["Work manager"; "BillingWM"; "Skipped"] ]),
                 locals_of undeploy_keep_work_manager,
                 world_of undeploy_keep_work_manager))
    by (vm_compute; reflexivity).
  split; [exact E|].
  exact (@undeploy_report_three_columns console conn
           (start interactive registry0 ["Billing"; "Y"; "Y"; "Y"; "N"])
           [ ["OSB project"; "Billing"; "Deleted"];
             ["UniformDistributedQueue"; "BillingQueue"; "Deleted"];
             ["DMQ"; "BillingDMQ"; "Deleted"];
             ["Work manager"; "BillingWM"; "Skipped"] ]
           (locals_of undeploy_keep_work_manager) (world_of undeploy_keep_work_manager)
           true E).
Defined.

(** X26: undeploy without a name, unattended and at the console. *)
Lemma undeploy_without_names_witness :
  (@is_standalone (platform (automated [])) = true
   /\ length (@argv (platform (automated []))) < 4
   /\ @undeploy_osb_prj (platform (automated [])) conn undeploy_locals0 unnamed_world
      = (Raise ValueError, undeploy_locals0, unnamed_world))
  /\ (@is_standalone console = false
      /\ w_inputs blank_line_world = ["  "; "Y"]
      /\ all_space "  " = true
      /\ @undeploy_osb_prj console conn undeploy_locals0 blank_line_world
         = (Ok None, undeploy_locals0,
            @mkWorld console (w_env blank_line_world)
              (EvInput "[INPUT] Enter one or several project names separated by space: "
                 (Some "  ") :: w_events blank_line_world)
              ["Y"] (w_cmo blank_line_world))).
Proof.
  split.
  - assert (Hn : length (@argv (platform (automated []))) < 4) by (simpl; lia).
    split; [reflexivity|]. split; [exact Hn|].
    exact (proj1 (@undeploy_without_names (platform (automated [])) conn undeploy_locals0
                    unnamed_world) eq_refl Hn).
  - split; [reflexivity|]. split; [reflexivity|]. split; [reflexivity|].
    exact (proj2 (@undeploy_without_names console conn undeploy_locals0 blank_line_world)
             eq_refl "  " ["Y"] eq_refl eq_refl).
Defined.

End MoreWitnesses.
